(** * The OCR hook [useOcr] (src/hooks/useOcr.js) and its store (src/state/useStore.js)

    A shallow embedding of the hook's two asynchronous functions, [initWorker]
    and [runOcr], of the Tesseract [logger] callback, of the image
    downsampling done inside [runOcr], of [errMsg], and of the slice of the
    zustand store they read and write.

    Asynchronous code is cut at its [await]s: every function below is the
    synchronous stretch between two suspension points, the suspended
    activations are kept in the state, and the host (the engine, the timer
    queue, React) resumes them through the events of [step].

    A [runOcr] is a closure: [useCallback] makes a new one whenever the
    language or the cache object of the store changes, and each one reads
    the language and the cache object of the render that made it. The
    closure is therefore an argument of the call, and the calls the hook
    makes to itself name the closure the source names: the [finally] block
    the one it runs in, the timer callback of [initWorker] the one of the
    first render.

    Fractions (the zoom, progress reports, the downsampling ratio) are
    binary64 floats, page numbers and canvas sizes are integers, strings
    are UTF-8 byte sequences. The clean-up of the effect (a [terminate()]
    that nothing waits for) changes no ref and no store field and is left
    to the engine's events.

    Around the hook, the development embeds what calls it and what reads
    its results: the other actions of the store, the OCR panel
    (components/OcrPanel.jsx) with its cache key and its "all pages" text,
    the root component [App] with [triggerOcrForPage] and the keyboard
    shortcuts, and the two hooks that share the store, usePdfDocument
    (which empties the cache) and useAutoScroll. They are put together as
    one transition system, [App.step], over the state [app]. *)

From Stdlib Require Import ZArith Floats Uint63 Ascii String Lia Sorted.
From stdpp Require Import gmap strings list pretty.

Local Open Scope string_scope.
Local Open Scope Z_scope.

(** ** The JavaScript values and built-ins the hook relies on *)

Module JS.

(** *** Numbers: IEEE 754 binary64, the kernel's primitive floats *)

(** An integer as a number; exact for magnitudes below 2^53. *)
Definition of_Z (z : Z) : float :=
  match z with
  | Z0 => 0%float
  | Zpos _ => PrimFloat.of_uint63 (Uint63.of_Z z)
  | Zneg p => PrimFloat.opp (PrimFloat.of_uint63 (Uint63.of_Z (Zpos p)))
  end.

Definition signed (s : bool) (m : positive) : Z := if s then Zneg m else Zpos m.

(** [Math.round]: the nearest integer, a tie going up; NaN, the
    infinities and the zeros are returned as they are, and a negative
    argument that rounds to zero gives -0. *)
Definition Math_round (x : float) : float :=
  match Prim2SF x with
  | S754_finite s m e =>
      if 0 <=? e then x
      else
        let n := Z.shiftr (2 * signed s m + 2 ^ (- e)) (1 - e) in
        if (n =? 0) && s then neg_zero else of_Z n
  | _ => x
  end.

(** [Math.floor]. *)
Definition Math_floor (x : float) : float :=
  match Prim2SF x with
  | S754_finite s m e =>
      if 0 <=? e then x else of_Z (Z.shiftr (signed s m) (- e))
  | _ => x
  end.

(** [Math.min] and [Math.max]: NaN when an argument is NaN, and -0 below +0. *)
Definition Math_min (x y : float) : float :=
  if PrimFloat.is_nan x || PrimFloat.is_nan y then nan
  else if PrimFloat.ltb x y then x
  else if PrimFloat.ltb y x then y
  else if PrimFloat.get_sign x then x else y.

Definition Math_max (x y : float) : float :=
  if PrimFloat.is_nan x || PrimFloat.is_nan y then nan
  else if PrimFloat.ltb x y then y
  else if PrimFloat.ltb y x then x
  else if PrimFloat.get_sign x then y else x.

(** The integer a finite number truncates to, None for NaN and the infinities. *)
Definition truncate (x : float) : option Z :=
  match Prim2SF x with
  | S754_zero _ => Some 0
  | S754_finite s m e =>
      let a := if 0 <=? e then Zpos m * 2 ^ e else Z.shiftr (Zpos m) (- e) in
      Some (if s then - a else a)
  | _ => None
  end.

(** Storing a number into an [unsigned long] attribute (a canvas's width
    and height): truncation, modulo 2^32; NaN and the infinities give 0. *)
Definition to_uint32 (x : float) : N :=
  match truncate x with
  | Some t => Z.to_N (t mod 2 ^ 32)
  | None => 0%N
  end.

Definition two_digits (n : Z) : string :=
  if n <? 10 then "0" +:+ pretty n else pretty n.

(** [x.toFixed(2)]: the integer n with n/100 nearest to |x| (the larger
    one on a tie), printed with two decimals behind the sign of x.
    From 10^21 on JavaScript switches to the exponent form, which is not
    modelled: the store keeps the zoom between 0.25 and 5. *)
Definition toFixed2 (x : float) : string :=
  match Prim2SF x with
  | S754_nan => "NaN"
  | S754_infinity s => if s then "-Infinity" else "Infinity"
  | S754_zero _ => "0.00"
  | S754_finite s m e =>
      let n := if 0 <=? e then 100 * Zpos m * 2 ^ e
               else Z.shiftr (200 * Zpos m + 2 ^ (- e)) (1 - e) in
      (if s then "-" else "") +:+ pretty (n / 100) +:+ "." +:+ two_digits (n mod 100)
  end.

(** *** Strings: sequences of bytes, read as UTF-8 *)

Definition byte (a : ascii) : N := N_of_ascii a.

(** White space and line terminators in the ASCII range: TAB, LF, VT, FF, CR, SP. *)
Definition ws1 (a : ascii) : bool :=
  let n := byte a in ((9 <=? n) && (n <=? 13) || (n =? 32))%N.

(** U+00A0, encoded in two bytes. *)
Definition ws2 (a b : ascii) : bool :=
  ((byte a =? 194) && (byte b =? 160))%N.

(** The white space encoded in three bytes: U+1680, U+2000..U+200A,
    U+2028, U+2029, U+202F, U+205F, U+3000 and U+FEFF. *)
Definition ws3 (a b c : ascii) : bool :=
  let '(x, y, z) := (byte a, byte b, byte c) in
  ((x =? 225) && (y =? 154) && (z =? 128)
   || (x =? 226) && (y =? 128)
      && ((128 <=? z) && (z <=? 138) || (z =? 168) || (z =? 169) || (z =? 175))
   || (x =? 226) && (y =? 129) && (z =? 159)
   || (x =? 227) && (y =? 128) && (z =? 128)
   || (x =? 239) && (y =? 187) && (z =? 191))%N.

Fixpoint trimStart (s : string) : string :=
  match s with
  | String a s1 =>
      if ws1 a then trimStart s1
      else match s1 with
           | String b s2 =>
               if ws2 a b then trimStart s2
               else match s2 with
                    | String c s3 => if ws3 a b c then trimStart s3 else s
                    | EmptyString => s
                    end
           | EmptyString => s
           end
  | EmptyString => s
  end.

(** [trimStart] on the reversed string: the bytes of a character come last first. *)
Fixpoint trimStart_rev (s : string) : string :=
  match s with
  | String c s1 =>
      if ws1 c then trimStart_rev s1
      else match s1 with
           | String b s2 =>
               if ws2 b c then trimStart_rev s2
               else match s2 with
                    | String a s3 => if ws3 a b c then trimStart_rev s3 else s
                    | EmptyString => s
                    end
           | EmptyString => s
           end
  | EmptyString => s
  end.

(** [s.trim()]. *)
Definition trim (s : string) : string :=
  String.rev (trimStart_rev (String.rev (trimStart s))).

(** [s.length], in UTF-16 code units: one for a character of up to three
    bytes, two for one of four. *)
Fixpoint strlen (s : string) : Z :=
  match s with
  | EmptyString => 0
  | String a s1 =>
      let n := byte a in
      (if (n <? 128)%N || (192 <=? n)%N && (n <? 240)%N then 1
       else if (240 <=? n)%N then 2 else 0) + strlen s1
  end.

(** [s.toLowerCase()], on the letters A to Z. *)
Definition lower (a : ascii) : ascii :=
  let n := byte a in
  if ((65 <=? n) && (n <=? 90))%N then ascii_of_N (n + 32) else a.

Fixpoint toLowerCase (s : string) : string :=
  match s with
  | EmptyString => EmptyString
  | String a s1 => String (lower a) (toLowerCase s1)
  end.

(** [s.includes(k)]. *)
Fixpoint includes (s k : string) : bool :=
  String.prefix k s
  || match s with
     | EmptyString => false
     | String _ s1 => includes s1 k
     end.

(** *** Thrown values *)

(** What [JSON.stringify] does with a value. *)
Inductive json_result :=
| JsonText (s : string)
| JsonUndefined
| JsonThrows.

(** A value as [errMsg] can observe it. undefined, null, booleans and
    strings are themselves. Any other value (a number, a bigint, a symbol,
    a function, an object such as an Error) is [JOther], given by the four
    observations made of it: whether it is truthy, the value of its
    [message] property (undefined when it has none), the outcome of
    [JSON.stringify], and its conversion by [String]. Values whose
    property reads or conversions run code that throws are outside the
    model. *)
Inductive value :=
| JUndefined
| JNull
| JBoolean (b : bool)
| JString (s : string)
| JOther (truthy : bool) (message : value) (json : json_result) (str : string).

(** An [Error] object with the given message: its own properties are not
    enumerable, so it serialises to an empty object. *)
Definition Error (msg : string) : value :=
  JOther true (JString msg) (JsonText "{}")
    (if bool_decide (msg = "") then "Error" else "Error: " +:+ msg).

Definition ToBoolean (v : value) : bool :=
  match v with
  | JUndefined | JNull => false
  | JBoolean b => b
  | JString s => negb (bool_decide (s = ""))
  | JOther t _ _ _ => t
  end.

Definition is_string (v : value) : bool :=
  match v with JString _ => true | _ => false end.

(** [v.message], for a value that is neither null nor undefined. *)
Definition get_message (v : value) : value :=
  match v with
  | JOther _ m _ _ => m
  | _ => JUndefined
  end.

Definition escape_char (a : ascii) : string :=
  let n := byte a in
  if (n =? 34)%N then String "\" (String a "")
  else if (n =? 92)%N then "\\"
  else if (n =? 10)%N then "\n"
  else if (n =? 13)%N then "\r"
  else if (n =? 9)%N then "\t"
  else String a "".

Fixpoint escape (s : string) : string :=
  match s with
  | EmptyString => ""
  | String a s1 => escape_char a +:+ escape s1
  end.

Definition quote : string := String (ascii_of_N 34) "".

(** [JSON.stringify(v)]. [errMsg] passes it neither null nor undefined
    (they are falsy) nor a string; for a string, of the control characters
    only the common escapes are spelt out. *)
Definition JSON_stringify (v : value) : json_result :=
  match v with
  | JUndefined => JsonUndefined
  | JNull => JsonText "null"
  | JBoolean b => JsonText (if b then "true" else "false")
  | JString s => JsonText (quote +:+ escape s +:+ quote)
  | JOther _ _ j _ => j
  end.

(** [String(v)], also the conversion a template literal applies. *)
Definition ToString (v : value) : string :=
  match v with
  | JUndefined => "undefined"
  | JNull => "null"
  | JBoolean b => if b then "true" else "false"
  | JString s => s
  | JOther _ _ _ s => s
  end.

(** The outcome of evaluating an expression: a value or a throw. *)
Inductive completion (A : Type) :=
| Normal (a : A)
| Throw (e : value).
Arguments Normal {A} a.
Arguments Throw {A} e.

End JS.

Import JS.

(** ** [errMsg] (useOcr.js, lines 25-30) *)

(** Safely convert any thrown value to a string for logging. *)
Definition errMsg (err : value) : value :=
  if negb (ToBoolean err) then JString "Unknown error"
  else if is_string err then err
  else if ToBoolean (get_message err) then get_message err
  else match JSON_stringify err with
       | JsonText s => JString s
       | JsonUndefined => JUndefined
       | JsonThrows => JString (ToString err)
       end.

(** ** Data *)

(** A canvas: its two dimensions, the filter its content was drawn through
    (empty for a page as rendered), the page picture it shows, and whether
    the host lets it be drawn onto a fresh 2D context ([getContext] gives a
    context and [drawImage] accepts the canvas); when it does not, the
    drawing code throws. *)
Record HTMLCanvasElement := {
  width : N;
  height : N;
  filter : string;
  picture : nat;
  host_draws : bool;
}.

(** The arguments of [runOcr], which is also what [pendingRef] holds. *)
Record request := {
  canvas : HTMLCanvasElement;
  pageNumber : Z;
  zoom : float;
  forceRun : bool;
}.

(** What a [runOcr] closure captured from the render that made it (the
    dependencies of its [useCallback]): the language and the cache object of
    that render. *)
Record closure := {
  ocrLanguage_of : string;
  ocrCache_of : gmap string string;
}.

(** A Tesseract worker, bound to one language. *)
Record worker := {
  worker_lang : string;
}.

(** The refs of one mounted hook. *)
Record refs := {
  workerRef : option worker;
  workerReadyRef : bool;
  currentLangRef : option string;
  pendingRef : option request;
  isRunningRef : bool;
}.

(** The slice of the zustand store the hook uses (useStore.js). *)
Record store := {
  ocrLanguage : string;
  ocrCache : gmap string string;
  ocrLoading : bool;
  ocrProgress : float;
  workerReady : bool;
  workerInitProgress : float;
  workerInitStatus : string;
  ocrLog : list string;
}.

(** A [runOcr] activation suspended at [await workerRef.current.recognize]:
    its closure and the locals it uses when resumed. *)
Record recognition := {
  rec_closure : closure;
  rec_cacheKey : string;
  rec_pageNumber : Z;
}.

(** An [initWorker] activation, suspended at [await terminate()] or at
    [await createWorker(...)]. *)
Inductive initialization :=
| Terminating (lang : string)
| Creating (lang : string).

(** The host side: the wall clock as [toLocaleTimeString] prints it, the
    suspended activations, the callbacks queued by [setTimeout], and the
    images handed to the engine's [recognize] so far (newest first). *)
Record host := {
  now : string;
  recognizing : list recognition;
  initializing : list initialization;
  timeouts : list request;
  recognized : list HTMLCanvasElement;
}.

(** One mounted hook. [mounted] is the closure of the [runOcr] made by the
    first render: [initWorker] is memoised on the store's setters alone, so
    the [runOcr] its timer callback names is always that one. *)
Record state := {
  st_refs : refs;
  st_store : store;
  st_host : host;
  mounted : closure;
}.

Definition with_refs (f : refs -> refs) (st : state) : state :=
  {| st_refs := f (st_refs st); st_store := st_store st; st_host := st_host st;
     mounted := mounted st |}.

Definition with_store (f : store -> store) (st : state) : state :=
  {| st_refs := st_refs st; st_store := f (st_store st); st_host := st_host st;
     mounted := mounted st |}.

Definition with_host (f : host -> host) (st : state) : state :=
  {| st_refs := st_refs st; st_store := st_store st; st_host := f (st_host st);
     mounted := mounted st |}.

(** *** Assignments to the refs *)

Definition set_workerRef (w : option worker) : state -> state :=
  with_refs (fun r =>
    {| workerRef := w; workerReadyRef := workerReadyRef r;
       currentLangRef := currentLangRef r; pendingRef := pendingRef r;
       isRunningRef := isRunningRef r |}).

Definition set_workerReadyRef (b : bool) : state -> state :=
  with_refs (fun r =>
    {| workerRef := workerRef r; workerReadyRef := b;
       currentLangRef := currentLangRef r; pendingRef := pendingRef r;
       isRunningRef := isRunningRef r |}).

Definition set_currentLangRef (l : option string) : state -> state :=
  with_refs (fun r =>
    {| workerRef := workerRef r; workerReadyRef := workerReadyRef r;
       currentLangRef := l; pendingRef := pendingRef r;
       isRunningRef := isRunningRef r |}).

Definition set_pendingRef (p : option request) : state -> state :=
  with_refs (fun r =>
    {| workerRef := workerRef r; workerReadyRef := workerReadyRef r;
       currentLangRef := currentLangRef r; pendingRef := p;
       isRunningRef := isRunningRef r |}).

Definition set_isRunningRef (b : bool) : state -> state :=
  with_refs (fun r =>
    {| workerRef := workerRef r; workerReadyRef := workerReadyRef r;
       currentLangRef := currentLangRef r; pendingRef := pendingRef r;
       isRunningRef := b |}).

(** *** The store's actions (useStore.js, lines 18 and 59-83) *)

Definition setOcrLanguage (lang : string) : state -> state :=
  with_store (fun s =>
    {| ocrLanguage := lang; ocrCache := ocrCache s; ocrLoading := ocrLoading s;
       ocrProgress := ocrProgress s; workerReady := workerReady s;
       workerInitProgress := workerInitProgress s;
       workerInitStatus := workerInitStatus s; ocrLog := ocrLog s |}).

Definition set_ocrCache (c : gmap string string) : state -> state :=
  with_store (fun s =>
    {| ocrLanguage := ocrLanguage s; ocrCache := c; ocrLoading := ocrLoading s;
       ocrProgress := ocrProgress s; workerReady := workerReady s;
       workerInitProgress := workerInitProgress s;
       workerInitStatus := workerInitStatus s; ocrLog := ocrLog s |}).

(** [{ ...s.ocrCache, [key]: text }] *)
Definition setOcrResult (key text : string) (st : state) : state :=
  set_ocrCache (<[key := text]> (ocrCache (st_store st))) st.

Definition clearOcrCache : state -> state := set_ocrCache ∅.

Definition setOcrLoading (v : bool) : state -> state :=
  with_store (fun s =>
    {| ocrLanguage := ocrLanguage s; ocrCache := ocrCache s; ocrLoading := v;
       ocrProgress := ocrProgress s; workerReady := workerReady s;
       workerInitProgress := workerInitProgress s;
       workerInitStatus := workerInitStatus s; ocrLog := ocrLog s |}).

Definition setOcrProgress (p : float) : state -> state :=
  with_store (fun s =>
    {| ocrLanguage := ocrLanguage s; ocrCache := ocrCache s; ocrLoading := ocrLoading s;
       ocrProgress := p; workerReady := workerReady s;
       workerInitProgress := workerInitProgress s;
       workerInitStatus := workerInitStatus s; ocrLog := ocrLog s |}).

Definition setWorkerReady (v : bool) : state -> state :=
  with_store (fun s =>
    {| ocrLanguage := ocrLanguage s; ocrCache := ocrCache s; ocrLoading := ocrLoading s;
       ocrProgress := ocrProgress s; workerReady := v;
       workerInitProgress := workerInitProgress s;
       workerInitStatus := workerInitStatus s; ocrLog := ocrLog s |}).

Definition setWorkerInitProgress (p : float) (status : string) : state -> state :=
  with_store (fun s =>
    {| ocrLanguage := ocrLanguage s; ocrCache := ocrCache s; ocrLoading := ocrLoading s;
       ocrProgress := ocrProgress s; workerReady := workerReady s;
       workerInitProgress := p; workerInitStatus := status; ocrLog := ocrLog s |}).

Definition set_ocrLog (l : list string) : state -> state :=
  with_store (fun s =>
    {| ocrLanguage := ocrLanguage s; ocrCache := ocrCache s; ocrLoading := ocrLoading s;
       ocrProgress := ocrProgress s; workerReady := workerReady s;
       workerInitProgress := workerInitProgress s;
       workerInitStatus := workerInitStatus s; ocrLog := l |}).

(** Newest first, capped at 50 entries, each behind its time stamp. *)
Definition addOcrLog (message : string) (st : state) : state :=
  let timestamp := now (st_host st) in
  let entry := "[" +:+ timestamp +:+ "] " +:+ message in
  let updated := entry :: ocrLog (st_store st) in
  set_ocrLog (take 50 updated) st.

(** *** The host's queues *)

Definition set_now (t : string) : state -> state :=
  with_host (fun h =>
    {| now := t; recognizing := recognizing h; initializing := initializing h;
       timeouts := timeouts h; recognized := recognized h |}).

Definition set_recognizing (l : list recognition) : state -> state :=
  with_host (fun h =>
    {| now := now h; recognizing := l; initializing := initializing h;
       timeouts := timeouts h; recognized := recognized h |}).

Definition set_initializing (l : list initialization) : state -> state :=
  with_host (fun h =>
    {| now := now h; recognizing := recognizing h; initializing := l;
       timeouts := timeouts h; recognized := recognized h |}).

Definition set_timeouts (l : list request) : state -> state :=
  with_host (fun h =>
    {| now := now h; recognizing := recognizing h; initializing := initializing h;
       timeouts := l; recognized := recognized h |}).

Definition set_recognized (l : list HTMLCanvasElement) : state -> state :=
  with_host (fun h =>
    {| now := now h; recognizing := recognizing h; initializing := initializing h;
       timeouts := timeouts h; recognized := l |}).

(** [setTimeout(() => runOcr(c, pn, z, fr), 0)] *)
Definition setTimeout (rq : request) (st : state) : state :=
  set_timeouts (timeouts (st_host st) ++ [rq]) st.

(** ** Constants of useOcr.js *)

Definition LANGUAGE_LABELS : list (string * string) :=
  [ ("eng", "English"); ("fra", "French"); ("deu", "German"); ("spa", "Spanish");
    ("ita", "Italian"); ("por", "Portuguese"); ("rus", "Russian");
    ("chi_sim", "Chinese (Simplified)"); ("chi_tra", "Chinese (Traditional)");
    ("jpn", "Japanese"); ("kor", "Korean"); ("ara", "Arabic"); ("hin", "Hindi");
    ("nld", "Dutch"); ("pol", "Polish") ].

(** [LANGUAGE_LABELS[lang] || lang], for a language code that does not name
    a property every object inherits ([constructor], [toString], ...): for
    those the lookup answers the inherited value, which is not modelled. *)
Definition langLabel (lang : string) : string :=
  match List.find (fun kv => bool_decide (fst kv = lang)) LANGUAGE_LABELS with
  | Some kv => snd kv
  | None => lang
  end.

Record phase := {
  key : string;
  label : string;
  from : float;
  to : float;
}.

(** Tesseract's init status strings, their labels and cumulative progress bands. *)
Definition INIT_STATUS_MAP : list phase :=
  [ {| key := "loading tesseract core"; label := "Loading engine…"; from := 0; to := 20 |};
    {| key := "initializing tesseract"; label := "Initializing engine…"; from := 20; to := 40 |};
    {| key := "initialized tesseract"; label := "Engine ready"; from := 40; to := 50 |};
    {| key := "loading language traineddata"; label := "Loading language data…"; from := 50; to := 85 |};
    {| key := "loaded language traineddata"; label := "Language data loaded"; from := 85; to := 90 |};
    {| key := "initializing api"; label := "Starting OCR engine…"; from := 90; to := 99 |};
    {| key := "initialized api"; label := "OCR engine ready"; from := 99; to := 99 |} ]%float.

Definition MAX_OCR_DIM : N := 2400.

(** ** The engine's [logger] callback (useOcr.js, lines 68-82) *)

(** A status message of the engine, with a number for its progress when
    it has one; [None] stands for a missing field. A progress of another
    type (null, a string, a boolean), which [m.progress * 100] would
    convert to a number, is not modelled. *)
Record message := {
  status : option string;
  progress : option float;
}.

Definition logger (m : message) (st : state) : state :=
  if bool_decide (status m = Some "recognizing text") then
    setOcrProgress (Math_round (default nan (progress m) * 100)%float) st
  else
    (* Report initialization progress *)
    let statusKey := toLowerCase (default "" (status m)) in
    match List.find (fun ph => includes statusKey (key ph)) INIT_STATUS_MAP with
    | Some phase =>
        (* Interpolate within the phase range using sub-progress (0-1) *)
        let sub := match progress m with
                   | Some p => Math_max 0 (Math_min 1 p)
                   | None => 1%float
                   end in
        let pct := Math_round (from phase + (to phase - from phase) * sub)%float in
        setWorkerInitProgress pct (label phase) st
    | None => st
    end.

(** ** Downsampling (useOcr.js, lines 166-179) *)

Definition of_N (n : N) : float := JS.of_Z (Z.of_N n).

(** What the host throws when the offscreen canvas cannot be drawn. *)
Definition draw_error : value :=
  JOther true (JString "Cannot set properties of null (setting 'filter')")
    (JsonText "{}") "TypeError: Cannot set properties of null (setting 'filter')".

(** The value of [imageSource] when [recognize] is called: the canvas
    itself, or an offscreen copy scaled down to fit [MAX_OCR_DIM] and drawn
    in grayscale with raised contrast. *)
Definition imageSource (canvas : HTMLCanvasElement) : completion HTMLCanvasElement :=
  if (MAX_OCR_DIM <? width canvas)%N || (MAX_OCR_DIM <? height canvas)%N then
    let ratio := Math_min (of_N MAX_OCR_DIM / of_N (width canvas))%float
                          (of_N MAX_OCR_DIM / of_N (height canvas))%float in
    let offscreen_width := to_uint32 (Math_floor (of_N (width canvas) * ratio)%float) in
    let offscreen_height := to_uint32 (Math_floor (of_N (height canvas) * ratio)%float) in
    if host_draws canvas then
      Normal {| width := offscreen_width; height := offscreen_height;
                filter := "grayscale(1) contrast(1.2)";
                picture := picture canvas; host_draws := true |}
    else Throw draw_error
  else Normal canvas.

(** The size the downsampling is specified to give a side, in exact
    arithmetic: the side times 2400 over the longer of the two sides,
    rounded down. (The smaller of 2400 / width and 2400 / height is 2400
    over the longer side.) *)
Definition downscaled (side other : N) : N := (side * 2400 / N.max side other)%N.

(** ** [runOcr] (useOcr.js, lines 129-211) *)

(** What a call has given its caller when it yields control: the value its
    promise resolved to ([None] for null), or nothing yet (the activation is
    suspended on the engine). *)
Inductive reply :=
| Resolved (v : option string)
| Awaiting.

(** The key of a call (useOcr.js, line 130). The page number is an integer
    and is printed as its digits, which is how the code prints a number of
    magnitude below 2^53; the zoom is printed by [toFixed2]. *)
Definition cacheKey (cl : closure) (rq : request) : string :=
  pretty (pageNumber rq) +:+ ":" +:+ toFixed2 (zoom rq) +:+ ":" +:+ ocrLanguage_of cl.

(** [await workerRef.current.recognize(imageSource)]: the image goes to the
    engine and the activation is parked. *)
Definition await_recognize (a : recognition) (image : HTMLCanvasElement) (st : state) : state :=
  let st := set_recognized (image :: recognized (st_host st)) st in
  set_recognizing (recognizing (st_host st) ++ [a]) st.

(** The [finally] block; [again] is [runOcr] itself. The promise of the
    call it makes is dropped. *)
Definition finally (again : request -> state -> option (state * reply)) (st : state)
  : option state :=
  let st := set_isRunningRef false st in
  let st := setOcrLoading false st in
  let st := setOcrProgress 0 st in
  (* Process any queued request *)
  match pendingRef (st_refs st) with
  | Some p =>
      let st := set_pendingRef None st in
      match again p st with
      | Some (st, _) => Some st
      | None => None
      end
  | None => Some st
  end.

(** The [catch] block. *)
Definition catch (pn : Z) (err : value) (st : state) : state :=
  addOcrLog ("Error during OCR on page " +:+ pretty pn +:+ ": " +:+ ToString (errMsg err)) st.

(** The call up to its first suspension or its return. [fuel] bounds the
    depth of the calls [runOcr] makes to itself from its [finally] block;
    [None] is fuel run out (2 is always enough, as is shown below). *)
Fixpoint runOcr (fuel : nat) (cl : closure) (rq : request) (st : state)
  : option (state * reply) :=
  match fuel with
  | O => None
  | S fuel =>
      let cacheKey := cacheKey cl rq in
      (* Return cached result unless force-running *)
      if negb (forceRun rq) && bool_decide (is_Some (ocrCache_of cl !! cacheKey)) then
        let st := addOcrLog ("OCR skipped — result cached for page " +:+ pretty (pageNumber rq)) st in
        Some (st, Resolved (ocrCache_of cl !! cacheKey))
      else if negb (workerReadyRef (st_refs st)) || negb (bool_decide (is_Some (workerRef (st_refs st)))) then
        (* Queue the request — will be picked up after initWorker completes *)
        let st := set_pendingRef (Some rq) st in
        let st := if forceRun rq
                  then addOcrLog ("Force re-running OCR on page " +:+ pretty (pageNumber rq)
                                  +:+ " (queued — worker not ready)") st
                  else st in
        Some (st, Resolved None)
      else if isRunningRef (st_refs st) then
        (* Queue the latest request, drop older ones *)
        Some (set_pendingRef (Some rq) st, Resolved None)
      else
        let st := set_isRunningRef true st in
        let st := setOcrLoading true st in
        let st := setOcrProgress 0 st in
        let st := if forceRun rq
                  then addOcrLog ("Force re-running OCR on page " +:+ pretty (pageNumber rq)) st
                  else addOcrLog ("Starting OCR on page " +:+ pretty (pageNumber rq) +:+ "…") st in
        match imageSource (canvas rq) with
        | Normal image =>
            let a := {| rec_closure := cl; rec_cacheKey := cacheKey;
                        rec_pageNumber := pageNumber rq |} in
            Some (await_recognize a image st, Awaiting)
        | Throw err =>
            let st := catch (pageNumber rq) err st in
            match finally (runOcr fuel cl) st with
            | Some st => Some (st, Resolved None)
            | None => None
            end
        end
  end.

(** The fuel every call is run with. *)
Definition depth : nat := 2.

(** The engine settles the [i]-th suspended [recognize]: the activation
    resumes after its [await], with the recognised text or with the error
    thrown at it (a rejection, or the TypeError of destructuring a result
    that has no text), and runs to its end. The result is the new state
    and the value the call's promise resolves to. [None]: there is no such
    activation. *)
Definition resume_recognize (i : nat) (r : completion string) (st : state)
  : option (state * option string) :=
  match recognizing (st_host st) !! i with
  | None => None
  | Some a =>
      let st := set_recognizing (delete i (recognizing (st_host st))) st in
      let '(st, result) :=
        match r with
        | Normal text =>
            let trimmed := trim text in
            let st := setOcrResult (rec_cacheKey a) trimmed st in
            let st := if 0 <? strlen trimmed
                      then addOcrLog ("OCR complete on page " +:+ pretty (rec_pageNumber a) +:+ " — "
                                      +:+ pretty (strlen trimmed) +:+ " chars found") st
                      else addOcrLog ("No text found on page " +:+ pretty (rec_pageNumber a)) st in
            (st, Some trimmed)
        | Throw err => (catch (rec_pageNumber a) err st, None)
        end in
      match finally (runOcr depth (rec_closure a)) st with
      | Some st => Some (st, result)
      | None => None
      end
  end.

(** ** [initWorker] (useOcr.js, lines 53-111) *)

(** From [setWorkerReady(false)] to [await createWorker(...)]. *)
Definition initWorker_create (lang : string) (st : state) : state :=
  let st := setWorkerReady false st in
  let st := setWorkerInitProgress 0 "Starting…" st in
  let st := addOcrLog ("Worker initializing for language: " +:+ langLabel lang +:+ "…") st in
  set_initializing (initializing (st_host st) ++ [Creating lang]) st.

(** The call, up to its first [await]. *)
Definition initWorker (lang : string) (st : state) : state :=
  match workerRef (st_refs st) with
  | Some _ => set_initializing (initializing (st_host st) ++ [Terminating lang]) st
  | None => initWorker_create lang st
  end.

(** [terminate()] has settled, either way. *)
Definition resume_terminate (i : nat) (st : state) : option state :=
  match initializing (st_host st) !! i with
  | Some (Terminating lang) =>
      let st := set_initializing (delete i (initializing (st_host st))) st in
      let st := set_workerRef None st in
      let st := set_workerReadyRef false st in
      Some (initWorker_create lang st)
  | _ => None
  end.

(** [createWorker(...)] has settled, with a worker or with an error. *)
Definition resume_createWorker (i : nat) (r : completion worker) (st : state) : option state :=
  match initializing (st_host st) !! i with
  | Some (Creating lang) =>
      let st := set_initializing (delete i (initializing (st_host st))) st in
      match r with
      | Normal worker =>
          let st := set_workerRef (Some worker) st in
          let st := set_workerReadyRef true st in
          let st := set_currentLangRef (Some lang) st in
          let st := setOcrProgress 0 st in
          let st := setWorkerInitProgress 100 "Ready" st in
          let st := setWorkerReady true st in
          let st := addOcrLog "Worker ready" st in
          (* Process any request that was queued while worker was initializing *)
          match pendingRef (st_refs st) with
          | Some p =>
              let st := set_pendingRef None st in
              Some (setTimeout p st)
          | None => Some st
          end
      | Throw err =>
          let st := set_workerReadyRef false st in
          let st := setWorkerReady false st in
          let st := setWorkerInitProgress 0 "Failed" st in
          Some (addOcrLog ("Worker init failed: " +:+ ToString (errMsg err)) st)
      end
  | _ => None
  end.

(** A callback queued by [setTimeout] runs: [runOcr(c, pn, z, fr)], by the
    closure of the first render. *)
Definition timeout (i : nat) (st : state) : option state :=
  match timeouts (st_host st) !! i with
  | Some rq =>
      let st := set_timeouts (delete i (timeouts (st_host st))) st in
      fst <$> runOcr depth (mounted st) rq st
  | None => None
  end.

(** ** The hook as a transition system *)

Inductive event :=
| RunOcr (cl : closure) (rq : request)
| Recognize (i : nat) (r : completion string)
| InitWorker (lang : string)
| Terminate (i : nat)
| CreateWorker (i : nat) (r : completion worker)
| Timeout (i : nat)
| Logger (m : message)
| SetOcrLanguage (lang : string)
| ClearOcrCache
| Clock (t : string).

(** One turn of the event loop; [None] when the event cannot happen. *)
Definition step (ev : event) (st : state) : option state :=
  match ev with
  | RunOcr cl rq => fst <$> runOcr depth cl rq st
  | Recognize i r => fst <$> resume_recognize i r st
  | InitWorker lang => Some (initWorker lang st)
  | Terminate i => resume_terminate i st
  | CreateWorker i r => resume_createWorker i r st
  | Timeout i => timeout i st
  | Logger m => Some (logger m st)
  | SetOcrLanguage lang => Some (setOcrLanguage lang st)
  | ClearOcrCache => Some (clearOcrCache st)
  | Clock t => Some (set_now t st)
  end.

(** A run: the events in order, one that cannot happen being skipped. *)
Fixpoint exec (evs : list event) (st : state) : state :=
  match evs with
  | [] => st
  | ev :: evs => exec evs (default st (step ev st))
  end.

(** The hook as mounted, before its effect has run, with the store's initial values. *)
Definition init (lang : string) : state :=
  {| st_refs := {| workerRef := None; workerReadyRef := false; currentLangRef := None;
                   pendingRef := None; isRunningRef := false |};
     st_store := {| ocrLanguage := lang; ocrCache := ∅; ocrLoading := false;
                    ocrProgress := 0; workerReady := false; workerInitProgress := 0;
                    workerInitStatus := ""; ocrLog := [] |};
     st_host := {| now := "00:00:00"; recognizing := []; initializing := [];
                   timeouts := []; recognized := [] |};
     mounted := {| ocrLanguage_of := lang; ocrCache_of := ∅ |} |}.

(** The closure of the [runOcr] a render in state [st] makes. *)
Definition render (st : state) : closure :=
  {| ocrLanguage_of := ocrLanguage (st_store st); ocrCache_of := ocrCache (st_store st) |}.

(** ** Predicates on states and runs *)

(** The cache test at the head of [runOcr]: the call is answered from the
    cache its closure holds. *)
Definition cached (cl : closure) (rq : request) : bool :=
  negb (forceRun rq) && bool_decide (is_Some (ocrCache_of cl !! cacheKey cl rq)).

(** The readiness test of [runOcr]. *)
Definition notReady (st : state) : bool :=
  negb (workerReadyRef (st_refs st)) || negb (bool_decide (is_Some (workerRef (st_refs st)))).

(** What holds between the turns of the event loop: [isRunningRef] is set
    exactly while one [recognize] is awaited, a ready hook has a worker, and
    a ready and idle hook has nothing pending. *)
Definition consistent (st : state) : Prop :=
  length (recognizing (st_host st)) = (if isRunningRef (st_refs st) then 1 else 0)%nat
  ∧ (workerReadyRef (st_refs st) = true → is_Some (workerRef (st_refs st)))
  ∧ (workerReadyRef (st_refs st) = true → isRunningRef (st_refs st) = false →
     pendingRef (st_refs st) = None).

(** The event is a [createWorker] that resolves with a worker. *)
Definition creates_worker (ev : event) : bool :=
  match ev with
  | CreateWorker _ (Normal _) => true
  | _ => false
  end.



(** A state some run reaches from a mount. *)
Definition reachable (st : state) : Prop :=
  ∃ lang evs, st = exec evs (init lang).

(** The first three statements of the [finally] block. *)
Definition idle (st : state) : state :=
  setOcrProgress 0 (setOcrLoading false (set_isRunningRef false st)).

(** A resumed activation at the end of its [try] block or of its [catch]
    block, and the value it returns. *)
Definition try_end (a : recognition) (r : completion string) (st : state) : state :=
  match r with
  | Normal text =>
      (if 0 <? strlen (trim text)
       then addOcrLog ("OCR complete on page " +:+ pretty (rec_pageNumber a) +:+ " — "
                       +:+ pretty (strlen (trim text)) +:+ " chars found")
       else addOcrLog ("No text found on page " +:+ pretty (rec_pageNumber a)))
        (setOcrResult (rec_cacheKey a) (trim text) st)
  | Throw err => catch (rec_pageNumber a) err st
  end.

Definition result_of (r : completion string) : option string :=
  match r with
  | Normal text => Some (trim text)
  | Throw _ => None
  end.

(** A call that is let through to the engine, up to the [try] block. *)
Definition started (rq : request) (st : state) : state :=
  (if forceRun rq
   then addOcrLog ("Force re-running OCR on page " +:+ pretty (pageNumber rq))
   else addOcrLog ("Starting OCR on page " +:+ pretty (pageNumber rq) +:+ "…"))
    (setOcrProgress 0 (setOcrLoading true (set_isRunningRef true st))).

(** The log entry of the [catch] block. *)
Definition error_entry (pn : Z) (err : value) (st : state) : string :=
  "[" +:+ now (st_host st) +:+ "] Error during OCR on page " +:+ pretty pn +:+ ": "
  +:+ ToString (errMsg err).

(** ** Sample runs *)

Module Sample.

Definition page (n : nat) : HTMLCanvasElement :=
  {| width := 800; height := 1000; filter := ""; picture := n; host_draws := true |}.

(** A page rendered larger than the engine is given. *)
Definition poster (draws : bool) : HTMLCanvasElement :=
  {| width := 5000; height := 3000; filter := ""; picture := 7; host_draws := draws |}.

(** The same page upright, and a scan 4231 pixels wide. *)
Definition upright : HTMLCanvasElement :=
  {| width := 3000; height := 5000; filter := ""; picture := 8; host_draws := true |}.

Definition scan : HTMLCanvasElement :=
  {| width := 4231; height := 3000; filter := ""; picture := 9; host_draws := true |}.

Definition ask (n : Z) (force : bool) : request :=
  {| canvas := page (Z.to_nat n); pageNumber := n; zoom := 1; forceRun := force |}.

Definition ask_poster (draws : bool) : request :=
  {| canvas := poster draws; pageNumber := 7; zoom := 2; forceRun := false |}.

Definition eng : worker := {| worker_lang := "eng" |}.

(** Mounted, the effect has called [initWorker], the engine is not there yet. *)
Definition starting : list event := [InitWorker "eng"].

(** The worker has come up. *)
Definition ready : list event := starting ++ [CreateWorker 0 (Normal eng)].

(** Page 2 has been recognised. *)
Definition page2_done : list event :=
  ready ++ [RunOcr (render (exec ready (init "eng"))) (ask 2 false);
            Recognize 0 (Normal "  hello  ")].

(** Page 1 is with the engine. *)
Definition page1_running : list event :=
  page2_done ++ [RunOcr (render (exec page2_done (init "eng"))) (ask 1 false)].

(** Page 3 was asked for meanwhile. *)
Definition page3_pending : list event :=
  page1_running ++ [RunOcr (render (exec page2_done (init "eng"))) (ask 3 false)].

(** A request made before the worker came up. *)
Definition asked_early : list event :=
  starting ++ [RunOcr (render (exec starting (init "eng"))) (ask 4 true)].

(** The worker failed to come up. *)
Definition failed : list event :=
  starting ++ [CreateWorker 0 (Throw (Error "network down"))].



Definition fra : worker := {| worker_lang := "fra" |}.

(** The language is switched to French while page 1 is asked for, the new
    worker comes up, the parked request is replayed and recognised. *)
Definition switched_to_fra : list event :=
  ready ++ [SetOcrLanguage "fra"; ClearOcrCache; InitWorker "fra"; Terminate 0].

Definition replayed_in_fra : list event :=
  switched_to_fra
  ++ [RunOcr (render (exec switched_to_fra (init "eng"))) (ask 1 false);
      CreateWorker 0 (Normal fra); Timeout 0; Recognize 0 (Normal "un")].

End Sample.

(** The log of [st'] still shows every line of the log of [st] that is not
    among its last [k] possible ones, at most [k] places further down. *)
Definition kept (k : nat) (st st' : state) : Prop :=
  ∀ j e, ocrLog (st_store st) !! j = Some e → (j + k < 50)%nat →
         ∃ j', (j' ≤ j + k)%nat ∧ ocrLog (st_store st') !! j' = Some e.

(** ** Further built-ins, used by the panel *)

Module JSString.

(** The line feed. *)
Definition LF : string := String (ascii_of_N 10) "".

(** [s.endsWith(t)]: some tail of [s] is [t]. *)
Fixpoint endsWith (s t : string) : bool :=
  bool_decide (s = t)
  || match s with
     | EmptyString => false
     | String _ s1 => endsWith s1 t
     end.

(** [s.split(sep)[0]] for a separator of one character: what stands before
    its first occurrence, all of [s] when there is none. *)
Fixpoint split_head (sep : ascii) (s : string) : string :=
  match s with
  | EmptyString => EmptyString
  | String a s1 => if bool_decide (a = sep) then EmptyString else String a (split_head sep s1)
  end.

Definition digit (a : ascii) : option Z :=
  let n := byte a in
  if ((48 <=? n) && (n <=? 57))%N then Some (Z.of_N n - 48) else None.

(** The value of the longest prefix of decimal digits, read after [acc]. *)
Fixpoint digits (acc : Z) (s : string) : Z :=
  match s with
  | EmptyString => acc
  | String a s1 =>
      match digit a with
      | Some d => digits (10 * acc + d) s1
      | None => acc
      end
  end.

(** [parseInt(s, 10)]: leading white space is skipped, a sign is read, then
    the longest run of digits; [None] is NaN (no digit). The result is the
    integer itself, which is the number JavaScript returns below 2^53; -0
    is not told from 0. *)
Definition parseInt (s : string) : option Z :=
  let s := trimStart s in
  let '(sign, s) :=
    match s with
    | String "-" s1 => (-1, s1)
    | String "+" s1 => (1, s1)
    | _ => (1, s)
    end in
  match s with
  | String a _ =>
      match digit a with
      | Some _ => Some (sign * digits 0 s)
      | None => None
      end
  | EmptyString => None
  end.

(** [l.join(sep)] *)
Fixpoint join (sep : string) (l : list string) : string :=
  match l with
  | [] => ""
  | [x] => x
  | x :: l1 => x +:+ sep +:+ join sep l1
  end.

(** [l.sort(cmp)]: the sort is stable, so for a comparator that orders the
    elements consistently its result is the one of an insertion from the
    right in which an element goes before the first one it does not exceed.
    [cmp] gives the sign of the comparator's number, a NaN counting as 0. *)
Fixpoint insert {A} (cmp : A -> A -> Z) (x : A) (l : list A) : list A :=
  match l with
  | [] => [x]
  | y :: l1 => if cmp x y <=? 0 then x :: l else y :: insert cmp x l1
  end.

Definition sort {A} (cmp : A -> A -> Z) (l : list A) : list A :=
  foldr (insert cmp) [] l.

End JSString.

(** ** The rest of the store (useStore.js, lines 5-57 and 84-89) *)

Module useStore.

(** A [File], by the two properties the application reads. *)
Record File := {
  name : string;
  type : string;
}.

(** A document pdf.js has loaded: its number of pages, and which one it is. *)
Record PDFDocumentProxy := {
  numPages : Z;
  fingerprint : nat;
}.

(** The fields of the store beside the OCR slice [store] above. Page
    numbers are integers; speeds, sizes and the zoom are binary64 numbers. *)
Record viewer := {
  darkMode : bool;
  scrollSpeed : float;
  scrollDirection : string;
  ocrFontSize : float;
  pdfFile : option File;
  pdfUrl : option string;
  pdfDoc : option PDFDocumentProxy;
  totalPages : Z;
  currentPage : Z;
  zoom : float;
  snapToPage : bool;
  isScrolling : bool;
  pdfLoading : bool;
  pdfError : option string;
  showOcrPanel : bool;
  showThumbnails : bool;
}.

Definition toggleDarkMode (v : viewer) : viewer :=
  {| darkMode := negb (darkMode v); scrollSpeed := scrollSpeed v;
     scrollDirection := scrollDirection v; ocrFontSize := ocrFontSize v; pdfFile := pdfFile v;
     pdfUrl := pdfUrl v; pdfDoc := pdfDoc v; totalPages := totalPages v;
     currentPage := currentPage v; zoom := zoom v; snapToPage := snapToPage v;
     isScrolling := isScrolling v; pdfLoading := pdfLoading v; pdfError := pdfError v;
     showOcrPanel := showOcrPanel v; showThumbnails := showThumbnails v |}.

Definition setScrollSpeed (speed : float) (v : viewer) : viewer :=
  {| darkMode := darkMode v; scrollSpeed := Math_max 5 (Math_min 500 speed);
     scrollDirection := scrollDirection v; ocrFontSize := ocrFontSize v; pdfFile := pdfFile v;
     pdfUrl := pdfUrl v; pdfDoc := pdfDoc v; totalPages := totalPages v;
     currentPage := currentPage v; zoom := zoom v; snapToPage := snapToPage v;
     isScrolling := isScrolling v; pdfLoading := pdfLoading v; pdfError := pdfError v;
     showOcrPanel := showOcrPanel v; showThumbnails := showThumbnails v |}.

Definition setScrollDirection (dir : string) (v : viewer) : viewer :=
  {| darkMode := darkMode v; scrollSpeed := scrollSpeed v; scrollDirection := dir;
     ocrFontSize := ocrFontSize v; pdfFile := pdfFile v; pdfUrl := pdfUrl v;
     pdfDoc := pdfDoc v; totalPages := totalPages v; currentPage := currentPage v;
     zoom := zoom v; snapToPage := snapToPage v; isScrolling := isScrolling v;
     pdfLoading := pdfLoading v; pdfError := pdfError v; showOcrPanel := showOcrPanel v;
     showThumbnails := showThumbnails v |}.

Definition setOcrFontSize (size : float) (v : viewer) : viewer :=
  {| darkMode := darkMode v; scrollSpeed := scrollSpeed v;
     scrollDirection := scrollDirection v; ocrFontSize := Math_max 10 (Math_min 32 size);
     pdfFile := pdfFile v; pdfUrl := pdfUrl v; pdfDoc := pdfDoc v; totalPages := totalPages v;
     currentPage := currentPage v; zoom := zoom v; snapToPage := snapToPage v;
     isScrolling := isScrolling v; pdfLoading := pdfLoading v; pdfError := pdfError v;
     showOcrPanel := showOcrPanel v; showThumbnails := showThumbnails v |}.

Definition setPdfFile (file : option File) (v : viewer) : viewer :=
  {| darkMode := darkMode v; scrollSpeed := scrollSpeed v;
     scrollDirection := scrollDirection v; ocrFontSize := ocrFontSize v; pdfFile := file;
     pdfUrl := pdfUrl v; pdfDoc := pdfDoc v; totalPages := totalPages v;
     currentPage := currentPage v; zoom := zoom v; snapToPage := snapToPage v;
     isScrolling := isScrolling v; pdfLoading := pdfLoading v; pdfError := pdfError v;
     showOcrPanel := showOcrPanel v; showThumbnails := showThumbnails v |}.

Definition setPdfUrl (url : option string) (v : viewer) : viewer :=
  {| darkMode := darkMode v; scrollSpeed := scrollSpeed v;
     scrollDirection := scrollDirection v; ocrFontSize := ocrFontSize v; pdfFile := pdfFile v;
     pdfUrl := url; pdfDoc := pdfDoc v; totalPages := totalPages v;
     currentPage := currentPage v; zoom := zoom v; snapToPage := snapToPage v;
     isScrolling := isScrolling v; pdfLoading := pdfLoading v; pdfError := pdfError v;
     showOcrPanel := showOcrPanel v; showThumbnails := showThumbnails v |}.

Definition setPdfDoc (doc : option PDFDocumentProxy) (v : viewer) : viewer :=
  {| darkMode := darkMode v; scrollSpeed := scrollSpeed v;
     scrollDirection := scrollDirection v; ocrFontSize := ocrFontSize v; pdfFile := pdfFile v;
     pdfUrl := pdfUrl v; pdfDoc := doc;
     totalPages := match doc with Some d => numPages d | None => 0 end; currentPage := 1;
     zoom := zoom v; snapToPage := snapToPage v; isScrolling := isScrolling v;
     pdfLoading := pdfLoading v; pdfError := pdfError v; showOcrPanel := showOcrPanel v;
     showThumbnails := showThumbnails v |}.

(** [Math.max(1, Math.min(page, s.totalPages))] (line 37), on numbers. *)
Definition clampPage (page totalPages : float) : float :=
  Math_max 1 (Math_min page totalPages).

(** [setCurrentPage], for a page number that is an integer, as it is in
    every call the application makes (the current page plus or minus one,
    a page the viewer shows, the [parseInt] of the page field). The store
    keeps the integer clamped, which is the integer whose number
    [clampPage] gives. A NaN or a fraction, which the code stores as
    [clampPage] returns it, is outside the model. *)
Definition setCurrentPage (page : Z) (v : viewer) : viewer :=
  {| darkMode := darkMode v; scrollSpeed := scrollSpeed v;
     scrollDirection := scrollDirection v; ocrFontSize := ocrFontSize v; pdfFile := pdfFile v;
     pdfUrl := pdfUrl v; pdfDoc := pdfDoc v; totalPages := totalPages v;
     currentPage := Z.max 1 (Z.min page (totalPages v)); zoom := zoom v;
     snapToPage := snapToPage v; isScrolling := isScrolling v; pdfLoading := pdfLoading v;
     pdfError := pdfError v; showOcrPanel := showOcrPanel v;
     showThumbnails := showThumbnails v |}.

Definition setZoom (z : float) (v : viewer) : viewer :=
  {| darkMode := darkMode v; scrollSpeed := scrollSpeed v;
     scrollDirection := scrollDirection v; ocrFontSize := ocrFontSize v; pdfFile := pdfFile v;
     pdfUrl := pdfUrl v; pdfDoc := pdfDoc v; totalPages := totalPages v;
     currentPage := currentPage v; zoom := Math_max 0.25 (Math_min 5 z);
     snapToPage := snapToPage v; isScrolling := isScrolling v; pdfLoading := pdfLoading v;
     pdfError := pdfError v; showOcrPanel := showOcrPanel v;
     showThumbnails := showThumbnails v |}.

Definition setSnapToPage (b : bool) (v : viewer) : viewer :=
  {| darkMode := darkMode v; scrollSpeed := scrollSpeed v;
     scrollDirection := scrollDirection v; ocrFontSize := ocrFontSize v; pdfFile := pdfFile v;
     pdfUrl := pdfUrl v; pdfDoc := pdfDoc v; totalPages := totalPages v;
     currentPage := currentPage v; zoom := zoom v; snapToPage := b;
     isScrolling := isScrolling v; pdfLoading := pdfLoading v; pdfError := pdfError v;
     showOcrPanel := showOcrPanel v; showThumbnails := showThumbnails v |}.

Definition setIsScrolling (b : bool) (v : viewer) : viewer :=
  {| darkMode := darkMode v; scrollSpeed := scrollSpeed v;
     scrollDirection := scrollDirection v; ocrFontSize := ocrFontSize v; pdfFile := pdfFile v;
     pdfUrl := pdfUrl v; pdfDoc := pdfDoc v; totalPages := totalPages v;
     currentPage := currentPage v; zoom := zoom v; snapToPage := snapToPage v;
     isScrolling := b; pdfLoading := pdfLoading v; pdfError := pdfError v;
     showOcrPanel := showOcrPanel v; showThumbnails := showThumbnails v |}.

Definition toggleScrolling (v : viewer) : viewer :=
  {| darkMode := darkMode v; scrollSpeed := scrollSpeed v;
     scrollDirection := scrollDirection v; ocrFontSize := ocrFontSize v; pdfFile := pdfFile v;
     pdfUrl := pdfUrl v; pdfDoc := pdfDoc v; totalPages := totalPages v;
     currentPage := currentPage v; zoom := zoom v; snapToPage := snapToPage v;
     isScrolling := negb (isScrolling v); pdfLoading := pdfLoading v; pdfError := pdfError v;
     showOcrPanel := showOcrPanel v; showThumbnails := showThumbnails v |}.

Definition setPdfLoading (b : bool) (v : viewer) : viewer :=
  {| darkMode := darkMode v; scrollSpeed := scrollSpeed v;
     scrollDirection := scrollDirection v; ocrFontSize := ocrFontSize v; pdfFile := pdfFile v;
     pdfUrl := pdfUrl v; pdfDoc := pdfDoc v; totalPages := totalPages v;
     currentPage := currentPage v; zoom := zoom v; snapToPage := snapToPage v;
     isScrolling := isScrolling v; pdfLoading := b; pdfError := pdfError v;
     showOcrPanel := showOcrPanel v; showThumbnails := showThumbnails v |}.

Definition setPdfError (e : option string) (v : viewer) : viewer :=
  {| darkMode := darkMode v; scrollSpeed := scrollSpeed v;
     scrollDirection := scrollDirection v; ocrFontSize := ocrFontSize v; pdfFile := pdfFile v;
     pdfUrl := pdfUrl v; pdfDoc := pdfDoc v; totalPages := totalPages v;
     currentPage := currentPage v; zoom := zoom v; snapToPage := snapToPage v;
     isScrolling := isScrolling v; pdfLoading := pdfLoading v; pdfError := e;
     showOcrPanel := showOcrPanel v; showThumbnails := showThumbnails v |}.

Definition toggleOcrPanel (v : viewer) : viewer :=
  {| darkMode := darkMode v; scrollSpeed := scrollSpeed v;
     scrollDirection := scrollDirection v; ocrFontSize := ocrFontSize v; pdfFile := pdfFile v;
     pdfUrl := pdfUrl v; pdfDoc := pdfDoc v; totalPages := totalPages v;
     currentPage := currentPage v; zoom := zoom v; snapToPage := snapToPage v;
     isScrolling := isScrolling v; pdfLoading := pdfLoading v; pdfError := pdfError v;
     showOcrPanel := negb (showOcrPanel v); showThumbnails := showThumbnails v |}.

Definition toggleThumbnails (v : viewer) : viewer :=
  {| darkMode := darkMode v; scrollSpeed := scrollSpeed v;
     scrollDirection := scrollDirection v; ocrFontSize := ocrFontSize v; pdfFile := pdfFile v;
     pdfUrl := pdfUrl v; pdfDoc := pdfDoc v; totalPages := totalPages v;
     currentPage := currentPage v; zoom := zoom v; snapToPage := snapToPage v;
     isScrolling := isScrolling v; pdfLoading := pdfLoading v; pdfError := pdfError v;
     showOcrPanel := showOcrPanel v; showThumbnails := negb (showThumbnails v) |}.

(** The store as created. *)
Definition initial : viewer :=
  {| darkMode := false; scrollSpeed := 50; scrollDirection := "down"; ocrFontSize := 14;
     pdfFile := None; pdfUrl := None; pdfDoc := None; totalPages := 0; currentPage := 1;
     zoom := 1; snapToPage := false; isScrolling := false; pdfLoading := false;
     pdfError := None; showOcrPanel := true; showThumbnails := false |}.

(** A call of one of the actions. *)
Inductive action :=
| ToggleDarkMode
| SetScrollSpeed (speed : float)
| SetScrollDirection (dir : string)
| SetOcrFontSize (size : float)
| SetPdfFile (file : option File)
| SetPdfUrl (url : option string)
| SetPdfDoc (doc : option PDFDocumentProxy)
| SetCurrentPage (page : Z)
| SetZoom (z : float)
| SetSnapToPage (b : bool)
| SetIsScrolling (b : bool)
| ToggleScrolling
| SetPdfLoading (b : bool)
| SetPdfError (e : option string)
| ToggleOcrPanel
| ToggleThumbnails.

Definition act (c : action) : viewer -> viewer :=
  match c with
  | ToggleDarkMode => toggleDarkMode
  | SetScrollSpeed speed => setScrollSpeed speed
  | SetScrollDirection dir => setScrollDirection dir
  | SetOcrFontSize size => setOcrFontSize size
  | SetPdfFile file => setPdfFile file
  | SetPdfUrl url => setPdfUrl url
  | SetPdfDoc doc => setPdfDoc doc
  | SetCurrentPage page => setCurrentPage page
  | SetZoom z => setZoom z
  | SetSnapToPage b => setSnapToPage b
  | SetIsScrolling b => setIsScrolling b
  | ToggleScrolling => toggleScrolling
  | SetPdfLoading b => setPdfLoading b
  | SetPdfError e => setPdfError e
  | ToggleOcrPanel => toggleOcrPanel
  | ToggleThumbnails => toggleThumbnails
  end.

End useStore.

(** [clearOcrLog] (useStore.js, line 83) *)
Definition clearOcrLog : state -> state := set_ocrLog [].

(** ** The application: what its hooks and components share *)

(** A [loadPdf] activation of usePdfDocument, suspended at
    [await currentDocRef.current.destroy()] or at [await loadingTask.promise],
    with the [cancelled] flag of the effect run that started it. *)
Inductive stage :=
| Destroying
| Loading.

Record load := {
  load_stage : stage;
  cancelled : bool;
}.

(** usePdfDocument: its ref, its suspended activations, and the documents
    [destroy()] has been called on (newest first). *)
Record document_refs := {
  currentDocRef : option useStore.PDFDocumentProxy;
  loads : list load;
  destroyed : list useStore.PDFDocumentProxy;
}.

(** The scroll container. How far an element scrolls when [scrollTop] is
    assigned is the host's business: [scrolled v] is the position it then
    reports. *)
Record HTMLDivElement := {
  scrollTop : float;
  scrolled : float -> float;
}.

(** useAutoScroll: its refs, and the animation frames requested and not
    cancelled ([next_frame] is the handle of the next request). *)
Record scroll_refs := {
  rafRef : option nat;
  lastTimeRef : option float;
  isScrollingRef : bool;
  speedRef : float;
  directionRef : string;
  frames : list nat;
  next_frame : nat;
}.

(** The mounted application. *)
Record app := {
  ocr : state;
  view : useStore.viewer;
  canvasMapRef : gmap Z HTMLCanvasElement;
  documents : document_refs;
  scrollContainerRef : option HTMLDivElement;
  scrolling : scroll_refs;
}.

Definition with_ocr (f : state -> state) (a : app) : app :=
  {| ocr := f (ocr a); view := view a; canvasMapRef := canvasMapRef a;
     documents := documents a; scrollContainerRef := scrollContainerRef a;
     scrolling := scrolling a |}.

Definition with_view (f : useStore.viewer -> useStore.viewer) (a : app) : app :=
  {| ocr := ocr a; view := f (view a); canvasMapRef := canvasMapRef a;
     documents := documents a; scrollContainerRef := scrollContainerRef a;
     scrolling := scrolling a |}.

Definition with_canvasMapRef (f : gmap Z HTMLCanvasElement -> gmap Z HTMLCanvasElement)
  (a : app) : app :=
  {| ocr := ocr a; view := view a; canvasMapRef := f (canvasMapRef a);
     documents := documents a; scrollContainerRef := scrollContainerRef a;
     scrolling := scrolling a |}.

Definition with_documents (f : document_refs -> document_refs) (a : app) : app :=
  {| ocr := ocr a; view := view a; canvasMapRef := canvasMapRef a;
     documents := f (documents a); scrollContainerRef := scrollContainerRef a;
     scrolling := scrolling a |}.

Definition with_scrollContainerRef (f : option HTMLDivElement -> option HTMLDivElement)
  (a : app) : app :=
  {| ocr := ocr a; view := view a; canvasMapRef := canvasMapRef a;
     documents := documents a; scrollContainerRef := f (scrollContainerRef a);
     scrolling := scrolling a |}.

Definition with_scrolling (f : scroll_refs -> scroll_refs) (a : app) : app :=
  {| ocr := ocr a; view := view a; canvasMapRef := canvasMapRef a;
     documents := documents a; scrollContainerRef := scrollContainerRef a;
     scrolling := f (scrolling a) |}.

(** ** The OCR panel (OcrPanel.jsx, lines 41-60 and 99-134) *)

Module OcrPanel.

Import JSString.

(** The panel's two tabs. *)
Inductive tab :=
| current
| all.

Definition cacheKey (a : app) : string :=
  pretty (useStore.currentPage (view a)) +:+ ":" +:+ toFixed2 (useStore.zoom (view a))
  +:+ ":" +:+ ocrLanguage (st_store (ocr a)).

(** Distinguish "never processed" (undefined) from "processed but empty". *)
Definition currentText (a : app) : option string :=
  ocrCache (st_store (ocr a)) !! cacheKey a.

Definition currentTextProcessed (a : app) : bool :=
  bool_decide (is_Some (currentText a)).

Definition currentTextValue (a : app) : string :=
  default "" (currentText a).

(** [parseInt(k.split(':')[0], 10)] *)
Definition page_of (k : string) : option Z :=
  parseInt (split_head ":" k).

(** The comparator of the sort, [pageA - pageB]. *)
Definition by_page (x y : string * string) : Z :=
  match page_of x.1, page_of y.1 with
  | Some pageA, Some pageB => pageA - pageB
  | _, _ => 0
  end.

(** The entries the "all pages" tab shows, in its order. [entries] is
    [Object.entries(ocrCache)]: the cache's entries in the order their keys
    were first written, which the map of the model does not record. *)
Definition shown (entries : list (string * string)) (ocrLanguage : string)
  : list (string * string) :=
  sort by_page (List.filter (fun e => endsWith e.1 (":" +:+ ocrLanguage)) entries).

Definition section (e : string * string) : string :=
  "--- Page " +:+ split_head ":" e.1 +:+ " ---" +:+ LF +:+ e.2.

Definition allText (entries : list (string * string)) (a : app) : string :=
  join (LF +:+ LF) (section <$> shown entries (ocrLanguage (st_store (ocr a)))).

Definition displayText (t : tab) (entries : list (string * string)) (a : app) : string :=
  match t with
  | current => currentTextValue a
  | all => allText entries a
  end.

(** Whether the empty state, with its "Run OCR Now" or "Re-run OCR" button,
    is shown. *)
Definition showEmptyState (t : tab) (entries : list (string * string)) (a : app) : bool :=
  match t with
  | current => bool_decide (displayText t entries a = "") && negb (ocrLoading (st_store (ocr a)))
  | all => false
  end.

(** The two font buttons. *)
Definition smaller (a : app) : app :=
  with_view (useStore.setOcrFontSize (useStore.ocrFontSize (view a) - 2)%float) a.

Definition larger (a : app) : app :=
  with_view (useStore.setOcrFontSize (useStore.ocrFontSize (view a) + 2)%float) a.

(** The language selector's [onChange]. *)
Definition onChange (value : string) (a : app) : app :=
  with_ocr (fun st => clearOcrCache (setOcrLanguage value st)) a.

End OcrPanel.

(** ** usePdfDocument (usePdfDocument.ts) *)

Module usePdfDocument.

(** What [loadingTask.promise] is rejected with, as the [catch] block reads
    it: null or undefined, or a value with its [name] (when that is a
    string), its [message] as a template prints it (when it is neither null
    nor undefined), and its conversion by [String]. *)
Inductive thrown :=
| Nullish
| Thrown (name : option string) (message : option string) (str : string).

(** How [loadingTask.promise] settles. *)
Inductive settled :=
| Fulfilled (doc : useStore.PDFDocumentProxy)
| Rejected (err : thrown).

Definition set_currentDocRef (d : option useStore.PDFDocumentProxy) : app -> app :=
  with_documents (fun r =>
    {| currentDocRef := d; loads := loads r; destroyed := destroyed r |}).

Definition set_loads (l : list load) : app -> app :=
  with_documents (fun r =>
    {| currentDocRef := currentDocRef r; loads := l; destroyed := destroyed r |}).

(** [doc.destroy()] *)
Definition destroy (doc : useStore.PDFDocumentProxy) : app -> app :=
  with_documents (fun r =>
    {| currentDocRef := currentDocRef r; loads := loads r; destroyed := doc :: destroyed r |}).

Definition suspend (s : stage) (a : app) : app :=
  set_loads (loads (documents a) ++ [{| load_stage := s; cancelled := false |}]) a.

(** The message of the [catch] block. *)
Definition message (name message : option string) (str : string) : string :=
  if bool_decide (name = Some "PasswordException")
  then "This PDF is password-protected and could not be opened."
  else if bool_decide (name = Some "InvalidPDFException")
  then "This file is not a valid PDF or is corrupted."
  else if bool_decide (name = Some "MissingPDFException")
  then "The PDF file could not be found."
  else "Failed to load PDF: " +:+ default str message.

(** [loadPdf], up to its first [await]. *)
Definition loadPdf (a : app) : app :=
  let a := with_view (useStore.setPdfLoading true) a in
  let a := with_view (useStore.setPdfError None) a in
  let a := with_ocr clearOcrCache a in
  (* Destroy previous document *)
  match currentDocRef (documents a) with
  | Some doc => suspend Destroying (destroy doc a)
  | None => suspend Loading a
  end.

(** The clean-up of the effect: [cancelled = true] for the run it belongs
    to. The runs before have been cleaned up already. *)
Definition cleanup (a : app) : app :=
  set_loads ((fun l => {| load_stage := load_stage l; cancelled := true |}) <$> loads (documents a)) a.

(** The effect on [pdfUrl]. *)
Definition effect (a : app) : app :=
  match useStore.pdfUrl (view a) with
  | Some url =>
      if bool_decide (url = "") then with_view (useStore.setPdfDoc None) a else loadPdf a
  | None => with_view (useStore.setPdfDoc None) a
  end.

(** [destroy()] has settled, either way. *)
Definition resume_destroy (i : nat) (a : app) : option app :=
  match loads (documents a) !! i with
  | Some {| load_stage := Destroying; cancelled := c |} =>
      let a := set_currentDocRef None a in
      Some (set_loads (<[i := {| load_stage := Loading; cancelled := c |}]> (loads (documents a))) a)
  | _ => None
  end.

(** [loadingTask.promise] has settled. *)
Definition resume_load (i : nat) (r : settled) (a : app) : option app :=
  match loads (documents a) !! i with
  | Some {| load_stage := Loading; cancelled := cancelled |} =>
      let a := set_loads (delete i (loads (documents a))) a in
      match r with
      | Fulfilled doc =>
          if cancelled then Some (destroy doc a)
          else
            let a := set_currentDocRef (Some doc) a in
            let a := with_view (useStore.setPdfDoc (Some doc)) a in
            Some (with_view (useStore.setPdfLoading false) a)
      | Rejected err =>
          if cancelled then Some a
          else
            let a := match err with
                     | Nullish => a (* reading [pdfErr.name] throws *)
                     | Thrown name msg str =>
                         with_view (useStore.setPdfError (Some (message name msg str))) a
                     end in
            Some (with_view (useStore.setPdfLoading false) a)
      end
  | _ => None
  end.

(** The password handler, with what [window.prompt] returned. *)
Definition onPassword (i : nat) (password : option string) (a : app) : option app :=
  match loads (documents a) !! i with
  | Some {| load_stage := Loading; cancelled := _ |} =>
      match password with
      | Some _ => Some a
      | None =>
          let a := with_view (useStore.setPdfError (Some "Password entry cancelled.")) a in
          Some (with_view (useStore.setPdfLoading false) a)
      end
  | _ => None
  end.

End usePdfDocument.

(** ** useAutoScroll (useAutoScroll.ts, lines 1-102) *)

Module useAutoScroll.

Definition set_rafRef (v : option nat) : app -> app :=
  with_scrolling (fun r =>
    {| rafRef := v; lastTimeRef := lastTimeRef r; isScrollingRef := isScrollingRef r;
       speedRef := speedRef r; directionRef := directionRef r; frames := frames r;
       next_frame := next_frame r |}).

Definition set_lastTimeRef (v : option float) : app -> app :=
  with_scrolling (fun r =>
    {| rafRef := rafRef r; lastTimeRef := v; isScrollingRef := isScrollingRef r;
       speedRef := speedRef r; directionRef := directionRef r; frames := frames r;
       next_frame := next_frame r |}).

Definition set_frames (l : list nat) (n : nat) : app -> app :=
  with_scrolling (fun r =>
    {| rafRef := rafRef r; lastTimeRef := lastTimeRef r; isScrollingRef := isScrollingRef r;
       speedRef := speedRef r; directionRef := directionRef r; frames := l;
       next_frame := n |}).

(** [rafRef.current = requestAnimationFrame(step)] *)
Definition requestAnimationFrame (a : app) : app :=
  let id := next_frame (scrolling a) in
  let a := set_frames (frames (scrolling a) ++ [id]) (S id) a in
  set_rafRef (Some id) a.

(** [if (rafRef.current) { cancelAnimationFrame(rafRef.current); rafRef.current = null }] *)
Definition cancel (a : app) : app :=
  match rafRef (scrolling a) with
  | Some id =>
      let a := set_frames (List.filter (fun i => negb (Nat.eqb i id)) (frames (scrolling a)))
                          (next_frame (scrolling a)) a in
      set_rafRef None a
  | None => a
  end.

(** The animation frame callback. *)
Definition step (timestamp : float) (a : app) : app :=
  if negb (isScrollingRef (scrolling a)) then set_lastTimeRef None a
  else
    match scrollContainerRef a with
    | None => requestAnimationFrame a
    | Some container =>
        let last := default timestamp (lastTimeRef (scrolling a)) in
        let delta := ((timestamp - last) / 1000)%float in (* seconds *)
        let a := set_lastTimeRef (Some timestamp) a in
        let pixels := (speedRef (scrolling a) * delta)%float in
        let dir := if bool_decide (directionRef (scrolling a) = "up") then (-1)%float else 1%float in
        let prevScrollTop := scrollTop container in
        let container :=
          {| scrollTop := scrolled container (prevScrollTop + dir * pixels)%float;
             scrolled := scrolled container |} in
        let a := with_scrollContainerRef (fun _ => Some container) a in
        (* Stop at top or bottom *)
        if PrimFloat.eqb (scrollTop container) prevScrollTop then
          let a := with_view (useStore.setIsScrolling false) a in
          set_lastTimeRef None a
        else requestAnimationFrame a
    end.

(** The three effects that keep the refs in sync with the store. *)
Definition sync (a : app) : app :=
  with_scrolling (fun r =>
    {| rafRef := rafRef r; lastTimeRef := lastTimeRef r;
       isScrollingRef := useStore.isScrolling (view a);
       speedRef := useStore.scrollSpeed (view a);
       directionRef := useStore.scrollDirection (view a); frames := frames r;
       next_frame := next_frame r |}) a.

(** The effect on [isScrolling]. *)
Definition effect (a : app) : app :=
  if useStore.isScrolling (view a) then
    requestAnimationFrame (set_lastTimeRef None a)
  else
    set_lastTimeRef None (cancel a).

(** The effects of one commit: the refs are brought in sync, and when
    [isScrolling] has changed (the ref still holds the value of the commit
    before) the clean-up of the effect on it runs and the effect again. *)
Definition effects (a : app) : app :=
  if Bool.eqb (useStore.isScrolling (view a)) (isScrollingRef (scrolling a)) then sync a
  else effect (sync (cancel a)).

(** The host runs the callback of a requested frame. *)
Definition frame (id : nat) (timestamp : float) (a : app) : option app :=
  if bool_decide (id ∈ frames (scrolling a)) then
    let a := set_frames (List.filter (fun i => negb (Nat.eqb i id)) (frames (scrolling a)))
                        (next_frame (scrolling a)) a in
    Some (step timestamp a)
  else None.

(** The [visibilitychange] handler, with [document.hidden]. *)
Definition handleVisibilityChange (hidden : bool) (a : app) : app :=
  if hidden && isScrollingRef (scrolling a) then with_view (useStore.setIsScrolling false) a
  else a.

Definition handleBlur (a : app) : app :=
  if isScrollingRef (scrolling a) then with_view (useStore.setIsScrolling false) a else a.

End useAutoScroll.

(** ** The root component [App] (in hooks/usePdfPageRenderer.ts, lines 99-303) *)

Module App.

(** What the callbacks of one render of [App] hold: the [runOcr] the hook
    returned, and the store's values of that render. *)
Record snapshot := {
  runOcr_of : closure;
  zoom_of : float;
  currentPage_of : Z;
  scrollSpeed_of : float;
}.

Definition render (a : app) : snapshot :=
  {| runOcr_of := render (ocr a); zoom_of := useStore.zoom (view a);
     currentPage_of := useStore.currentPage (view a);
     scrollSpeed_of := useStore.scrollSpeed (view a) |}.

Definition triggerOcrForPage (r : snapshot) (pageNumber : Z)
  (canvas : option HTMLCanvasElement) (a : app) : option app :=
  let c := match canvas with
           | Some c => Some c
           | None => canvasMapRef a !! pageNumber
           end in
  match c with
  | None => Some a
  | Some c =>
      let rq := {| canvas := c; pageNumber := pageNumber; zoom := zoom_of r;
                   forceRun := false |} in
      match runOcr depth (runOcr_of r) rq (ocr a) with
      | Some (st, _) => Some (with_ocr (fun _ => st) a)
      | None => None
      end
  end.

(** Track latest rendered canvas per page. *)
Definition handleCanvasReady (r : snapshot) (canvas : HTMLCanvasElement) (pageNumber : Z)
  (a : app) : option app :=
  let a := with_canvasMapRef (fun m => <[pageNumber := canvas]> m) a in
  triggerOcrForPage r pageNumber (Some canvas) a.

(** When page changes, trigger OCR if canvas is available. *)
Definition page_effect (r : snapshot) (a : app) : option app :=
  match canvasMapRef a !! currentPage_of r with
  | Some canvas => triggerOcrForPage r (currentPage_of r) (Some canvas) a
  | None => Some a
  end.

(** The [onRunOcr] handed to the panel. *)
Definition onRunOcr (r : snapshot) (a : app) : option app :=
  triggerOcrForPage r (currentPage_of r) None a.

(** The number 0.1, the step of the zoom keys. *)
Definition tenth : float := 0x1.999999999999ap-4%float.

Record KeyboardEvent := {
  key : string;
  ctrlKey : bool;
  metaKey : bool;
}.

(** The keyboard shortcuts; [tagName] is the one of the focused element. *)
Definition handler (r : snapshot) (tagName : option string) (e : KeyboardEvent) (a : app)
  : app :=
  (* Don't fire if focus is in an input/select/textarea *)
  if bool_decide (tagName ∈ [Some "INPUT"; Some "SELECT"; Some "TEXTAREA"]) then a
  else if bool_decide (key e = " ") then with_view useStore.toggleScrolling a
  else if bool_decide (key e = "ArrowRight") || bool_decide (key e = "ArrowDown") then
    if negb (ctrlKey e) && negb (metaKey e)
    then with_view (useStore.setCurrentPage (currentPage_of r + 1)) a
    else a
  else if bool_decide (key e = "ArrowLeft") || bool_decide (key e = "ArrowUp") then
    if negb (ctrlKey e) && negb (metaKey e)
    then with_view (useStore.setCurrentPage (currentPage_of r - 1)) a
    else a
  else if bool_decide (key e = "+") || bool_decide (key e = "=") then
    with_view (useStore.setZoom (zoom_of r + tenth)%float) a
  else if bool_decide (key e = "-") then
    with_view (useStore.setZoom (zoom_of r - tenth)%float) a
  else if bool_decide (key e = "d") || bool_decide (key e = "D") then
    with_view useStore.toggleDarkMode a
  else if bool_decide (key e = "t") || bool_decide (key e = "T") then
    with_view useStore.toggleOcrPanel a
  else if bool_decide (key e = "[") then
    with_view (useStore.setScrollSpeed (scrollSpeed_of r - 10)%float) a
  else if bool_decide (key e = "]") then
    with_view (useStore.setScrollSpeed (scrollSpeed_of r + 10)%float) a
  else a.

(** *** The application as a transition system *)

(** The events of the OCR hook. *)
Definition ocr_event : Type := event.

Inductive event :=
(* the engine, the timers and the clock of the OCR hook, and its effect *)
| Hook (ev : ocr_event)
(* a page has been drawn, the effect on the current page, the panel's button *)
| CanvasReady (r : snapshot) (canvas : HTMLCanvasElement) (pageNumber : Z)
| PageEffect (r : snapshot)
| RunOcrButton (r : snapshot)
| KeyDown (r : snapshot) (tagName : option string) (e : KeyboardEvent)
(* the toolbar, the thumbnails, the viewer and the scroll controls *)
| Store (c : useStore.action)
(* the panel *)
| Smaller
| Larger
| LanguageChange (value : string)
| ClearLog
(* usePdfDocument *)
| PdfEffect
| Destroyed (i : nat)
| Loaded (i : nat) (r : usePdfDocument.settled)
| Password (i : nat) (password : option string)
(* useAutoScroll, and the user or the layout moving the container *)
| ScrollEffects
| Frame (id : nat) (timestamp : float)
| VisibilityChange (hidden : bool)
| Blur
| Container (c : option HTMLDivElement).

(** One turn of the event loop; [None] when the event cannot happen. The
    hook's [runOcr] is reached through [triggerOcrForPage] alone. *)
Definition step (ev : event) (a : app) : option app :=
  match ev with
  | Hook (RunOcr _ _) => None
  | Hook ev =>
      match step ev (ocr a) with
      | Some st => Some (with_ocr (fun _ => st) a)
      | None => None
      end
  | CanvasReady r canvas pageNumber => handleCanvasReady r canvas pageNumber a
  | PageEffect r => page_effect r a
  | RunOcrButton r => onRunOcr r a
  | KeyDown r tagName e => Some (handler r tagName e a)
  | Store c => Some (with_view (useStore.act c) a)
  | Smaller => Some (OcrPanel.smaller a)
  | Larger => Some (OcrPanel.larger a)
  | LanguageChange value => Some (OcrPanel.onChange value a)
  | ClearLog => Some (with_ocr clearOcrLog a)
  | PdfEffect => Some (usePdfDocument.effect (usePdfDocument.cleanup a))
  | Destroyed i => usePdfDocument.resume_destroy i a
  | Loaded i r => usePdfDocument.resume_load i r a
  | Password i password => usePdfDocument.onPassword i password a
  | ScrollEffects => Some (useAutoScroll.effects a)
  | Frame id timestamp => useAutoScroll.frame id timestamp a
  | VisibilityChange hidden => Some (useAutoScroll.handleVisibilityChange hidden a)
  | Blur => Some (useAutoScroll.handleBlur a)
  | Container c => Some (with_scrollContainerRef (fun _ => c) a)
  end.

(** A run: the events in order, one that cannot happen being skipped. *)
Fixpoint exec (evs : list event) (a : app) : app :=
  match evs with
  | [] => a
  | ev :: evs => exec evs (default a (step ev a))
  end.

(** The application as mounted on a first visit, its effects not yet run. *)
Definition init : app :=
  {| ocr := init "eng"; view := useStore.initial; canvasMapRef := ∅;
     documents := {| currentDocRef := None; loads := []; destroyed := [] |};
     scrollContainerRef := None;
     scrolling := {| rafRef := None; lastTimeRef := None; isScrollingRef := false;
                     speedRef := 50; directionRef := "down"; frames := [];
                     next_frame := 1 |} |}.

Definition reachable (a : app) : Prop :=
  ∃ evs, a = exec evs init.

End App.

(** ** Predicates on the application *)

(** [y] is [x] brought between [lo] and [hi]: it lies between them, and is
    [x] when [x] does; a NaN stays one. *)
Definition clamped (lo hi x y : float) : Prop :=
  if PrimFloat.is_nan x then y = nan
  else PrimFloat.leb lo y = true ∧ PrimFloat.leb y hi = true
       ∧ (PrimFloat.leb lo x = true → PrimFloat.leb x hi = true → PrimFloat.eqb y x = true).

Definition in_range (lo hi y : float) : Prop :=
  PrimFloat.is_nan y = true ∨ (PrimFloat.leb lo y = true ∧ PrimFloat.leb y hi = true).

(** Rounding, as the kernel's specification of binary64 does it: the
    record [mrs] places the fraction [a / b] (for [0 < b]). Its mantissa is
    the integer part, the round bit says whether the rest is a half or
    more, the sticky bit whether anything is left beside that. *)
Definition located (mrs : shr_record) (a b : Z) : Prop :=
  0 ≤ shr_m mrs
  ∧ match shr_r mrs, shr_s mrs with
    | false, false => a = shr_m mrs * b
    | false, true => shr_m mrs * b < a ∧ 2 * a < (2 * shr_m mrs + 1) * b
    | true, false => 2 * a = (2 * shr_m mrs + 1) * b
    | true, true => (2 * shr_m mrs + 1) * b < 2 * a ∧ a < (shr_m mrs + 1) * b
    end.

(** An integer that is a number as it stands: below 2^53 in magnitude. The
    code prints such a page number as its digits (larger ones are rounded,
    and from 10^21 on printed with an exponent). *)
Definition safe_integer (n : Z) : Prop := - 2 ^ 53 < n < 2 ^ 53.

(** [toFixed(2)] prints the number without an exponent: its magnitude is
    below 10^21, or it is NaN or infinite and printed by name. *)
Definition fixed_notation (x : float) : bool :=
  PrimFloat.ltb (PrimFloat.abs x) 1e21 || negb (PrimFloat.is_finite x).

(** What the store keeps of the viewer: the current page lies in the
    document (it is 1 when there is none), [totalPages] is the page count of
    the document in the store, and the three settings are in their ranges
    unless they are NaN. *)
Definition view_ok (v : useStore.viewer) : Prop :=
  1 ≤ useStore.currentPage v ≤ Z.max 1 (useStore.totalPages v)
  ∧ useStore.totalPages v = match useStore.pdfDoc v with
                            | Some doc => useStore.numPages doc
                            | None => 0
                            end
  ∧ in_range 5 500 (useStore.scrollSpeed v)
  ∧ in_range 10 32 (useStore.ocrFontSize v)
  ∧ in_range 0.25 5 (useStore.zoom v).

(** The log holds at most 50 lines. *)
Definition log_ok (st : state) : Prop :=
  (length (ocrLog (st_store st)) ≤ 50)%nat.

(** No request waiting in the hook, parked or queued on the timer, is a
    forced one. *)
Definition unforced (st : state) : Prop :=
  (∀ rq, pendingRef (st_refs st) = Some rq → forceRun rq = false)
  ∧ Forall (fun rq => forceRun rq = false) (timeouts (st_host st)).

(** ** Sample runs of the application *)

Module AppSample.

Definition report : useStore.PDFDocumentProxy :=
  {| useStore.numPages := 3; useStore.fingerprint := 1 |}.

Definition letter : useStore.PDFDocumentProxy :=
  {| useStore.numPages := 1; useStore.fingerprint := 2 |}.

(** The worker has come up and a document of three pages is open. *)
Definition opened : list App.event :=
  [ App.Hook (InitWorker "eng"); App.Hook (CreateWorker 0 (Normal Sample.eng));
    App.Store (useStore.SetPdfUrl (Some "blob:report")); App.PdfEffect;
    App.Loaded 0 (usePdfDocument.Fulfilled report) ].

(** Its first page has been drawn, and is with the engine. *)
Definition page1_drawn : list App.event :=
  opened ++ [App.CanvasReady (App.render (App.exec opened App.init)) (Sample.page 1) 1].

(** The engine has found nothing but white space on it. *)
Definition page1_blank : list App.event :=
  page1_drawn ++ [App.Hook (Recognize 0 (Normal "  "))].

(** The page has been recognised, and the user has zoomed in since. *)
Definition zoomed : list App.event :=
  page1_drawn ++ [App.Hook (Recognize 0 (Normal "Dear Sir")); App.Store (useStore.SetZoom 2)].

(** Another document is opened while page 1 of the first is with the engine. *)
Definition reopened : list App.event :=
  page1_drawn ++ [App.Store (useStore.SetPdfUrl (Some "blob:letter"))].

(** The user leafs forward four times and zooms in once. *)
Definition leafed : list App.event :=
  opened
  ++ [ App.KeyDown (App.render (App.exec opened App.init)) None
         {| App.key := "ArrowRight"; App.ctrlKey := false; App.metaKey := false |};
       App.Store (useStore.SetCurrentPage 7);
       App.KeyDown (App.render (App.exec opened App.init)) (Some "BODY")
         {| App.key := "+"; App.ctrlKey := false; App.metaKey := false |} ].

(** A container 3000 pixels deep, scrolled 120 pixels down. *)
Definition pane : HTMLDivElement :=
  {| scrollTop := 120;
     scrolled := fun v => if PrimFloat.ltb v 0 then 0%float
                          else if PrimFloat.ltb 3000 v then 3000%float else v |}.

(** The document is shown in it, and auto-scroll has just been switched on. *)
Definition playing : list App.event :=
  opened ++ [App.Container (Some pane); App.Store useStore.ToggleScrolling].

End AppSample.

(** The string has a colon in it. *)
Fixpoint has_colon (s : string) : bool :=
  match s with
  | EmptyString => false
  | String a s1 => bool_decide (a = ":"%char) || has_colon s1
  end.

(** Two cache entries in the order of their page numbers. *)
Definition page_le (x y : string * string) : Prop :=
  ∃ pageA pageB,
    OcrPanel.page_of x.1 = Some pageA ∧ OcrPanel.page_of y.1 = Some pageB ∧ pageA ≤ pageB.

(** The loads of usePdfDocument that have not been cancelled. *)
Definition live (a : app) : list load :=
  List.filter (fun l => negb (cancelled l)) (loads (documents a)).

(** Every animation frame that is pending is the one [rafRef] holds, and
    there is at most one. *)
Definition one_loop (a : app) : Prop :=
  (length (frames (scrolling a)) ≤ 1)%nat
  ∧ ∀ id, id ∈ frames (scrolling a) → rafRef (scrolling a) = Some id.

(** The two flags of the store say what the refs say: the panel's loading
    state is the hook's running state, and the worker is shown as ready
    when it is. *)
Definition flags_ok (st : state) : Prop :=
  ocrLoading (st_store st) = isRunningRef (st_refs st)
  ∧ workerReady (st_store st) = workerReadyRef (st_refs st).

(** * Properties *)

(** ** [runOcr] and [finally], one step at a time *)

Lemma runOcr_S fuel cl rq st :
  runOcr (S fuel) cl rq st =
  if cached cl rq then
    Some (addOcrLog ("OCR skipped — result cached for page " +:+ pretty (pageNumber rq)) st,
          Resolved (ocrCache_of cl !! cacheKey cl rq))
  else if notReady st then
    Some ((if forceRun rq
           then addOcrLog ("Force re-running OCR on page " +:+ pretty (pageNumber rq)
                           +:+ " (queued — worker not ready)")
           else id) (set_pendingRef (Some rq) st), Resolved None)
  else if isRunningRef (st_refs st) then Some (set_pendingRef (Some rq) st, Resolved None)
  else
    match imageSource (canvas rq) with
    | Normal image =>
        Some (await_recognize {| rec_closure := cl; rec_cacheKey := cacheKey cl rq;
                                 rec_pageNumber := pageNumber rq |} image (started rq st),
              Awaiting)
    | Throw err =>
        (λ st', (st', Resolved None)) <$>
          finally (runOcr fuel cl) (catch (pageNumber rq) err (started rq st))
    end.
Proof.
  unfold cached, notReady, started. cbn [runOcr].
  destruct (forceRun rq); cbn [negb andb]; repeat case_match; reflexivity.
Qed.

Lemma finally_eq again st :
  finally again st =
  match pendingRef (st_refs st) with
  | Some p => fst <$> again p (set_pendingRef None (idle st))
  | None => Some (idle st)
  end.
Proof.
  unfold finally, idle. cbn.
  destruct (pendingRef (st_refs st)) as [p|]; [|reflexivity].
  destruct (again p _) as [[st' r]|]; reflexivity.
Qed.

(** The branches of [runOcr], in the order of the source: answered from
    the cache, parked for want of a worker, parked behind a running
    recognition, handed to the engine, failed before that. *)
Ltac runOcr_branches cl rq st :=
  rewrite runOcr_S;
  destruct (cached cl rq);
    [|destruct (notReady st);
      [|destruct (isRunningRef (st_refs st));
        [|destruct (imageSource (canvas rq)) as [?image|?err]]]].

(** The events, in the order of [event]. *)
Ltac step_cases ev Hstep :=
  destruct ev as [?cl ?rq|?i ?r|?lang|?i|?i ?r|?i|?m|?lang| |?t]; cbn [step] in Hstep.

Lemma runOcr_no_pending cl rq st :
  pendingRef (st_refs st) = None →
  ∃ st' r, ∀ n, runOcr (S n) cl rq st = Some (st', r).
Proof.
  intros Hp.
  destruct (cached cl rq) eqn:Hc; [|destruct (notReady st) eqn:Hn;
    [|destruct (isRunningRef (st_refs st)) eqn:Hr;
      [|destruct (imageSource (canvas rq)) as [image|err] eqn:Hi]]].
  all: eexists _, _; intros n; rewrite runOcr_S, Hc, ?Hn, ?Hr, ?Hi; try reflexivity.
  rewrite finally_eq.
  replace (pendingRef _) with (@None request).
  - cbn. reflexivity.
  - unfold started. destruct (forceRun rq); cbn; auto.
Qed.

(** X2. Every call of [runOcr] returns or suspends: the calls it makes to
    itself from its [finally] block nest at most once below the first, so
    with fuel 2 or more the result is there, and it is the same for all such
    fuel. *)
Theorem runOcr_total cl rq st :
  ∃ st' r, ∀ n, runOcr (S (S n)) cl rq st = Some (st', r).
Proof.
  destruct (cached cl rq) eqn:Hc; [|destruct (notReady st) eqn:Hn;
    [|destruct (isRunningRef (st_refs st)) eqn:Hr;
      [|destruct (imageSource (canvas rq)) as [image|err] eqn:Hi]]].
  1-4: eexists _, _; intros n; rewrite runOcr_S, Hc, ?Hn, ?Hr, ?Hi; reflexivity.
  set (st1 := catch (pageNumber rq) err (started rq st)).
  destruct (pendingRef (st_refs st1)) as [p|] eqn:Hp.
  - destruct (runOcr_no_pending cl p (set_pendingRef None (idle st1)) eq_refl) as (st' & r & H).
    exists st', (Resolved None). intros n.
    rewrite runOcr_S, Hc, Hn, Hr, Hi. fold st1.
    rewrite finally_eq, Hp, H. reflexivity.
  - exists (idle st1), (Resolved None). intros n.
    rewrite runOcr_S, Hc, Hn, Hr, Hi. fold st1.
    rewrite finally_eq, Hp. reflexivity.
Qed.

Lemma notReady_false st :
  notReady st = false →
  workerReadyRef (st_refs st) = true ∧ is_Some (workerRef (st_refs st)).
Proof.
  unfold notReady. intros H. apply orb_false_elim in H as [H1 H2].
  apply negb_false_iff in H1, H2. apply bool_decide_eq_true in H2. auto.
Qed.

Lemma runOcr_consistent n cl rq st st' r :
  consistent st → runOcr (S n) cl rq st = Some (st', r) → consistent st'.
Proof.
  intros (H1 & H2 & H3). rewrite runOcr_S.
  destruct (cached cl rq) eqn:Hc; [|destruct (notReady st) eqn:Hn;
    [|destruct (isRunningRef (st_refs st)) eqn:Hr;
      [|destruct (imageSource (canvas rq)) as [image|err] eqn:Hi]]];
    intros [= <- <-] || intros H.
  - by split_and!.
  - assert (workerReadyRef (st_refs st) = false) as Hw.
    { unfold notReady in Hn. destruct (workerReadyRef (st_refs st)); [|done].
      destruct (H2 eq_refl) as [w Hw]. rewrite Hw in Hn. done. }
    destruct (forceRun rq); split_and!; cbn; try done; rewrite Hw; done.
  - split_and!; cbn; try done; rewrite Hr; done.
  - destruct (recognizing (st_host st)) eqn:Hl; [|done].
    unfold started. destruct (forceRun rq); split_and!; cbn; rewrite ?Hl; done.
  - apply notReady_false in Hn as [Hw _].
    rewrite finally_eq in H.
    replace (pendingRef _) with (@None request) in H
      by (unfold started; destruct (forceRun rq); cbn; symmetry; auto).
    injection H as <- <-.
    unfold started. destruct (forceRun rq); split_and!; cbn; auto.
Qed.

Lemma resume_recognize_eq i r st a :
  recognizing (st_host st) !! i = Some a →
  resume_recognize i r st =
  (λ st', (st', result_of r)) <$>
    finally (runOcr depth (rec_closure a))
      (try_end a r (set_recognizing (delete i (recognizing (st_host st))) st)).
Proof.
  intros Ha. unfold resume_recognize. rewrite Ha.
  destruct r as [text|err]; cbn [try_end result_of].
  - destruct (0 <? strlen (trim text)); destruct (finally _ _); reflexivity.
  - destruct (finally _ _); reflexivity.
Qed.

Lemma resume_recognize_consistent i r st st' v :
  consistent st → resume_recognize i r st = Some (st', v) → consistent st'.
Proof.
  intros (H1 & H2 & H3) H.
  destruct (recognizing (st_host st) !! i) as [a|] eqn:Ha;
    [|unfold resume_recognize in H; rewrite Ha in H; done].
  rewrite (resume_recognize_eq _ _ _ _ Ha), finally_eq in H.
  assert (delete i (recognizing (st_host st)) = []) as Hd.
  { destruct (recognizing (st_host st)) as [|b [|c l]]; [done| |by destruct (isRunningRef _)].
    destruct i; [done|]. by destruct i. }
  rewrite Hd in H.
  set (st1 := try_end a r (set_recognizing [] st)) in *.
  assert (consistent (set_pendingRef None (idle st1))) as Hc.
  { subst st1. destruct r as [text|err]; cbn [try_end];
      [destruct (0 <? strlen (trim text))|]; by split_and!. }
  destruct (pendingRef (st_refs st1)) as [p|] eqn:Hp.
  - destruct (runOcr depth _ p _) as [[st2 r2]|] eqn:Hrun; [|done].
    injection H as <- <-. eapply runOcr_consistent; [exact Hc|exact Hrun].
  - injection H as <- <-. destruct Hc as (C1 & C2 & C3).
    split_and!; [exact C1|exact C2|]. intros _ _. exact Hp.
Qed.

Lemma step_consistent ev st st' :
  consistent st → step ev st = Some st' → consistent st'.
Proof.
  intros Hc. destruct ev as [cl rq|i r|lang|i|i r|i|m|lang| |t]; cbn [step].
  - destruct (runOcr depth cl rq st) as [[st1 r1]|] eqn:H; [|done].
    intros [= <-]. eapply runOcr_consistent; [exact Hc|exact H].
  - destruct (resume_recognize i r st) as [[st1 r1]|] eqn:H; [|done].
    intros [= <-]. eapply resume_recognize_consistent; [exact Hc|exact H].
  - intros [= <-]. unfold initWorker. by destruct (workerRef (st_refs st)).
  - unfold resume_terminate.
    destruct (initializing (st_host st) !! i) as [[lang|lang]|]; [|done..].
    intros [= <-]. destruct Hc as (H1 & H2 & H3). by split_and!.
  - unfold resume_createWorker.
    destruct (initializing (st_host st) !! i) as [[lang|lang]|]; [done| |done].
    destruct Hc as (H1 & H2 & H3). destruct r as [w|err].
    + cbn. destruct (pendingRef (st_refs st)) eqn:Hp; intros [= <-];
        unfold consistent; cbn; split_and!; eauto.
    + intros [= <-]. by split_and!.
  - unfold timeout. destruct (timeouts (st_host st) !! i) as [rq|]; [|done].
    destruct (runOcr depth _ rq _) as [[st1 r1]|] eqn:H; [|done].
    intros [= <-]. eapply runOcr_consistent; [|exact H]. exact Hc.
  - intros [= <-]. unfold logger. repeat case_match; exact Hc.
  - intros [= <-]. exact Hc.
  - intros [= <-]. exact Hc.
  - intros [= <-]. exact Hc.
Qed.

Lemma exec_consistent evs st : consistent st → consistent (exec evs st).
Proof.
  revert st. induction evs as [|ev evs IH]; intros st Hc; [exact Hc|].
  cbn [exec]. apply IH. destruct (step ev st) as [st'|] eqn:H; [|exact Hc].
  eapply step_consistent; [exact Hc|exact H].
Qed.

Lemma init_consistent lang : consistent (init lang).
Proof. by split_and!. Qed.

(** ** What a call leaves alone *)

Lemma runOcr_store fuel cl rq st st' r :
  runOcr fuel cl rq st = Some (st', r) →
  ocrCache (st_store st') = ocrCache (st_store st)
  ∧ ocrLanguage (st_store st') = ocrLanguage (st_store st).
Proof.
  revert rq st st' r. induction fuel as [|fuel IH]; intros rq st st' r; [done|].
  runOcr_branches cl rq st.
  - by intros [= <- <-].
  - intros [= <- <-]. by destruct (forceRun rq).
  - by intros [= <- <-].
  - intros [= <- <-]. unfold started. by destruct (forceRun rq).
  - rewrite finally_eq.
    destruct (pendingRef _) as [p|].
    + destruct (runOcr fuel cl p _) as [[st2 r2]|] eqn:H; [|done].
      intros [= <- <-]. apply IH in H as [-> ->].
      unfold started. by destruct (forceRun rq).
    + intros [= <- <-]. unfold started. by destruct (forceRun rq).
Qed.

Lemma try_end_refs a r st : st_refs (try_end a r st) = st_refs st.
Proof. destruct r as [text|err]; cbn; [by destruct (0 <? _)|done]. Qed.

Lemma try_end_host a r st : st_host (try_end a r st) = st_host st.
Proof. destruct r as [text|err]; cbn; [by destruct (0 <? _)|done]. Qed.

Lemma try_end_cache a r st :
  ocrCache (st_store (try_end a r st)) =
  match r with
  | Normal text => <[rec_cacheKey a := trim text]> (ocrCache (st_store st))
  | Throw _ => ocrCache (st_store st)
  end.
Proof. destruct r as [text|err]; cbn; [by destruct (0 <? _)|done]. Qed.

Lemma try_end_language a r st :
  ocrLanguage (st_store (try_end a r st)) = ocrLanguage (st_store st).
Proof. destruct r as [text|err]; cbn; [by destruct (0 <? _)|done]. Qed.

Lemma started_refs rq st : st_refs (started rq st) = st_refs (set_isRunningRef true st).
Proof. unfold started. by destruct (forceRun rq). Qed.

Lemma started_host rq st : st_host (started rq st) = st_host st.
Proof. unfold started. by destruct (forceRun rq). Qed.

Lemma started_cache rq st : ocrCache (st_store (started rq st)) = ocrCache (st_store st).
Proof. unfold started. by destruct (forceRun rq). Qed.

Lemma started_language rq st : ocrLanguage (st_store (started rq st)) = ocrLanguage (st_store st).
Proof. unfold started. by destruct (forceRun rq). Qed.

Lemma reachable_consistent st : reachable st → consistent st.
Proof. intros (lang & evs & ->). apply exec_consistent, init_consistent. Qed.

(** ** Cache hits *)

Lemma cached_true cl rq text :
  forceRun rq = false → ocrCache_of cl !! cacheKey cl rq = Some text → cached cl rq = true.
Proof. intros Hf Hk. unfold cached. rewrite Hf, Hk. by apply bool_decide_eq_true. Qed.

Lemma cached_false_miss cl rq :
  ocrCache_of cl !! cacheKey cl rq = None → cached cl rq = false.
Proof.
  intros Hk. unfold cached. rewrite Hk. apply andb_false_intro2.
  apply bool_decide_eq_false. by intros [? ?].
Qed.

Lemma runOcr_hit fuel cl rq st text :
  forceRun rq = false →
  ocrCache_of cl !! cacheKey cl rq = Some text →
  runOcr (S fuel) cl rq st =
  Some (addOcrLog ("OCR skipped — result cached for page " +:+ pretty (pageNumber rq)) st,
        Resolved (Some text)).
Proof.
  intros Hf Hk. rewrite runOcr_S, (cached_true _ _ _ Hf Hk), Hk. reflexivity.
Qed.

Lemma run_then_rerun st rq image text :
  reachable st →
  forceRun rq = false →
  notReady st = false →
  isRunningRef (st_refs st) = false →
  ocrCache (st_store st) !! cacheKey (render st) rq = None →
  imageSource (canvas rq) = Normal image →
  ∃ st1 st2 st3,
    runOcr depth (render st) rq st = Some (st1, Awaiting)
    ∧ resume_recognize 0 (Normal text) st1 = Some (st2, Some (trim text))
    ∧ runOcr depth (render st2) rq st2 = Some (st3, Resolved (Some (trim text)))
    ∧ recognized (st_host st3) = image :: recognized (st_host st).
Proof.
  intros Hreach Hf Hn Hr Hk Hi.
  destruct (reachable_consistent _ Hreach) as (H1 & H2 & H3).
  apply notReady_false in Hn as Hw. destruct Hw as [Hw _].
  specialize (H3 Hw Hr). rewrite Hr in H1.
  destruct (recognizing (st_host st)) eqn:Hl; [clear H1|done].
  set (a := {| rec_closure := render st; rec_cacheKey := cacheKey (render st) rq;
               rec_pageNumber := pageNumber rq |}).
  set (st1 := await_recognize a image (started rq st)).
  assert (recognizing (st_host st1) = [a]) as Hl1.
  { subst st1. cbn. by rewrite started_host, Hl. }
  set (st2 := idle (try_end a (Normal text) (set_recognizing [] st1))).
  assert (ocrCache (st_store st2) !! cacheKey (render st2) rq = Some (trim text)) as Hk2.
  { replace (cacheKey (render st2) rq) with (cacheKey (render st) rq).
    - subst st2. cbn -[try_end]. rewrite try_end_cache. apply lookup_insert_eq.
    - unfold cacheKey. f_equal. f_equal. f_equal. subst st2. cbn -[try_end].
      rewrite try_end_language. subst st1. cbn. by rewrite started_language. }
  exists st1, st2, (addOcrLog ("OCR skipped — result cached for page " +:+ pretty (pageNumber rq)) st2).
  split_and!.
  - unfold depth. rewrite runOcr_S, (cached_false_miss _ _ Hk), Hn, Hr, Hi. reflexivity.
  - rewrite (resume_recognize_eq 0 _ _ a) by (by rewrite Hl1).
    rewrite Hl1, finally_eq. cbn [delete list_delete].
    rewrite try_end_refs. subst st1. cbn. rewrite started_refs. cbn. rewrite H3.
    reflexivity.
  - apply runOcr_hit; [exact Hf|exact Hk2].
  - subst st2 st1. cbn -[try_end]. rewrite try_end_host. cbn. by rewrite started_host.
Qed.

(** X1. A call that does not force a run and whose closure holds a text for
    its cache key [pageNumber:zoom.toFixed(2):language] returns that text at
    once: the engine is given nothing, the refs and the cache stay as they
    are, and only the line about the skipped run is logged. Hence, from a
    reachable state with the worker ready and idle, a call that misses the
    cache, its recognition, and the same call again by the [runOcr] of the
    next render give the engine exactly one image, and the second call
    returns the text the first one stored. *)
Theorem runOcr_returns_cached_value :
  (∀ fuel cl rq st text,
     forceRun rq = false →
     ocrCache_of cl !! cacheKey cl rq = Some text →
     cacheKey cl rq
       = pretty (pageNumber rq) +:+ ":" +:+ toFixed2 (zoom rq) +:+ ":" +:+ ocrLanguage_of cl
     ∧ ∃ st',
         runOcr (S fuel) cl rq st = Some (st', Resolved (Some text))
         ∧ st_refs st' = st_refs st
         ∧ st_host st' = st_host st
         ∧ ocrCache (st_store st') = ocrCache (st_store st)
         ∧ head (ocrLog (st_store st'))
           = Some ("[" +:+ now (st_host st) +:+ "] OCR skipped — result cached for page "
                   +:+ pretty (pageNumber rq)))
  ∧ (∀ st rq image text,
       reachable st →
       forceRun rq = false →
       notReady st = false →
       isRunningRef (st_refs st) = false →
       ocrCache (st_store st) !! cacheKey (render st) rq = None →
       imageSource (canvas rq) = Normal image →
       ∃ st1 st2 st3,
         runOcr depth (render st) rq st = Some (st1, Awaiting)
         ∧ resume_recognize 0 (Normal text) st1 = Some (st2, Some (trim text))
         ∧ runOcr depth (render st2) rq st2 = Some (st3, Resolved (Some (trim text)))
         ∧ recognized (st_host st3) = image :: recognized (st_host st)).
Proof.
  split.
  - intros fuel cl rq st text Hf Hk. split; [reflexivity|].
    eexists. split; [apply runOcr_hit; eassumption|]. by split_and!.
  - apply run_then_rerun.
Qed.

Lemma runOcr_returns_cached_value_witness :
  (let cl := render (exec Sample.page2_done (init "eng")) in
   let st := exec Sample.page1_running (init "eng") in
   let rq := Sample.ask 2 false in
   cacheKey cl rq = "2:1.00:eng"
   ∧ ∃ st',
       runOcr 1 cl rq st = Some (st', Resolved (Some "hello"))
       ∧ st_refs st' = st_refs st
       ∧ st_host st' = st_host st
       ∧ ocrCache (st_store st') = ocrCache (st_store st)
       ∧ head (ocrLog (st_store st'))
         = Some ("[" +:+ now (st_host st) +:+ "] OCR skipped — result cached for page "
                 +:+ pretty (pageNumber rq)))
  ∧ (let st := exec Sample.ready (init "eng") in
     let rq := Sample.ask 2 false in
     ∃ st1 st2 st3,
       runOcr depth (render st) rq st = Some (st1, Awaiting)
       ∧ resume_recognize 0 (Normal "  hello  ") st1 = Some (st2, Some (trim "  hello  "))
       ∧ runOcr depth (render st2) rq st2 = Some (st3, Resolved (Some (trim "  hello  ")))
       ∧ recognized (st_host st3) = Sample.page 2 :: recognized (st_host st)).
Proof.
  destruct runOcr_returns_cached_value as [hit rerun]. split.
  - cbv zeta. change "2:1.00:eng" with
      (pretty (pageNumber (Sample.ask 2 false)) +:+ ":" +:+ toFixed2 (zoom (Sample.ask 2 false))
       +:+ ":" +:+ ocrLanguage_of (render (exec Sample.page2_done (init "eng")))).
    apply (hit 0%nat); vm_compute; reflexivity.
  - cbv zeta. apply rerun.
    + exists "eng", Sample.ready. reflexivity.
    + reflexivity.
    + vm_compute; reflexivity.
    + vm_compute; reflexivity.
    + vm_compute; reflexivity.
    + vm_compute; reflexivity.
Defined.

(** C1 (the code differs from the claim). With the worker ready and idle
    and nothing cached, [runOcr] is called twice for page 1, the second
    time while the first recognition is running, and the engine then
    resolves with the text "one". The second request is parked, and when
    [finally] calls [runOcr] for it the store's cache already maps the key
    "1:1.00:eng" to "one"; but that call reads the cache object its caller
    captured before [setOcrResult] replaced it, misses, and hands page 1 to
    the engine a second time. *)
Theorem parked_duplicate_runs_engine_again :
  let st0 := exec Sample.ready (init "eng") in
  let rq := Sample.ask 1 false in
  let st1 := exec [RunOcr (render st0) rq] st0 in
  let st2 := exec [RunOcr (render st1) rq] st1 in
  let st3 := exec [Recognize 0 (Normal "one")] st2 in
  recognized (st_host st1) = [Sample.page 1]
  ∧ runOcr depth (render st1) rq st1 = Some (st2, Resolved None)
  ∧ pendingRef (st_refs st2) = Some rq
  ∧ resume_recognize 0 (Normal "one") st2 = Some (st3, Some "one")
  ∧ ocrCache (st_store st3) !! cacheKey (render st3) rq = Some "one"
  ∧ isRunningRef (st_refs st3) = true
  ∧ recognized (st_host st3) = [Sample.page 1; Sample.page 1].
Proof. cbv zeta. split_and!; vm_compute; reflexivity. Qed.

(** ** Requests made while a recognition is in flight *)

Lemma runOcr_while_running fuel cl rq st :
  isRunningRef (st_refs st) = true →
  cached cl rq = false →
  ∃ st',
    runOcr (S fuel) cl rq st = Some (st', Resolved None)
    ∧ pendingRef (st_refs st') = Some rq
    ∧ st_host st' = st_host st
    ∧ isRunningRef (st_refs st') = true.
Proof.
  intros Hr Hc. rewrite runOcr_S, Hc, Hr.
  destruct (notReady st); eexists; (split; [reflexivity|]).
  - by destruct (forceRun rq).
  - done.
Qed.

Lemma runOcr_superseded fuel cl1 cl2 r1 r2 st :
  isRunningRef (st_refs st) = true →
  notReady st = false →
  cached cl1 r1 = false →
  cached cl2 r2 = false →
  ∃ st1 st2,
    runOcr (S fuel) cl1 r1 st = Some (st1, Resolved None)
    ∧ runOcr (S fuel) cl2 r2 st1 = Some (st2, Resolved None)
    ∧ runOcr (S fuel) cl2 r2 st = Some (st2, Resolved None)
    ∧ pendingRef (st_refs st2) = Some r2.
Proof.
  intros Hr Hn Hc1 Hc2.
  exists (set_pendingRef (Some r1) st), (set_pendingRef (Some r2) st).
  rewrite !runOcr_S, Hc1, Hc2, Hn, Hr.
  replace (notReady (set_pendingRef (Some r1) st)) with false by (symmetry; exact Hn).
  cbn. by rewrite Hr.
Qed.

(** C2, as it is stated, fails: while page 1 is with the engine, a call for
    page 2, whose text is cached, is answered with that text and leaves the
    pending slot empty. *)
Lemma cached_call_while_running_is_answered :
  let st := exec Sample.page1_running (init "eng") in
  isRunningRef (st_refs st) = true
  ∧ length (recognizing (st_host st)) = 1%nat
  ∧ ∃ st',
      runOcr depth (render st) (Sample.ask 2 false) st = Some (st', Resolved (Some "hello"))
      ∧ pendingRef (st_refs st') = None.
Proof.
  cbv zeta. split; [reflexivity|]. split; [reflexivity|].
  eexists. split; [vm_compute; reflexivity|reflexivity].
Qed.

(** C2, amended. In every reachable state [isRunningRef] is set exactly
    while one [recognize] is awaited, so at most one recognition is in
    flight; the pending slot is a single ref. A call that arrives while
    [isRunningRef] is set and is not answered from the cache writes its own
    arguments into the slot and returns null, the engine being given
    nothing. Of two such calls the earlier leaves no trace: the state after
    both is the state after the later one alone. *)
Theorem latest_request_wins :
  (∀ st, reachable st →
     length (recognizing (st_host st)) = (if isRunningRef (st_refs st) then 1 else 0)%nat)
  ∧ (∀ fuel cl rq st,
       isRunningRef (st_refs st) = true →
       cached cl rq = false →
       ∃ st',
         runOcr (S fuel) cl rq st = Some (st', Resolved None)
         ∧ pendingRef (st_refs st') = Some rq
         ∧ st_host st' = st_host st
         ∧ isRunningRef (st_refs st') = true)
  ∧ (∀ fuel cl1 cl2 r1 r2 st,
       isRunningRef (st_refs st) = true →
       notReady st = false →
       cached cl1 r1 = false →
       cached cl2 r2 = false →
       ∃ st1 st2,
         runOcr (S fuel) cl1 r1 st = Some (st1, Resolved None)
         ∧ runOcr (S fuel) cl2 r2 st1 = Some (st2, Resolved None)
         ∧ runOcr (S fuel) cl2 r2 st = Some (st2, Resolved None)
         ∧ pendingRef (st_refs st2) = Some r2).
Proof.
  split_and!.
  - intros st Hst. apply (reachable_consistent _ Hst).
  - apply runOcr_while_running.
  - apply runOcr_superseded.
Qed.

Lemma latest_request_wins_witness :
  let st := exec Sample.page1_running (init "eng") in
  let cl := render (exec Sample.page2_done (init "eng")) in
  length (recognizing (st_host st)) = (if isRunningRef (st_refs st) then 1 else 0)%nat
  ∧ (∃ st',
       runOcr depth cl (Sample.ask 3 false) st = Some (st', Resolved None)
       ∧ pendingRef (st_refs st') = Some (Sample.ask 3 false)
       ∧ st_host st' = st_host st
       ∧ isRunningRef (st_refs st') = true)
  ∧ (∃ st1 st2,
       runOcr depth cl (Sample.ask 3 false) st = Some (st1, Resolved None)
       ∧ runOcr depth cl (Sample.ask 6 true) st1 = Some (st2, Resolved None)
       ∧ runOcr depth cl (Sample.ask 6 true) st = Some (st2, Resolved None)
       ∧ pendingRef (st_refs st2) = Some (Sample.ask 6 true)).
Proof.
  cbv zeta. destruct latest_request_wins as (one & queued & superseded). split_and!.
  - apply one. exists "eng", Sample.page1_running. reflexivity.
  - apply queued; vm_compute; reflexivity.
  - apply superseded; vm_compute; reflexivity.
Defined.

(** ** The log *)

Lemma kept_same k st st' : ocrLog (st_store st') = ocrLog (st_store st) → kept k st st'.
Proof. intros Hl j e Hj _. exists j. rewrite Hl. split; [lia|exact Hj]. Qed.

Lemma kept_addOcrLog m st : kept 1 st (addOcrLog m st).
Proof.
  intros j e Hj Hlt. exists (S j). split; [lia|].
  cbn -[take]. rewrite lookup_take_lt by lia. exact Hj.
Qed.

Lemma kept_trans a b st1 st2 st3 :
  kept a st1 st2 → kept b st2 st3 → kept (a + b) st1 st3.
Proof.
  intros H12 H23 j e Hj Hlt.
  destruct (H12 j e Hj) as (j2 & Hle2 & Hj2); [lia|].
  destruct (H23 j2 e Hj2) as (j3 & Hle3 & Hj3); [lia|].
  exists j3. split; [lia|exact Hj3].
Qed.

Lemma kept_le a b st st' : (a ≤ b)%nat → kept a st st' → kept b st st'.
Proof.
  intros Hab H j e Hj Hlt. destruct (H j e Hj) as (j' & Hle & Hj'); [lia|].
  exists j'. split; [lia|exact Hj'].
Qed.

Lemma kept_started rq st : kept 1 st (started rq st).
Proof.
  unfold started. destruct (forceRun rq);
    apply (kept_trans 0 1 _ (setOcrProgress 0 (setOcrLoading true (set_isRunningRef true st))));
    first [by apply kept_same | apply kept_addOcrLog].
Qed.

Lemma runOcr_kept fuel cl rq st st' r :
  pendingRef (st_refs st) = None →
  runOcr (S fuel) cl rq st = Some (st', r) →
  kept 2 st st'.
Proof.
  intros Hp. runOcr_branches cl rq st.
  - intros [= <- <-]. apply (kept_le 1); [lia|]. apply kept_addOcrLog.
  - intros [= <- <-]. destruct (forceRun rq).
    + apply (kept_le 1); [lia|].
      apply (kept_trans 0 1 _ (set_pendingRef (Some rq) st));
        [by apply kept_same|apply kept_addOcrLog].
    + by apply kept_same.
  - intros [= <- <-]. by apply kept_same.
  - intros [= <- <-]. apply (kept_le 1); [lia|].
    apply (kept_trans 1 0 _ (started rq st)); [apply kept_started|by apply kept_same].
  - rewrite finally_eq.
    replace (pendingRef _) with (@None request)
      by (cbn; rewrite started_refs; cbn; by rewrite Hp).
    intros [= <- <-].
    apply (kept_trans 1 1 _ (started rq st)); [apply kept_started|].
    apply (kept_trans 1 0 _ (catch (pageNumber rq) err (started rq st)));
      [apply kept_addOcrLog|by apply kept_same].
Qed.

Lemma catch_logged pn err st st' :
  kept 2 (catch pn err st) st' → error_entry pn err st ∈ ocrLog (st_store st').
Proof.
  intros H. destruct (H 0%nat (error_entry pn err st)) as (j & _ & Hj); [reflexivity|lia|].
  eapply list_elem_of_lookup_2. exact Hj.
Qed.

(** ** Failures *)

Lemma finally_after_catch fuel cl pn err st :
  ∃ st',
    finally (runOcr (S fuel) cl) (catch pn err st) = Some st'
    ∧ ocrCache (st_store st') = ocrCache (st_store st)
    ∧ error_entry pn err st ∈ ocrLog (st_store st').
Proof.
  rewrite finally_eq.
  destruct (pendingRef (st_refs (catch pn err st))) as [p|].
  - destruct (runOcr_no_pending cl p (set_pendingRef None (idle (catch pn err st))) eq_refl)
      as (st' & r & H).
    exists st'. rewrite H. split; [reflexivity|]. specialize (H fuel). split.
    + apply runOcr_store in H as [-> _]. reflexivity.
    + apply catch_logged. apply (kept_trans 0 2 _ (set_pendingRef None (idle (catch pn err st))));
        [by apply kept_same|]. eapply runOcr_kept; [reflexivity|exact H].
  - eexists. split; [reflexivity|]. split; [reflexivity|].
    apply catch_logged. by apply kept_same.
Qed.

(** C3. A call that goes through to the [try] block and fails there, be it
    that drawing the downsampled image throws or that the engine rejects the
    recognition with any value, resolves to null; the cache is what it was
    before; and the line "Error during OCR on page N: ..." with the message
    [errMsg] makes of the thrown value is in the log. No call, whatever its
    course, writes the cache before its recognition has come back. *)
Theorem failed_recognition_returns_null :
  (∀ fuel cl rq st st' r,
     runOcr fuel cl rq st = Some (st', r) →
     ocrCache (st_store st') = ocrCache (st_store st))
  ∧ (∀ cl rq st err,
     cached cl rq = false →
     notReady st = false →
     isRunningRef (st_refs st) = false →
     imageSource (canvas rq) = Throw err →
     ∃ st',
       runOcr depth cl rq st = Some (st', Resolved None)
       ∧ ocrCache (st_store st') = ocrCache (st_store st)
       ∧ error_entry (pageNumber rq) err st ∈ ocrLog (st_store st'))
  ∧ (∀ i err st a,
       recognizing (st_host st) !! i = Some a →
       ∃ st',
         resume_recognize i (Throw err) st = Some (st', None)
         ∧ ocrCache (st_store st') = ocrCache (st_store st)
         ∧ error_entry (rec_pageNumber a) err st ∈ ocrLog (st_store st')).
Proof.
  split; [|split].
  - intros fuel cl rq st st' r H. by apply runOcr_store in H as [-> _].
  - intros cl rq st err Hc Hn Hr Hi.
    destruct (finally_after_catch 0 cl (pageNumber rq) err (started rq st))
      as (st' & Hfin & Hcache & Hlog).
    exists st'. unfold depth. rewrite runOcr_S, Hc, Hn, Hr, Hi, Hfin.
    split; [reflexivity|]. split.
    + by rewrite Hcache, started_cache.
    + unfold error_entry in *. by rewrite started_host in Hlog.
  - intros i err st a Ha.
    destruct (finally_after_catch 1 (rec_closure a) (rec_pageNumber a) err
                (set_recognizing (delete i (recognizing (st_host st))) st))
      as (st' & Hfin & Hcache & Hlog).
    exists st'. rewrite (resume_recognize_eq _ _ _ _ Ha). cbn [try_end result_of].
    unfold depth. rewrite Hfin. by split_and!.
Qed.

Lemma failed_recognition_returns_null_witness :
  (let st := exec Sample.ready (init "eng") in
   let st' := exec [RunOcr (render st) (Sample.ask 1 false)] st in
   ocrCache (st_store st') = ocrCache (st_store st))
  ∧ (let st := exec Sample.ready (init "eng") in
   ∃ st',
     runOcr depth (render st) (Sample.ask_poster false) st = Some (st', Resolved None)
     ∧ ocrCache (st_store st') = ocrCache (st_store st)
     ∧ error_entry 7 draw_error st ∈ ocrLog (st_store st'))
  ∧ (let st := exec Sample.page3_pending (init "eng") in
     ∃ st',
       resume_recognize 0 (Throw (Error "worker terminated")) st = Some (st', None)
       ∧ ocrCache (st_store st') = ocrCache (st_store st)
       ∧ error_entry 1 (Error "worker terminated") st ∈ ocrLog (st_store st')).
Proof.
  cbv zeta. destruct failed_recognition_returns_null as (unwritten & thrown & rejected).
  split; [|split].
  - apply (unwritten depth (render (exec Sample.ready (init "eng"))) (Sample.ask 1 false)
             _ _ Awaiting).
    vm_compute; reflexivity.
  - apply (thrown _ (Sample.ask_poster false)); vm_compute; reflexivity.
  - apply (rejected 0%nat _ _
             {| rec_closure := render (exec Sample.page2_done (init "eng"));
                rec_cacheKey := "1:1.00:eng"; rec_pageNumber := 1 |}).
    vm_compute; reflexivity.
Defined.

(** ** Requests made while the worker is not ready *)

Lemma runOcr_not_ready fuel cl rq st :
  cached cl rq = false →
  notReady st = true →
  ∃ st',
    runOcr (S fuel) cl rq st = Some (st', Resolved None)
    ∧ pendingRef (st_refs st') = Some rq
    ∧ st_host st' = st_host st
    ∧ ocrCache (st_store st') = ocrCache (st_store st)
    ∧ ocrLog (st_store st')
      = if forceRun rq
        then take 50 (("[" +:+ now (st_host st) +:+ "] Force re-running OCR on page "
                       +:+ pretty (pageNumber rq) +:+ " (queued — worker not ready)")
                      :: ocrLog (st_store st))
        else ocrLog (st_store st).
Proof.
  intros Hc Hn. rewrite runOcr_S, Hc, Hn. eexists. split; [reflexivity|].
  by destruct (forceRun rq).
Qed.

Lemma delete_last {A} (l : list A) (x : A) : delete (length l) (l ++ [x])%list = l.
Proof. induction l as [|y l IH]; [reflexivity|]. cbn. f_equal. exact IH. Qed.

Lemma lookup_last {A} (l : list A) (x : A) : (l ++ [x])%list !! length l = Some x.
Proof. induction l as [|y l IH]; [reflexivity|]. exact IH. Qed.

Lemma worker_created_replays i lang w p st :
  initializing (st_host st) !! i = Some (Creating lang) →
  pendingRef (st_refs st) = Some p →
  ∃ st',
    resume_createWorker i (Normal w) st = Some st'
    ∧ workerReadyRef (st_refs st') = true
    ∧ workerRef (st_refs st') = Some w
    ∧ pendingRef (st_refs st') = None
    ∧ timeouts (st_host st') = (timeouts (st_host st) ++ [p])%list
    ∧ recognizing (st_host st') = recognizing (st_host st)
    ∧ recognized (st_host st') = recognized (st_host st)
    ∧ timeout (length (timeouts (st_host st))) st'
      = fst <$> runOcr depth (mounted st) p (set_timeouts (timeouts (st_host st)) st').
Proof.
  intros Hi Hp. eexists. split.
  { unfold resume_createWorker. rewrite Hi. cbn. rewrite Hp. reflexivity. }
  split_and!; try reflexivity.
  unfold timeout. cbn -[runOcr]. rewrite lookup_last, delete_last. reflexivity.
Qed.

Lemma worker_created_idle i lang w st :
  initializing (st_host st) !! i = Some (Creating lang) →
  pendingRef (st_refs st) = None →
  ∃ st',
    resume_createWorker i (Normal w) st = Some st'
    ∧ timeouts (st_host st') = timeouts (st_host st).
Proof.
  intros Hi Hp. unfold resume_createWorker. rewrite Hi. cbn. rewrite Hp.
  eexists. split; reflexivity.
Qed.

(** C4. A call that is not answered from the cache while the worker is not
    ready puts its arguments into the pending slot, whatever was there,
    logs a line only when it forces a run, returns null, and hands nothing
    to the engine or to the timer queue. When [createWorker] then resolves
    with a request pending, the slot is emptied and exactly one timer
    callback is queued, holding that request; the engine is still given
    nothing in that turn, and the callback, when it runs, is the call
    [runOcr(c, pn, z, fr)] of that request. With nothing pending no
    callback is queued. *)
Theorem pending_request_replayed_when_ready :
  (∀ fuel cl rq st,
     cached cl rq = false →
     notReady st = true →
     ∃ st',
       runOcr (S fuel) cl rq st = Some (st', Resolved None)
       ∧ pendingRef (st_refs st') = Some rq
       ∧ st_host st' = st_host st
       ∧ ocrCache (st_store st') = ocrCache (st_store st)
       ∧ ocrLog (st_store st')
         = if forceRun rq
           then take 50 (("[" +:+ now (st_host st) +:+ "] Force re-running OCR on page "
                          +:+ pretty (pageNumber rq) +:+ " (queued — worker not ready)")
                         :: ocrLog (st_store st))
           else ocrLog (st_store st))
  ∧ (∀ i lang w p st,
       initializing (st_host st) !! i = Some (Creating lang) →
       pendingRef (st_refs st) = Some p →
       ∃ st',
         resume_createWorker i (Normal w) st = Some st'
         ∧ workerReadyRef (st_refs st') = true
         ∧ workerRef (st_refs st') = Some w
         ∧ pendingRef (st_refs st') = None
         ∧ timeouts (st_host st') = (timeouts (st_host st) ++ [p])%list
         ∧ recognizing (st_host st') = recognizing (st_host st)
         ∧ recognized (st_host st') = recognized (st_host st)
         ∧ timeout (length (timeouts (st_host st))) st'
           = fst <$> runOcr depth (mounted st) p (set_timeouts (timeouts (st_host st)) st'))
  ∧ (∀ i lang w st,
       initializing (st_host st) !! i = Some (Creating lang) →
       pendingRef (st_refs st) = None →
       ∃ st',
         resume_createWorker i (Normal w) st = Some st'
         ∧ timeouts (st_host st') = timeouts (st_host st)).
Proof.
  split_and!.
  - apply runOcr_not_ready.
  - apply worker_created_replays.
  - apply worker_created_idle.
Qed.

Lemma pending_request_replayed_when_ready_witness :
  (let st := exec Sample.starting (init "eng") in
   let rq := Sample.ask 4 true in
   ∃ st',
     runOcr depth (render st) rq st = Some (st', Resolved None)
     ∧ pendingRef (st_refs st') = Some rq
     ∧ st_host st' = st_host st
     ∧ ocrCache (st_store st') = ocrCache (st_store st)
     ∧ ocrLog (st_store st')
       = if forceRun rq
         then take 50 (("[" +:+ now (st_host st) +:+ "] Force re-running OCR on page "
                        +:+ pretty (pageNumber rq) +:+ " (queued — worker not ready)")
                       :: ocrLog (st_store st))
         else ocrLog (st_store st))
  ∧ (let st := exec Sample.asked_early (init "eng") in
     ∃ st',
       resume_createWorker 0 (Normal Sample.eng) st = Some st'
       ∧ workerReadyRef (st_refs st') = true
       ∧ workerRef (st_refs st') = Some Sample.eng
       ∧ pendingRef (st_refs st') = None
       ∧ timeouts (st_host st') = (timeouts (st_host st) ++ [Sample.ask 4 true])%list
       ∧ recognizing (st_host st') = recognizing (st_host st)
       ∧ recognized (st_host st') = recognized (st_host st)
       ∧ timeout (length (timeouts (st_host st))) st'
         = fst <$> runOcr depth (mounted st) (Sample.ask 4 true)
                     (set_timeouts (timeouts (st_host st)) st'))
  ∧ (let st := exec Sample.starting (init "eng") in
     ∃ st',
       resume_createWorker 0 (Normal Sample.eng) st = Some st'
       ∧ timeouts (st_host st') = timeouts (st_host st)).
Proof.
  cbv zeta. destruct pending_request_replayed_when_ready as (queued & replayed & nothing).
  split_and!.
  - apply queued; vm_compute; reflexivity.
  - apply (replayed 0%nat "eng"); vm_compute; reflexivity.
  - apply (nothing 0%nat "eng"); vm_compute; reflexivity.
Defined.

(** ** Completion *)

Lemma resume_recognize_completes i r st a :
  recognizing (st_host st) !! i = Some a →
  ∃ finished,
    isRunningRef (st_refs finished) = false
    ∧ ocrLoading (st_store finished) = false
    ∧ ocrProgress (st_store finished) = 0%float
    ∧ pendingRef (st_refs finished) = pendingRef (st_refs st)
    ∧ recognizing (st_host finished) = delete i (recognizing (st_host st))
    ∧ match pendingRef (st_refs st) with
      | None => resume_recognize i r st = Some (finished, result_of r)
      | Some p =>
          ∃ st' rp,
            runOcr depth (rec_closure a) p (set_pendingRef None finished) = Some (st', rp)
            ∧ resume_recognize i r st = Some (st', result_of r)
      end.
Proof.
  intros Ha.
  set (st1 := try_end a r (set_recognizing (delete i (recognizing (st_host st))) st)).
  assert (pendingRef (st_refs st1) = pendingRef (st_refs st)) as Hp
    by (subst st1; by rewrite try_end_refs).
  exists (idle st1). split_and!; try reflexivity.
  - exact Hp.
  - subst st1. cbn -[try_end]. by rewrite try_end_host.
  - rewrite (resume_recognize_eq _ _ _ _ Ha), finally_eq. fold st1. rewrite Hp.
    destruct (pendingRef (st_refs st)) as [p|]; [|reflexivity].
    destruct (runOcr_no_pending (rec_closure a) p (set_pendingRef None (idle st1)) eq_refl)
      as (st' & rp & H).
    exists st', rp. unfold depth. by rewrite H.
Qed.

Lemma runOcr_throw_completes cl rq st err :
  cached cl rq = false →
  notReady st = false →
  isRunningRef (st_refs st) = false →
  imageSource (canvas rq) = Throw err →
  ∃ finished,
    isRunningRef (st_refs finished) = false
    ∧ ocrLoading (st_store finished) = false
    ∧ ocrProgress (st_store finished) = 0%float
    ∧ pendingRef (st_refs finished) = pendingRef (st_refs st)
    ∧ match pendingRef (st_refs st) with
      | None => runOcr depth cl rq st = Some (finished, Resolved None)
      | Some p =>
          ∃ st' rp,
            runOcr 1 cl p (set_pendingRef None finished) = Some (st', rp)
            ∧ runOcr depth cl rq st = Some (st', Resolved None)
      end.
Proof.
  intros Hc Hn Hr Hi.
  set (st1 := catch (pageNumber rq) err (started rq st)).
  assert (pendingRef (st_refs st1) = pendingRef (st_refs st)) as Hp
    by (subst st1; cbn; by rewrite started_refs).
  exists (idle st1). split_and!; try reflexivity; [exact Hp|].
  unfold depth. rewrite runOcr_S, Hc, Hn, Hr, Hi, finally_eq. fold st1. rewrite Hp.
  destruct (pendingRef (st_refs st)) as [p|]; [|reflexivity].
  destruct (runOcr_no_pending cl p (set_pendingRef None (idle st1)) eq_refl)
    as (st' & rp & H).
  exists st', rp. by rewrite !H.
Qed.

Lemma resume_recognize_drains i r st a p image :
  recognizing (st_host st) !! i = Some a →
  pendingRef (st_refs st) = Some p →
  notReady st = false →
  cached (rec_closure a) p = false →
  imageSource (canvas p) = Normal image →
  ∃ st',
    resume_recognize i r st = Some (st', result_of r)
    ∧ pendingRef (st_refs st') = None
    ∧ isRunningRef (st_refs st') = true
    ∧ recognized (st_host st') = image :: recognized (st_host st)
    ∧ recognizing (st_host st')
      = (delete i (recognizing (st_host st))
         ++ [{| rec_closure := rec_closure a; rec_cacheKey := cacheKey (rec_closure a) p;
                rec_pageNumber := pageNumber p |}])%list.
Proof.
  intros Ha Hp Hn Hc Hi.
  set (st1 := try_end a r (set_recognizing (delete i (recognizing (st_host st))) st)).
  assert (st_refs st1 = st_refs st) as Hrefs by (subst st1; by rewrite try_end_refs).
  assert (notReady (set_pendingRef None (idle st1)) = false) as Hn'.
  { unfold notReady in *. cbn. by rewrite Hrefs. }
  eexists. split.
  { rewrite (resume_recognize_eq _ _ _ _ Ha), finally_eq. fold st1.
    rewrite Hrefs, Hp. unfold depth. rewrite runOcr_S, Hc, Hn'.
    cbn [isRunningRef st_refs set_pendingRef with_refs idle setOcrProgress setOcrLoading
         set_isRunningRef with_store].
    rewrite Hi. reflexivity. }
  split_and!.
  - cbn. by rewrite started_refs.
  - cbn. by rewrite started_refs.
  - cbn. rewrite started_host. subst st1. cbn -[try_end]. by rewrite try_end_host.
  - cbn. rewrite started_host. subst st1. cbn -[try_end]. by rewrite try_end_host.
Qed.

(** C5. When a recognition that was started ends, by the engine resolving
    or rejecting it, or by the drawing of its image throwing, the [finally]
    block clears [isRunningRef], the loading flag and the recognition
    progress, whatever the outcome. If nothing is pending that is the state
    the call ends in. If a request is pending, the slot is emptied and
    [runOcr] is called once with that request from the cleared state, and
    the state that call leaves is the one the completion ends in; in
    particular, with the worker ready, no cached text for the request and
    an image that can be drawn, the pending request is the one now with the
    engine. *)
Theorem completion_resets_and_drains :
  (∀ i r st a,
     recognizing (st_host st) !! i = Some a →
     ∃ finished,
       isRunningRef (st_refs finished) = false
       ∧ ocrLoading (st_store finished) = false
       ∧ ocrProgress (st_store finished) = 0%float
       ∧ pendingRef (st_refs finished) = pendingRef (st_refs st)
       ∧ recognizing (st_host finished) = delete i (recognizing (st_host st))
       ∧ match pendingRef (st_refs st) with
         | None => resume_recognize i r st = Some (finished, result_of r)
         | Some p =>
             ∃ st' rp,
               runOcr depth (rec_closure a) p (set_pendingRef None finished) = Some (st', rp)
               ∧ resume_recognize i r st = Some (st', result_of r)
         end)
  ∧ (∀ cl rq st err,
       cached cl rq = false →
       notReady st = false →
       isRunningRef (st_refs st) = false →
       imageSource (canvas rq) = Throw err →
       ∃ finished,
         isRunningRef (st_refs finished) = false
         ∧ ocrLoading (st_store finished) = false
         ∧ ocrProgress (st_store finished) = 0%float
         ∧ pendingRef (st_refs finished) = pendingRef (st_refs st)
         ∧ match pendingRef (st_refs st) with
           | None => runOcr depth cl rq st = Some (finished, Resolved None)
           | Some p =>
               ∃ st' rp,
                 runOcr 1 cl p (set_pendingRef None finished) = Some (st', rp)
                 ∧ runOcr depth cl rq st = Some (st', Resolved None)
           end)
  ∧ (∀ i r st a p image,
       recognizing (st_host st) !! i = Some a →
       pendingRef (st_refs st) = Some p →
       notReady st = false →
       cached (rec_closure a) p = false →
       imageSource (canvas p) = Normal image →
       ∃ st',
         resume_recognize i r st = Some (st', result_of r)
         ∧ pendingRef (st_refs st') = None
         ∧ isRunningRef (st_refs st') = true
         ∧ recognized (st_host st') = image :: recognized (st_host st)
         ∧ recognizing (st_host st')
           = (delete i (recognizing (st_host st))
              ++ [{| rec_closure := rec_closure a; rec_cacheKey := cacheKey (rec_closure a) p;
                     rec_pageNumber := pageNumber p |}])%list).
Proof.
  split_and!.
  - apply resume_recognize_completes.
  - apply runOcr_throw_completes.
  - apply resume_recognize_drains.
Qed.

Lemma completion_resets_and_drains_witness :
  let st := exec Sample.page3_pending (init "eng") in
  let a := {| rec_closure := render (exec Sample.page2_done (init "eng"));
              rec_cacheKey := "1:1.00:eng"; rec_pageNumber := 1 |} in
  let r := Normal " page one " in
  (∃ finished,
     isRunningRef (st_refs finished) = false
     ∧ ocrLoading (st_store finished) = false
     ∧ ocrProgress (st_store finished) = 0%float
     ∧ pendingRef (st_refs finished) = pendingRef (st_refs st)
     ∧ recognizing (st_host finished) = delete 0%nat (recognizing (st_host st))
     ∧ match pendingRef (st_refs st) with
       | None => resume_recognize 0 r st = Some (finished, result_of r)
       | Some p =>
           ∃ st' rp,
             runOcr depth (rec_closure a) p (set_pendingRef None finished) = Some (st', rp)
             ∧ resume_recognize 0 r st = Some (st', result_of r)
       end)
  ∧ (let st := exec Sample.ready (init "eng") in
     ∃ finished,
       isRunningRef (st_refs finished) = false
       ∧ ocrLoading (st_store finished) = false
       ∧ ocrProgress (st_store finished) = 0%float
       ∧ pendingRef (st_refs finished) = pendingRef (st_refs st)
       ∧ match pendingRef (st_refs st) with
         | None => runOcr depth (render st) (Sample.ask_poster false) st
                   = Some (finished, Resolved None)
         | Some p =>
             ∃ st' rp,
               runOcr 1 (render st) p (set_pendingRef None finished) = Some (st', rp)
               ∧ runOcr depth (render st) (Sample.ask_poster false) st
                 = Some (st', Resolved None)
         end)
  ∧ (∃ st',
       resume_recognize 0 r st = Some (st', result_of r)
       ∧ pendingRef (st_refs st') = None
       ∧ isRunningRef (st_refs st') = true
       ∧ recognized (st_host st') = Sample.page 3 :: recognized (st_host st)
       ∧ recognizing (st_host st')
         = (delete 0%nat (recognizing (st_host st))
            ++ [{| rec_closure := rec_closure a;
                   rec_cacheKey := cacheKey (rec_closure a) (Sample.ask 3 false);
                   rec_pageNumber := pageNumber (Sample.ask 3 false) |}])%list).
Proof.
  cbv zeta. destruct completion_resets_and_drains as (settled & thrown & drained).
  split_and!.
  - apply settled. vm_compute; reflexivity.
  - apply (thrown _ (Sample.ask_poster false) _ draw_error); vm_compute; reflexivity.
  - apply drained; vm_compute; reflexivity.
Defined.

(** ** The cache *)

Lemma finally_store fuel cl st st' :
  finally (runOcr fuel cl) st = Some st' →
  ocrCache (st_store st') = ocrCache (st_store st)
  ∧ ocrLanguage (st_store st') = ocrLanguage (st_store st).
Proof.
  rewrite finally_eq. destruct (pendingRef (st_refs st)) as [p|].
  - destruct (runOcr fuel cl p _) as [[st2 r2]|] eqn:H; [|done].
    intros [= <-]. apply runOcr_store in H as [-> ->]. done.
  - by intros [= <-].
Qed.






(** ** Binary64 arithmetic

    What the kernel's specification of the primitive floats says of the
    numbers the code computes with: integers below 2^53 are exact, a
    quotient and a product are the exact ones rounded to the nearest
    number of 53 bits, and the order of the numbers is the order of what
    they stand for. *)

(** *** The size of a mantissa *)

Lemma digits2_pos_bounds p :
  2 ^ (Zpos (digits2_pos p) - 1) ≤ Zpos p < 2 ^ Zpos (digits2_pos p).
Proof.
  induction p as [p IH|p IH|]; cbn [digits2_pos].
  - rewrite Pos2Z.inj_succ. change (Z.pos p~1) with (2 * Z.pos p + 1).
    replace (Z.succ (Z.pos (digits2_pos p)) - 1) with (Z.succ (Z.pos (digits2_pos p) - 1)) by lia.
    rewrite !Z.pow_succ_r by lia.
    set (a := 2 ^ (Z.pos (digits2_pos p) - 1)) in *.
    set (b := 2 ^ Z.pos (digits2_pos p)) in *. clearbody a b. lia.
  - rewrite Pos2Z.inj_succ. change (Z.pos p~0) with (2 * Z.pos p).
    replace (Z.succ (Z.pos (digits2_pos p)) - 1) with (Z.succ (Z.pos (digits2_pos p) - 1)) by lia.
    rewrite !Z.pow_succ_r by lia.
    set (a := 2 ^ (Z.pos (digits2_pos p) - 1)) in *.
    set (b := 2 ^ Z.pos (digits2_pos p)) in *. clearbody a b. lia.
  - cbn. lia.
Qed.

(** The number of binary digits is the [d] with [2^(d-1) <= p < 2^d]. *)
Lemma digits2_pos_unique p d :
  2 ^ (d - 1) ≤ Zpos p < 2 ^ d → Zpos (digits2_pos p) = d.
Proof.
  intros [H1 H2]. pose proof (digits2_pos_bounds p) as [H3 H4].
  set (D := Zpos (digits2_pos p)) in *.
  assert (0 < d).
  { destruct (Z.lt_trichotomy 0 d) as [?|[<-|?]]; [done|cbn in H2; lia|].
    rewrite Z.pow_neg_r in H2 by lia. lia. }
  assert (D - 1 < d).
  { apply (Z.pow_lt_mono_r_iff 2); lia. }
  assert (d - 1 < D).
  { apply (Z.pow_lt_mono_r_iff 2); lia. }
  lia.
Qed.

(** *** Shifting and rounding *)

Lemma located_bounds mrs a b :
  located mrs a b → 0 < b → shr_m mrs * b ≤ a < (shr_m mrs + 1) * b.
Proof.
  destruct mrs as [m r s]. unfold located. cbn. intros [Hm H] Hb.
  destruct r, s; nia.
Qed.

Lemma located_div mrs a b : located mrs a b → 0 < b → shr_m mrs = a / b.
Proof.
  intros H Hb. apply located_bounds in H; [|done].
  apply Z.div_unique with (a - shr_m mrs * b); lia.
Qed.

(** Shifting one digit out doubles the unit and keeps the place. *)
Lemma shr_1_located mrs a b :
  located mrs a b → 0 < b → located (shr_1 mrs) a (2 * b).
Proof.
  destruct mrs as [m r s]. unfold located. cbn [shr_m shr_r shr_s]. intros [Hm H] Hb.
  destruct m as [|p|p]; [| |lia].
  - destruct r, s; cbn; lia.
  - destruct p as [p|p|].
    + change (Z.pos p~1) with (2 * Z.pos p + 1) in H.
      destruct r, s; cbn; (split; [lia|nia]).
    + change (Z.pos p~0) with (2 * Z.pos p) in H.
      destruct r, s; cbn; (split; [lia|nia]).
    + destruct r, s; cbn; lia.
Qed.

Lemma iter_shr_1_located p :
  ∀ mrs a b, located mrs a b → 0 < b → located (SpecFloat.iter_pos shr_1 p mrs) a (2 ^ Zpos p * b).
Proof.
  induction p as [p IH|p IH|]; intros mrs a b H Hb; cbn [SpecFloat.iter_pos].
  - change (Z.pos p~1) with (2 * Z.pos p + 1).
    replace (2 ^ (2 * Z.pos p + 1) * b) with (2 ^ Z.pos p * (2 ^ Z.pos p * (2 * b))).
    + apply IH; [apply IH; [by apply shr_1_located|lia]|].
      pose proof (Z.pow_pos_nonneg 2 (Z.pos p)). lia.
    + rewrite Z.pow_add_r, Z.pow_1_r by lia.
      replace (2 * Z.pos p) with (Z.pos p + Z.pos p) by lia.
      rewrite Z.pow_add_r by lia. ring.
  - change (Z.pos p~0) with (2 * Z.pos p).
    replace (2 ^ (2 * Z.pos p) * b) with (2 ^ Z.pos p * (2 ^ Z.pos p * b)).
    + apply IH; [by apply IH|].
      pose proof (Z.pow_pos_nonneg 2 (Z.pos p)). lia.
    + replace (2 * Z.pos p) with (Z.pos p + Z.pos p) by lia.
      rewrite Z.pow_add_r by lia. ring.
  - change (2 ^ 1 * b) with (2 * b). by apply shr_1_located.
Qed.

Lemma shr_located mrs e n a b :
  located mrs a b → 0 < b → 0 ≤ n →
  located (shr mrs e n).1 a (2 ^ n * b) ∧ (shr mrs e n).2 = e + n.
Proof.
  intros H Hb Hn. destruct n as [|p|p]; [| |lia]; cbn [shr fst snd].
  - rewrite Z.pow_0_r, Z.mul_1_l, Z.add_0_r. done.
  - split; [by apply iter_shr_1_located|done].
Qed.

(** Rounding to nearest, ties to even, is off by at most half a unit. *)
Lemma round_nearest_even_located mrs a b :
  located mrs a b → 0 < b →
  let m := round_nearest_even (shr_m mrs) (loc_of_shr_record mrs) in
  (m = shr_m mrs ∨ m = shr_m mrs + 1) ∧ Z.abs (2 * m * b - 2 * a) ≤ b.
Proof.
  destruct mrs as [m r s]. unfold located. cbn [shr_m shr_r shr_s]. intros [Hm H] Hb.
  destruct r, s; cbn [loc_of_shr_record round_nearest_even].
  - split; [by right|nia].
  - destruct (Z.even m); (split; [auto|nia]).
  - split; [by left|nia].
  - split; [by left|nia].
Qed.

Lemma Zdigits2_unique m d : 0 < m → 2 ^ (d - 1) ≤ m < 2 ^ d → Zdigits2 m = d.
Proof.
  intros Hm H. destruct m as [|p|p]; [lia| |lia]. cbn [Zdigits2].
  by apply digits2_pos_unique.
Qed.

Lemma shr_fexp_normal m e l d :
  0 < m → 2 ^ (d - 1) ≤ m < 2 ^ d → 53 ≤ d → -1074 ≤ e + d - 53 →
  shr_fexp prec emax m e l = shr (shr_record_of_loc m l) e (d - 53).
Proof.
  intros Hm Hd H53 He. unfold shr_fexp, fexp, emin, prec, emax.
  rewrite (Zdigits2_unique m d) by done. f_equal. lia.
Qed.

(** A mantissa of 53 digits that is exact is kept. *)
Lemma binary_round_aux_exact s m e :
  2 ^ 52 ≤ Zpos m < 2 ^ 53 → -1074 ≤ e ≤ 971 →
  binary_round_aux prec emax s (Zpos m) e loc_Exact = S754_finite s m e.
Proof.
  intros Hm He. unfold binary_round_aux.
  rewrite (shr_fexp_normal (Zpos m) e loc_Exact 53) by (try done; lia).
  cbn [Z.sub Z.add Z.opp Z.pos_sub shr shr_record_of_loc shr_m loc_of_shr_record
       round_nearest_even].
  change (53 - 53) with 0. cbn [shr shr_m loc_of_shr_record round_nearest_even].
  rewrite (shr_fexp_normal (Zpos m) e loc_Exact 53) by (try done; lia).
  change (53 - 53) with 0. cbn [shr shr_record_of_loc shr_m].
  unfold prec, emax. change (1024 - 53) with 971.
  destruct (Z.leb_spec e 971); [done|lia].
Qed.

(** The rounding step: a mantissa of [d] digits, 53 or more, that places
    [a / b] in units of [2^ex] is rounded to one of 53 digits, [k] binary
    places up, that is within half a unit of [a / b]. *)
Lemma binary_round_aux_correct s mx ex lx a b d :
  0 < b → 2 ^ (d - 1) ≤ mx < 2 ^ d → 53 ≤ d → -1074 ≤ ex + d - 53 → ex + d ≤ 1023 →
  located (shr_record_of_loc mx lx) a b →
  ∃ m k, binary_round_aux prec emax s mx ex lx = S754_finite s m (ex + k)
         ∧ 2 ^ 52 ≤ Zpos m < 2 ^ 53
         ∧ (k = d - 53 ∨ k = d - 52)
         ∧ Z.abs (2 * Zpos m * (2 ^ k * b) - 2 * a) ≤ 2 ^ k * b.
Proof.
  intros Hb Hd H53 Hlo Hhi Hloc.
  assert (Hmx : 0 < mx).
  { pose proof (Z.pow_pos_nonneg 2 (d - 1)). lia. }
  assert (Hmxa : mx = a / b).
  { rewrite <- (located_div _ _ _ Hloc Hb). by destruct lx as [|[]]. }
  unfold binary_round_aux.
  rewrite (shr_fexp_normal mx ex lx d) by done.
  destruct (shr_located _ ex (d - 53) a b Hloc Hb ltac:(lia)) as [Hl1 He1].
  destruct (shr (shr_record_of_loc mx lx) ex (d - 53)) as [mrs' e'].
  cbn [fst snd] in Hl1, He1. subst e'.
  set (n := d - 53) in *.
  assert (Hn : 0 < 2 ^ n) by (apply Z.pow_pos_nonneg; lia).
  set (B := 2 ^ n * b) in *.
  assert (HB : 0 < B) by (unfold B; nia).
  assert (Hm1 : shr_m mrs' = mx / 2 ^ n).
  { rewrite (located_div _ _ _ Hl1 HB), Hmxa. unfold B.
    rewrite (Z.mul_comm (2 ^ n) b), Z.div_div by lia. done. }
  assert (Hpd : 2 ^ d = 2 ^ 53 * 2 ^ n).
  { rewrite <- Z.pow_add_r by lia. f_equal. lia. }
  assert (Hpd1 : 2 ^ (d - 1) = 2 ^ 52 * 2 ^ n).
  { rewrite <- Z.pow_add_r by lia. f_equal. lia. }
  assert (Hm1b : 2 ^ 52 ≤ shr_m mrs' < 2 ^ 53).
  { rewrite Hm1. split.
    - apply Z.div_le_lower_bound; lia.
    - apply Z.div_lt_upper_bound; lia. }
  destruct (round_nearest_even_located mrs' a B Hl1 HB) as [Hr Herr].
  set (mr := round_nearest_even (shr_m mrs') (loc_of_shr_record mrs')) in *.
  destruct (Z.eq_dec mr (2 ^ 53)) as [Heq|Hne].
  - (* the mantissa has been rounded up to 2^53 *)
    rewrite (shr_fexp_normal mr (ex + n) loc_Exact 54) by (try rewrite Heq; try done; lia).
    rewrite Heq in *. change (54 - 53) with 1.
    exists (Z.to_pos (2 ^ 52)), (n + 1).
    split; [|split; [done|split; [right; lia|]]].
    + cbn -[Z.add]. unfold prec, emax. change (1024 - 53) with 971.
      destruct (Z.leb_spec (ex + n + 1) 971); [|lia]. f_equal. lia.
    + rewrite Z.pow_add_r, Z.pow_1_r by lia.
      change (Z.pos (Z.to_pos (2 ^ 52))) with (2 ^ 52).
      change (2 ^ 53) with (2 * 2 ^ 52) in Herr. fold B. nia.
  - assert (Hmr : 2 ^ 52 ≤ mr < 2 ^ 53) by lia.
    rewrite (shr_fexp_normal mr (ex + n) loc_Exact 53) by (try done; lia).
    change (53 - 53) with 0. cbn [shr shr_record_of_loc shr_m].
    destruct mr as [|pm|pm] eqn:Emr; [lia| |lia].
    exists pm, n. unfold prec, emax. change (1024 - 53) with 971.
    destruct (Z.leb_spec (ex + n) 971); [|lia].
    split; [done|]. split; [done|]. split; [left; done|]. exact Herr.
Qed.

(** *** Quotients and products *)

(** The quotient of a division with its remainder places the fraction. *)
Lemma new_location_located m2 q r a :
  0 < m2 → 0 ≤ q → 0 ≤ r < m2 → a = q * m2 + r →
  located (shr_record_of_loc q (new_location m2 r)) a m2.
Proof.
  intros Hm Hq Hr ->. unfold new_location, new_location_even, new_location_odd.
  destruct (Z.even m2) eqn:Hev.
  - destruct (Z.eqb_spec r 0) as [->|Hr0].
    + split; cbn; lia.
    + destruct (Z.compare_spec (2 * r) m2); split; cbn; try lia; nia.
  - destruct (Z.eqb_spec r 0) as [->|Hr0].
    + split; cbn; lia.
    + assert (Hodd : Z.odd m2 = true) by (rewrite <- Z.negb_even, Hev; done).
      apply Z.odd_spec in Hodd as [c Hc].
      destruct (Z.compare_spec (2 * r + 1) m2); split; cbn; try lia; nia.
Qed.

Lemma iter_xO p k : Zpos (Pos.iter xO p k) = Zpos p * 2 ^ Zpos k.
Proof.
  induction k as [|k IH] using Pos.peano_ind.
  - cbn. lia.
  - rewrite Pos.iter_succ, Pos2Z.inj_succ, Z.pow_succ_r by lia.
    change (Z.pos (Pos.iter xO p k)~0) with (2 * Z.pos (Pos.iter xO p k)). lia.
Qed.

(** The quotient of two positive numbers with full mantissas is the exact
    quotient rounded: within half a unit in the last place. *)
Lemma SFdiv_normal m1 e1 m2 e2 :
  2 ^ 52 ≤ Zpos m1 < 2 ^ 53 → 2 ^ 52 ≤ Zpos m2 < 2 ^ 53 →
  -1074 ≤ e1 - e2 - 53 → e1 - e2 ≤ 969 →
  ∃ m k, SFdiv prec emax (S754_finite false m1 e1) (S754_finite false m2 e2)
         = S754_finite false m (e1 - e2 - 53 + k)
         ∧ 2 ^ 52 ≤ Zpos m < 2 ^ 53
         ∧ 0 ≤ k ≤ 2
         ∧ Z.abs (2 * Zpos m * (2 ^ k * Zpos m2) - 2 * (Zpos m1 * 2 ^ 53)) ≤ 2 ^ k * Zpos m2.
Proof.
  intros H1 H2 Hlo Hhi. unfold SFdiv, SFdiv_core_binary.
  rewrite (Zdigits2_unique (Zpos m1) 53), (Zdigits2_unique (Zpos m2) 53) by (try done; lia).
  replace (Z.min (fexp prec emax (53 + e1 - (53 + e2))) (e1 - e2)) with (e1 - e2 - 53)
    by (unfold fexp, emin, prec, emax; lia).
  replace (e1 - e2 - (e1 - e2 - 53)) with 53 by lia.
  rewrite Z.shiftl_mul_pow2 by lia.
  pose proof (Z_div_mod (Zpos m1 * 2 ^ 53) (Zpos m2) ltac:(lia)) as Hdm.
  destruct (Z.div_eucl (Zpos m1 * 2 ^ 53) (Zpos m2)) as [q r]. destruct Hdm as [Hq Hr].
  assert (Hqb : 2 ^ 52 ≤ q < 2 ^ 54) by nia.
  assert (Hloc : located (shr_record_of_loc q (new_location (Zpos m2) r))
                   (Zpos m1 * 2 ^ 53) (Zpos m2)).
  { apply new_location_located; lia. }
  assert (Hd : ∃ d, 53 ≤ d ≤ 54 ∧ 2 ^ (d - 1) ≤ q < 2 ^ d).
  { destruct (Z.lt_ge_cases q (2 ^ 53)); [exists 53|exists 54]; (split; [lia|]).
    - change (2 ^ (53 - 1)) with (2 ^ 52). lia.
    - change (2 ^ (54 - 1)) with (2 ^ 53). lia. }
  destruct Hd as (d & Hd & Hqd).
  destruct (binary_round_aux_correct false q (e1 - e2 - 53)
              (new_location (Zpos m2) r) (Zpos m1 * 2 ^ 53) (Zpos m2) d)
    as (m & k & E & Hm & Hk & Herr); try done; try lia.
  exists m, k. split; [exact E|]. split; [done|]. split; [lia|]. exact Herr.
Qed.

(** Likewise their product. *)
Lemma SFmul_normal m1 e1 m2 e2 :
  2 ^ 52 ≤ Zpos m1 < 2 ^ 53 → 2 ^ 52 ≤ Zpos m2 < 2 ^ 53 →
  -1074 ≤ e1 + e2 + 52 → e1 + e2 ≤ 917 →
  ∃ m k, SFmul prec emax (S754_finite false m1 e1) (S754_finite false m2 e2)
         = S754_finite false m (e1 + e2 + k)
         ∧ 2 ^ 52 ≤ Zpos m < 2 ^ 53
         ∧ 52 ≤ k ≤ 54
         ∧ Z.abs (2 * Zpos m * 2 ^ k - 2 * (Zpos m1 * Zpos m2)) ≤ 2 ^ k.
Proof.
  intros H1 H2 Hlo Hhi. unfold SFmul. rewrite Pos2Z.inj_mul.
  set (q := Zpos m1 * Zpos m2).
  assert (Hqb : 2 ^ 104 ≤ q < 2 ^ 106).
  { change (2 ^ 104) with (2 ^ 52 * 2 ^ 52). change (2 ^ 106) with (2 ^ 53 * 2 ^ 53).
    unfold q. nia. }
  assert (Hd : ∃ d, 105 ≤ d ≤ 106 ∧ 2 ^ (d - 1) ≤ q < 2 ^ d).
  { destruct (Z.lt_ge_cases q (2 ^ 105)); [exists 105|exists 106]; (split; [lia|]).
    - change (2 ^ (105 - 1)) with (2 ^ 104). lia.
    - change (2 ^ (106 - 1)) with (2 ^ 105). lia. }
  destruct Hd as (d & Hd & Hqd).
  destruct (binary_round_aux_correct false q (e1 + e2) loc_Exact q 1 d)
    as (m & k & E & Hm & Hk & Herr); try done; try lia.
  { split; cbn; lia. }
  exists m, k. split; [exact E|]. split; [done|]. split; [lia|].
  rewrite Z.mul_1_r in Herr. exact Herr.
Qed.

(** *** Integers as numbers *)

Lemma binary_round_integer (s : bool) p d :
  2 ^ (d - 1) ≤ Zpos p < 2 ^ d → d ≤ 53 →
  binary_round prec emax s p 0 = S754_finite s (Z.to_pos (Zpos p * 2 ^ (53 - d))) (d - 53).
Proof.
  intros Hp Hd. unfold binary_round, shl_align.
  rewrite (digits2_pos_unique p d Hp).
  assert (H0 : 0 < d).
  { destruct (Z.lt_trichotomy 0 d) as [?|[<-|?]]; [done|cbn in Hp; lia|].
    rewrite (Z.pow_neg_r 2 d) in Hp by lia. lia. }
  replace (fexp prec emax (d + 0)) with (d - 53) by (unfold fexp, emin, prec, emax; lia).
  destruct (Z.eq_dec d 53) as [->|Hne].
  - cbn [Z.sub Z.add Z.opp Z.pos_sub]. change (53 - 53) with 0.
    change (2 ^ 0) with 1. rewrite Z.mul_1_r, Pos2Z.id.
    apply binary_round_aux_exact; [done|lia].
  - rewrite Z.sub_0_r. destruct (d - 53) as [|k|k] eqn:Ek; [lia|lia|].
    replace (53 - d) with (Zpos k) by lia.
    rewrite <- iter_xO, Pos2Z.id.
    apply binary_round_aux_exact; [|lia].
    rewrite iter_xO. replace (Zpos k) with (53 - d) by lia.
    assert (H52 : 2 ^ 52 = 2 ^ (d - 1) * 2 ^ (53 - d)).
    { rewrite <- Z.pow_add_r by lia. f_equal. lia. }
    assert (H53 : 2 ^ 53 = 2 ^ d * 2 ^ (53 - d)).
    { rewrite <- Z.pow_add_r by lia. f_equal. lia. }
    assert (0 < 2 ^ (53 - d)) by (apply Z.pow_pos_nonneg; lia).
    rewrite H52, H53. nia.
Qed.

(** A positive integer of [d] digits, 53 at most, is a number exactly: its
    mantissa is the integer shifted up to 53 digits. *)
Lemma Prim2SF_of_Z_pos n d :
  0 < n → 2 ^ (d - 1) ≤ n < 2 ^ d → d ≤ 53 →
  Prim2SF (JS.of_Z n) = S754_finite false (Z.to_pos (n * 2 ^ (53 - d))) (d - 53).
Proof.
  intros H0 Hn Hd.
  destruct n as [|p|p]; [lia| |lia]. unfold JS.of_Z.
  rewrite FloatAxioms.of_uint63_spec, Uint63.of_Z_spec.
  assert (Hlt : Zpos p < 2 ^ 53).
  { destruct Hn as [_ Hn]. eapply Z.lt_le_trans; [exact Hn|].
    apply Z.pow_le_mono_r; lia. }
  rewrite Z.mod_small by (change Uint63Axioms.wB with (2 ^ 63); lia).
  cbn [binary_normalize]. by apply binary_round_integer.
Qed.

Lemma integer_digits n : 0 < n → ∃ d, 0 < d ∧ 2 ^ (d - 1) ≤ n < 2 ^ d.
Proof.
  intros Hn. exists (Z.succ (Z.log2 n)). pose proof (Z.log2_nonneg n).
  split; [lia|]. replace (Z.succ (Z.log2 n) - 1) with (Z.log2 n) by lia.
  by apply Z.log2_spec.
Qed.

Lemma digits_le n d b : 0 < d → 2 ^ (d - 1) ≤ n < 2 ^ b → d ≤ b.
Proof.
  intros Hd [H1 H2].
  destruct (Z.le_gt_cases d b) as [|Hgt]; [done|].
  assert (2 ^ b ≤ 2 ^ (d - 1)) by (apply Z.pow_le_mono_r; lia). lia.
Qed.

(** Such an integer below 2^32 is stored into a canvas size as it is. *)
Lemma to_uint32_of_Z k : 0 ≤ k < 2 ^ 32 → to_uint32 (JS.of_Z k) = Z.to_N k.
Proof.
  intros Hk. destruct (Z.eq_dec k 0) as [->|Hne]; [reflexivity|].
  destruct (integer_digits k ltac:(lia)) as (d & Hd & Hkd).
  assert (d ≤ 32) by (apply (digits_le k); [done|lia]).
  unfold to_uint32, truncate. rewrite (Prim2SF_of_Z_pos k d) by (try done; lia).
  destruct (Z.leb_spec 0 (d - 53)); [lia|].
  assert (Hp : 0 < 2 ^ (53 - d)) by (apply Z.pow_pos_nonneg; lia).
  rewrite Z2Pos.id by nia.
  rewrite Z.shiftr_div_pow2 by lia. replace (- (d - 53)) with (53 - d) by lia.
  rewrite Z.div_mul by lia. rewrite Z.mod_small by lia. done.
Qed.

Lemma to_uint32_floor_zero p s :
  Prim2SF p = S754_zero s → to_uint32 (Math_floor p) = 0%N.
Proof.
  intros H. unfold Math_floor. rewrite H. unfold to_uint32, truncate. by rewrite H.
Qed.

(** [Math.floor] of a positive number below 2^32, stored into a canvas size. *)
Lemma to_uint32_floor p m e :
  Prim2SF p = S754_finite false m e → e < 0 → Zpos m / 2 ^ (- e) < 2 ^ 32 →
  to_uint32 (Math_floor p) = Z.to_N (Zpos m / 2 ^ (- e)).
Proof.
  intros H He Hk. unfold Math_floor. rewrite H.
  destruct (Z.leb_spec 0 e); [lia|]. cbn [signed].
  rewrite Z.shiftr_div_pow2 by lia. apply to_uint32_of_Z. split; [|done].
  apply Z.div_pos; [lia|]. apply Z.pow_pos_nonneg; lia.
Qed.

(** Two positive numbers with full mantissas compare as what they stand
    for, scaled by [2^c] to integers. *)
Lemma SFltb_normal m1 e1 m2 e2 c :
  2 ^ 52 ≤ Zpos m1 < 2 ^ 53 → 2 ^ 52 ≤ Zpos m2 < 2 ^ 53 → 0 ≤ e1 + c → 0 ≤ e2 + c →
  SFltb (S754_finite false m1 e1) (S754_finite false m2 e2)
  = (Zpos m1 * 2 ^ (e1 + c) <? Zpos m2 * 2 ^ (e2 + c)).
Proof.
  intros H1 H2 Hc1 Hc2. unfold SFltb, SFcompare.
  assert (Hp1 : 0 < 2 ^ (e1 + c)) by (apply Z.pow_pos_nonneg; lia).
  assert (Hp2 : 0 < 2 ^ (e2 + c)) by (apply Z.pow_pos_nonneg; lia).
  destruct (Z.compare_spec e1 e2) as [->|Hlt|Hgt].
  - change (Pos.compare_cont Eq m1 m2) with (Zpos m1 ?= Zpos m2).
    destruct (Z.compare_spec (Zpos m1) (Zpos m2)) as [Heq|Hl|Hg];
      destruct (Z.ltb_spec (Zpos m1 * 2 ^ (e2 + c)) (Zpos m2 * 2 ^ (e2 + c))); try done; nia.
  - assert (Hs : 2 ^ (e2 + c) = 2 ^ (e1 + c) * 2 ^ (e2 - e1)).
    { rewrite <- Z.pow_add_r by lia. f_equal. lia. }
    assert (2 ^ 1 ≤ 2 ^ (e2 - e1)) by (apply Z.pow_le_mono_r; lia).
    destruct (Z.ltb_spec (Zpos m1 * 2 ^ (e1 + c)) (Zpos m2 * 2 ^ (e2 + c))); [done|].
    rewrite Hs in *. change (2 ^ 1) with 2 in *. change (2 ^ 53) with (2 * 2 ^ 52) in *. nia.
  - assert (Hs : 2 ^ (e1 + c) = 2 ^ (e2 + c) * 2 ^ (e1 - e2)).
    { rewrite <- Z.pow_add_r by lia. f_equal. lia. }
    assert (2 ^ 1 ≤ 2 ^ (e1 - e2)) by (apply Z.pow_le_mono_r; lia).
    destruct (Z.ltb_spec (Zpos m1 * 2 ^ (e1 + c)) (Zpos m2 * 2 ^ (e2 + c))); [|done].
    rewrite Hs in *. change (2 ^ 1) with 2 in *. change (2 ^ 53) with (2 * 2 ^ 52) in *. nia.
Qed.

(** *** The downsampling ratio *)

Lemma normal_mantissa n d :
  0 < n → 2 ^ (d - 1) ≤ n < 2 ^ d → 0 < d ≤ 53 →
  2 ^ 52 ≤ Zpos (Z.to_pos (n * 2 ^ (53 - d))) < 2 ^ 53
  ∧ Zpos (Z.to_pos (n * 2 ^ (53 - d))) = n * 2 ^ (53 - d).
Proof.
  intros Hn Hd H53.
  assert (Hp : 0 < 2 ^ (53 - d)) by (apply Z.pow_pos_nonneg; lia).
  assert (H1 : 2 ^ 52 = 2 ^ (d - 1) * 2 ^ (53 - d)).
  { rewrite <- Z.pow_add_r by lia. f_equal. lia. }
  assert (H2 : 2 ^ 53 = 2 ^ d * 2 ^ (53 - d)).
  { rewrite <- Z.pow_add_r by lia. f_equal. lia. }
  rewrite Z2Pos.id by nia. rewrite H1, H2. split; [nia|done].
Qed.

(** The ratio [2400 / M] for a side [M] below 2^32: the number [mr * 2^er]
    is within half a unit in its last place of the exact quotient. Scaled
    by [2^94] all of it is in integers. *)
Lemma ratio_spec M :
  0 < M < 2 ^ 32 →
  ∃ mr er,
    Prim2SF (JS.of_Z 2400 / JS.of_Z M) = S754_finite false mr er
    ∧ 2 ^ 52 ≤ Zpos mr < 2 ^ 53
    ∧ -94 ≤ er ≤ -40
    ∧ 2 ^ (er + 94) * M < 2 ^ 55
    ∧ Z.abs (2 * Zpos mr * 2 ^ (er + 94) * M - 2400 * 2 ^ 95) ≤ 2 ^ (er + 94) * M.
Proof.
  intros HM.
  destruct (integer_digits M ltac:(lia)) as (d & Hd & HMd).
  assert (Hd32 : d ≤ 32) by (apply (digits_le M); [done|lia]).
  rewrite FloatAxioms.div_spec.
  rewrite (Prim2SF_of_Z_pos 2400 12), (Prim2SF_of_Z_pos M d) by (try done; lia).
  destruct (normal_mantissa 2400 12) as [N1 I1]; [lia|lia|lia|].
  destruct (normal_mantissa M d) as [N2 I2]; [lia|done|lia|].
  destruct (SFdiv_normal (Z.to_pos (2400 * 2 ^ (53 - 12))) (12 - 53)
              (Z.to_pos (M * 2 ^ (53 - d))) (d - 53))
    as (m & k & E & Hm & Hk & Herr); [done|done|lia|lia|].
  exists m, (12 - 53 - (d - 53) - 53 + k). split; [exact E|]. split; [done|].
  split; [lia|].
  replace (12 - 53 - (d - 53) - 53 + k + 94) with (k + (53 - d)) by lia.
  rewrite Z.pow_add_r by lia.
  rewrite I1, I2 in Herr.
  assert (Hp : 0 < 2 ^ (53 - d)) by (apply Z.pow_pos_nonneg; lia).
  assert (Hk4 : 0 < 2 ^ k ≤ 4).
  { split; [apply Z.pow_pos_nonneg; lia|]. change 4 with (2 ^ 2).
    apply Z.pow_le_mono_r; lia. }
  rewrite I2 in N2.
  split.
  - change (2 ^ 55) with (4 * 2 ^ 53). nia.
  - replace (2 * Z.pos m * (2 ^ k * 2 ^ (53 - d)) * M)
      with (2 * Z.pos m * (2 ^ k * (M * 2 ^ (53 - d)))) by ring.
    replace (2 ^ k * 2 ^ (53 - d) * M) with (2 ^ k * (M * 2 ^ (53 - d))) by ring.
    replace (2400 * 2 ^ 95) with (2 * (2400 * 2 ^ (53 - 12) * 2 ^ 53)) by reflexivity.
    exact Herr.
Qed.

(** With the ratio and the product each within half a unit in the last
    place, the product [mp / T] of a side [w] and the ratio is less than
    [1 / M] away from [2400 * w / M]. *)
Lemma scaled_product_bound (mp mr M w T J a B : Z) :
  0 < M < 2 ^ 32 → 0 < w → w ≤ M → 0 < J → 0 < a → 0 < B → 2 ^ 38 ≤ T →
  T * J * a = B * 2 ^ 94 →
  a * M < 2 ^ 55 →
  Z.abs (2 * mr * a * M - 2400 * 2 ^ 95) ≤ a * M →
  Z.abs (2 * mp * J - 2 * (w * B) * mr) ≤ J →
  Z.abs (mp * M - 2400 * w * T) < T.
Proof.
  intros HM Hw0 Hw HJ Ha HB HT HG HaM HD HMu.
  set (G := B * 2 ^ 94) in *.
  set (u := 2 * mp * J - 2 * (w * B) * mr) in *.
  set (v := 2 * mr * a * M - 2400 * 2 ^ 95) in *.
  set (X := mp * M - 2400 * w * T).
  assert (HT0 : 0 < T) by lia.
  assert (HG0 : 0 < G) by (unfold G; lia).
  assert (E : 2 * G * X = a * M * T * u + w * B * T * v).
  { transitivity (2 * mp * M * (T * J * a) - 2400 * 2 * w * T * G).
    - rewrite HG. unfold X. ring.
    - unfold u, v, G. change (2 ^ 95) with (2 * 2 ^ 94). ring. }
  apply Z.abs_le in HD, HMu.
  assert (HaM0 : 0 < a * M) by (apply Z.mul_pos_pos; lia).
  set (c1 := a * M * T) in *. set (c2 := w * B * T) in *.
  assert (Hc1 : 0 ≤ c1) by (unfold c1; apply Z.mul_nonneg_nonneg; lia).
  assert (Hc2 : 0 ≤ c2).
  { unfold c2. apply Z.mul_nonneg_nonneg; [apply Z.mul_nonneg_nonneg|]; lia. }
  assert (B1 : - (c1 * J) ≤ c1 * u ≤ c1 * J).
  { rewrite <- Z.mul_opp_r. split; apply Z.mul_le_mono_nonneg_l; lia. }
  assert (B2 : - (c2 * (a * M)) ≤ c2 * v ≤ c2 * (a * M)).
  { rewrite <- Z.mul_opp_r. split; apply Z.mul_le_mono_nonneg_l; lia. }
  assert (E1 : c1 * J = G * M).
  { unfold c1. rewrite <- HG. ring. }
  assert (E2 : 128 * (c2 * (a * M)) ≤ G * T).
  { unfold c2, G.
    assert (w * (a * M) ≤ 2 ^ 32 * 2 ^ 55) by (apply Z.mul_le_mono_nonneg; lia).
    change (2 ^ 94) with (128 * (2 ^ 32 * 2 ^ 55)).
    transitivity (128 * (B * T * (w * (a * M)))); [apply Z.eq_le_incl; ring|].
    transitivity (128 * (B * T * (2 ^ 32 * 2 ^ 55))); [|apply Z.eq_le_incl; ring].
    apply Z.mul_le_mono_nonneg_l; [lia|]. apply Z.mul_le_mono_nonneg_l; [|done].
    apply Z.mul_nonneg_nonneg; lia. }
  assert (E3 : 64 * (G * M) ≤ G * T).
  { replace (64 * (G * M)) with (G * (64 * M)) by ring.
    apply Z.mul_le_mono_nonneg_l; [lia|]. change (2 ^ 38) with (64 * 2 ^ 32) in HT. lia. }
  assert (HX : -(3 * (G * T)) ≤ 256 * (G * X) ≤ 3 * (G * T)) by lia.
  assert (HGT : 0 < G * T) by (apply Z.mul_pos_pos; lia).
  apply Z.abs_lt. split.
  - destruct (Z.lt_ge_cases (- T) X) as [|Hge]; [done|exfalso].
    assert (G * X ≤ G * - T) by (apply Z.mul_le_mono_nonneg_l; lia).
    rewrite Z.mul_opp_r in *. lia.
  - destruct (Z.lt_ge_cases X T) as [|Hge]; [done|exfalso].
    assert (G * T ≤ G * X) by (apply Z.mul_le_mono_nonneg_l; lia). lia.
Qed.

(** So its integer part is the integer part of [2400 * w / M], or one less
    where that is an integer. *)
Lemma floor_within (mp M w T : Z) :
  0 < M → 0 ≤ w → 0 < T → 0 ≤ mp →
  Z.abs (mp * M - 2400 * w * T) < T →
  let k := mp / T in
  let q := 2400 * w / M in
  q - 1 ≤ k ≤ q ∧ ((2400 * w) mod M ≠ 0 → k = q).
Proof.
  intros HM Hw HT Hmp H k q.
  apply Z.abs_lt in H.
  pose proof (Z.div_mod mp T ltac:(lia)) as E1.
  pose proof (Z.mod_pos_bound mp T HT) as B1.
  pose proof (Z.div_mod (2400 * w) M ltac:(lia)) as E2.
  pose proof (Z.mod_pos_bound (2400 * w) M HM) as B2.
  fold k in E1. fold q in E2.
  set (τ := mp mod T) in *. set (ρ := (2400 * w) mod M) in *.
  assert (E : mp * M - 2400 * w * T = T * M * (k - q) + τ * M - ρ * T).
  { replace (2400 * w * T) with ((2400 * w) * T) by ring. rewrite E1, E2. ring. }
  rewrite E in H.
  assert (HTM : 0 < T * M) by (apply Z.mul_pos_pos; lia).
  assert (Hτ : 0 ≤ τ * M ≤ T * M - M).
  { split; [apply Z.mul_nonneg_nonneg; lia|].
    replace (T * M - M) with ((T - 1) * M) by ring.
    apply Z.mul_le_mono_nonneg_r; lia. }
  assert (Hρ : 0 ≤ ρ * T ≤ M * T - T).
  { split; [apply Z.mul_nonneg_nonneg; lia|].
    replace (M * T - T) with ((M - 1) * T) by ring.
    apply Z.mul_le_mono_nonneg_r; lia. }
  replace (M * T) with (T * M) in Hρ by ring.
  assert (Hk : q - 1 ≤ k ≤ q).
  { split.
    - destruct (Z.le_gt_cases (q - 1) k); [done|exfalso].
      assert (T * M * (k - q) ≤ T * M * (- 2)) by (apply Z.mul_le_mono_nonneg_l; lia).
      lia.
    - destruct (Z.le_gt_cases k q); [done|exfalso].
      assert (T * M * 1 ≤ T * M * (k - q)) by (apply Z.mul_le_mono_nonneg_l; lia).
      lia. }
  split; [done|]. intros Hne.
  destruct (Z.eq_dec k q); [done|exfalso].
  assert (Hkq : k - q = -1) by lia. rewrite Hkq in H.
  assert (1 * T ≤ ρ * T) by (apply Z.mul_le_mono_nonneg_r; lia).
  lia.
Qed.

(** The ratios of two different sides below 2^32 are different numbers,
    in the order of the exact quotients. *)
Lemma quotients_apart (mx ax my ay W H : Z) :
  0 < W → W < H → H < 2 ^ 32 →
  2 ^ 52 ≤ mx → 2 ^ 52 ≤ my → 0 < ax → 0 < ay →
  Z.abs (2 * mx * ax * W - 2400 * 2 ^ 95) ≤ ax * W →
  Z.abs (2 * my * ay * H - 2400 * 2 ^ 95) ≤ ay * H →
  my * ay < mx * ax.
Proof.
  intros HW HWH HH Hmx Hmy Hax Hay Dx Dy.
  apply Z.abs_le in Dx, Dy.
  assert (HaW : 0 < ax * W) by (apply Z.mul_pos_pos; lia).
  assert (HaH : 0 < ay * H) by (apply Z.mul_pos_pos; lia).
  assert (Hx : 2 ^ 52 * (ax * W) ≤ mx * (ax * W)) by (apply Z.mul_le_mono_nonneg_r; lia).
  assert (Hy : 2 ^ 52 * (ay * H) ≤ my * (ay * H)) by (apply Z.mul_le_mono_nonneg_r; lia).
  set (X := mx * ax) in *. set (Y := my * ay) in *.
  replace (mx * (ax * W)) with (X * W) in Hx by (unfold X; ring).
  replace (my * (ay * H)) with (Y * H) in Hy by (unfold Y; ring).
  replace (2 * mx * ax * W) with (2 * (X * W)) in Dx by (unfold X; ring).
  replace (2 * my * ay * H) with (2 * (Y * H)) in Dy by (unfold Y; ring).
  assert (HY : 0 < Y) by (apply Z.mul_pos_pos; lia).
  assert (Hc : (2 ^ 53 - 1) * (Y * H) ≤ (2 ^ 53 + 1) * (X * W)).
  { change (2 ^ 53) with (2 * 2 ^ 52). lia. }
  destruct (Z.lt_ge_cases Y X) as [|Hge]; [done|exfalso].
  assert (X * W ≤ Y * W) by (apply Z.mul_le_mono_nonneg_r; lia).
  assert (Hd' : Y * ((2 ^ 53 - 1) * H) ≤ Y * ((2 ^ 53 + 1) * W)) by lia.
  apply Z.mul_le_mono_pos_l in Hd'; [|done]. lia.
Qed.

(** [Math.floor(w * ratio)] for a side [w] and the ratio of the longer
    side [M]. *)
Lemma scaled_side w M r mr er :
  2400 < M < 2 ^ 32 → 0 ≤ w ≤ M →
  Prim2SF r = S754_finite false mr er →
  2 ^ 52 ≤ Zpos mr < 2 ^ 53 →
  -94 ≤ er ≤ -40 →
  2 ^ (er + 94) * M < 2 ^ 55 →
  Z.abs (2 * Zpos mr * 2 ^ (er + 94) * M - 2400 * 2 ^ 95) ≤ 2 ^ (er + 94) * M →
  ∃ k, to_uint32 (Math_floor (JS.of_Z w * r)) = Z.to_N k
       ∧ 0 ≤ k
       ∧ 2400 * w / M - 1 ≤ k ≤ 2400 * w / M
       ∧ ((2400 * w) mod M ≠ 0 → k = 2400 * w / M).
Proof.
  intros HM Hw Hr Hmr Her HaM HD.
  destruct (Z.eq_dec w 0) as [->|Hw0].
  - exists 0. split.
    + apply (to_uint32_floor_zero _ false).
      rewrite FloatAxioms.mul_spec, Hr. reflexivity.
    + rewrite Z.mul_0_r, Z.div_0_l, Z.mod_0_l by lia. lia.
  - destruct (integer_digits w ltac:(lia)) as (d & Hd & Hwd).
    assert (Hd32 : d ≤ 32) by (apply (digits_le w); [done|lia]).
    destruct (normal_mantissa w d) as [N1 I1]; [lia|done|lia|].
    destruct (SFmul_normal (Z.to_pos (w * 2 ^ (53 - d))) (d - 53) mr er)
      as (mp & j & E & Hmp & Hj & HMu); [done|done|lia|lia|].
    assert (Hp : Prim2SF (JS.of_Z w * r) = S754_finite false mp (d - 53 + er + j)).
    { rewrite FloatAxioms.mul_spec, Hr, (Prim2SF_of_Z_pos w d) by (try done; lia). exact E. }
    set (ep := d - 53 + er + j) in *.
    assert (Hep : ep ≤ -38).
    { assert (Hlt : 2 ^ (er + 94 + (d - 1)) < 2 ^ 55).
      { rewrite Z.pow_add_r by lia.
        assert (0 < 2 ^ (er + 94)) by (apply Z.pow_pos_nonneg; lia).
        eapply Z.le_lt_trans; [|exact HaM]. apply Z.mul_le_mono_nonneg_l; lia. }
      apply Z.pow_lt_mono_r_iff in Hlt; lia. }
    assert (HT : 2 ^ 38 ≤ 2 ^ (- ep)) by (apply Z.pow_le_mono_r; lia).
    assert (HJ : 0 < 2 ^ j) by (apply Z.pow_pos_nonneg; lia).
    assert (Ha : 0 < 2 ^ (er + 94)) by (apply Z.pow_pos_nonneg; lia).
    assert (HB : 0 < 2 ^ (53 - d)) by (apply Z.pow_pos_nonneg; lia).
    assert (HG : 2 ^ (- ep) * 2 ^ j * 2 ^ (er + 94) = 2 ^ (53 - d) * 2 ^ 94).
    { rewrite <- !Z.pow_add_r by lia. f_equal. unfold ep. lia. }
    rewrite I1 in HMu.
    replace (2 * (w * 2 ^ (53 - d) * Z.pos mr))
      with (2 * (w * 2 ^ (53 - d)) * Z.pos mr) in HMu by ring.
    assert (Hw1 : 0 < w) by lia. destruct Hw as [_ Hw].
    pose proof (scaled_product_bound (Zpos mp) (Zpos mr) M w (2 ^ (- ep)) (2 ^ j)
                  (2 ^ (er + 94)) (2 ^ (53 - d))
                  ltac:(lia) Hw1 Hw HJ Ha HB HT HG HaM HD HMu) as Hbound.
    assert (HT0 : 0 < 2 ^ (- ep)) by (apply Z.pow_pos_nonneg; lia).
    destruct (floor_within (Zpos mp) M w (2 ^ (- ep))
                ltac:(lia) ltac:(lia) HT0 ltac:(lia) Hbound) as [Hk Hne].
    exists (Zpos mp / 2 ^ (- ep)). split; [|split; [apply Z.div_pos; lia|done]].
    apply (to_uint32_floor _ _ _ Hp); [lia|].
    assert (2400 * w / M ≤ 2400).
    { apply Z.div_le_upper_bound; lia. }
    lia.
Qed.

Lemma is_nan_finite x s m e : Prim2SF x = S754_finite s m e → PrimFloat.is_nan x = false.
Proof.
  intros H. unfold PrimFloat.is_nan. rewrite FloatAxioms.eqb_spec, H.
  unfold SFeqb, SFcompare. rewrite Z.compare_refl.
  change (Pos.compare_cont Eq m m) with (Pos.compare m m). rewrite Pos.compare_refl.
  by destruct s.
Qed.

Lemma is_nan_infinity x s : Prim2SF x = S754_infinity s → PrimFloat.is_nan x = false.
Proof.
  intros H. unfold PrimFloat.is_nan. rewrite FloatAxioms.eqb_spec, H. by destruct s.
Qed.

Lemma Math_min_self x s m e : Prim2SF x = S754_finite s m e → Math_min x x = x.
Proof.
  intros H. unfold Math_min. rewrite (is_nan_finite x s m e H). cbn [orb].
  by repeat case_match.
Qed.

(** The smaller of the two quotients is the one by the longer side. *)
Lemma ratio_min W H :
  0 ≤ W < 2 ^ 32 → 0 ≤ H < 2 ^ 32 → 0 < Z.max W H →
  Math_min (JS.of_Z 2400 / JS.of_Z W) (JS.of_Z 2400 / JS.of_Z H)
  = (JS.of_Z 2400 / JS.of_Z (Z.max W H))%float.
Proof.
  intros HW HH HM.
  assert (Hzero : ∀ n, 0 < n < 2 ^ 32 →
            Prim2SF (JS.of_Z 2400 / JS.of_Z 0) = S754_infinity false
            ∧ ∃ m e, Prim2SF (JS.of_Z 2400 / JS.of_Z n) = S754_finite false m e).
  { intros n Hn. split; [vm_compute; reflexivity|].
    destruct (ratio_spec n Hn) as (m & e & E & _). eauto. }
  destruct (Z.eq_dec W 0) as [->|HW0].
  - (* no width: the quotient by it is infinite *)
    rewrite Z.max_r by lia.
    destruct (Hzero H ltac:(lia)) as [Ei (m & e & Ef)].
    unfold Math_min. rewrite (is_nan_infinity _ _ Ei), (is_nan_finite _ _ _ _ Ef). cbn [orb].
    rewrite !FloatAxioms.ltb_spec, Ei, Ef. reflexivity.
  - destruct (Z.eq_dec H 0) as [->|HH0].
    + rewrite Z.max_l by lia.
      destruct (Hzero W ltac:(lia)) as [Ei (m & e & Ef)].
      unfold Math_min. rewrite (is_nan_infinity _ _ Ei), (is_nan_finite _ _ _ _ Ef). cbn [orb].
      rewrite !FloatAxioms.ltb_spec, Ei, Ef. reflexivity.
    + destruct (ratio_spec W ltac:(lia)) as (mx & ex & Ex & Hmx & Hex & _ & Dx).
      destruct (ratio_spec H ltac:(lia)) as (my & ey & Ey & Hmy & Hey & _ & Dy).
      assert (Hax : 0 < 2 ^ (ex + 94)) by (apply Z.pow_pos_nonneg; lia).
      assert (Hay : 0 < 2 ^ (ey + 94)) by (apply Z.pow_pos_nonneg; lia).
      destruct (Z.lt_trichotomy W H) as [Hlt|[->|Hgt]].
      * rewrite Z.max_r by lia.
        pose proof (quotients_apart (Zpos mx) (2 ^ (ex + 94)) (Zpos my) (2 ^ (ey + 94)) W H
                      ltac:(lia) Hlt ltac:(lia) ltac:(lia) ltac:(lia) Hax Hay Dx Dy) as Hyx.
        unfold Math_min. rewrite (is_nan_finite _ _ _ _ Ex), (is_nan_finite _ _ _ _ Ey).
        cbn [orb]. rewrite !FloatAxioms.ltb_spec, Ex, Ey.
        rewrite (SFltb_normal mx ex my ey 94), (SFltb_normal my ey mx ex 94) by (try done; lia).
        destruct (Z.ltb_spec (Zpos mx * 2 ^ (ex + 94)) (Zpos my * 2 ^ (ey + 94))); [lia|].
        destruct (Z.ltb_spec (Zpos my * 2 ^ (ey + 94)) (Zpos mx * 2 ^ (ex + 94))); [done|lia].
      * rewrite Z.max_id. apply (Math_min_self _ _ _ _ Ex).
      * rewrite Z.max_l by lia.
        pose proof (quotients_apart (Zpos my) (2 ^ (ey + 94)) (Zpos mx) (2 ^ (ex + 94)) H W
                      ltac:(lia) Hgt ltac:(lia) ltac:(lia) ltac:(lia) Hay Hax Dy Dx) as Hxy.
        unfold Math_min. rewrite (is_nan_finite _ _ _ _ Ex), (is_nan_finite _ _ _ _ Ey).
        cbn [orb]. rewrite !FloatAxioms.ltb_spec, Ex, Ey.
        rewrite (SFltb_normal mx ex my ey 94) by (try done; lia).
        destruct (Z.ltb_spec (Zpos mx * 2 ^ (ex + 94)) (Zpos my * 2 ^ (ey + 94))); [done|lia].
Qed.

(** A side of the offscreen canvas, as [imageSource] computes it, against
    the exact quotient. *)
Lemma offscreen_side (w h side : N) :
  (w < 2 ^ 32)%N → (h < 2 ^ 32)%N → (2400 < N.max w h)%N → (side ≤ N.max w h)%N →
  let out := to_uint32 (Math_floor (of_N side
               * Math_min (of_N 2400 / of_N w) (of_N 2400 / of_N h))%float) in
  let exact := (side * 2400 / N.max w h)%N in
  out = exact ∨ ((out + 1)%N = exact ∧ ((side * 2400) mod N.max w h)%N = 0%N).
Proof.
  intros Hw Hh HM Hs out exact. unfold out, of_N.
  change (Z.of_N 2400) with 2400.
  rewrite (ratio_min (Z.of_N w) (Z.of_N h)) by lia.
  rewrite <- N2Z.inj_max. set (M := N.max w h) in *.
  destruct (ratio_spec (Z.of_N M) ltac:(lia)) as (mr & er & Er & Hmr & Her & HaM & HD).
  destruct (scaled_side (Z.of_N side) (Z.of_N M) _ mr er ltac:(lia) ltac:(lia)
              Er Hmr Her HaM HD) as (k & -> & Hk0 & Hk & Hne).
  assert (Eq : 2400 * Z.of_N side / Z.of_N M = Z.of_N exact).
  { unfold exact. rewrite N2Z.inj_div, N2Z.inj_mul. f_equal. cbn. lia. }
  assert (Em : (2400 * Z.of_N side) mod Z.of_N M = Z.of_N ((side * 2400) mod M)).
  { rewrite N2Z.inj_mod, N2Z.inj_mul. f_equal. cbn. lia. }
  rewrite Eq in Hk, Hne. rewrite Em in Hne.
  destruct (N.eq_dec ((side * 2400) mod M)%N 0%N) as [E0|E0].
  - destruct (Z.eq_dec k (Z.of_N exact)) as [->|]; [left; apply N2Z.id|].
    right. split; [lia|done].
  - left. rewrite Hne by lia. apply N2Z.id.
Qed.

(** *** The order of integers as numbers *)

(** The number of a safe integer: zero, or a mantissa of 53 bits that is
    the magnitude shifted up, behind the sign. *)
Lemma Prim2SF_of_Z n :
  safe_integer n →
  match Z.compare n 0 with
  | Eq => Prim2SF (JS.of_Z n) = S754_zero false
  | c => ∃ m e, Prim2SF (JS.of_Z n) = S754_finite (bool_decide (c = Lt)) m e
                ∧ 2 ^ 52 ≤ Zpos m < 2 ^ 53 ∧ -52 ≤ e ≤ 0
                ∧ Zpos m * 2 ^ (e + 53) = Z.abs n * 2 ^ 53
  end.
Proof.
  intros Hn. unfold safe_integer in Hn.
  assert (Hpos : ∀ p, Zpos p < 2 ^ 53 →
            ∃ m e, Prim2SF (JS.of_Z (Zpos p)) = S754_finite false m e
                   ∧ 2 ^ 52 ≤ Zpos m < 2 ^ 53 ∧ -52 ≤ e ≤ 0
                   ∧ Zpos m * 2 ^ (e + 53) = Zpos p * 2 ^ 53).
  { intros p Hp.
    destruct (integer_digits (Zpos p) ltac:(lia)) as (d & Hd & Hpd).
    assert (d ≤ 53) by (apply (digits_le (Zpos p)); [done|lia]).
    destruct (normal_mantissa (Zpos p) d) as [N1 I1]; [lia|done|lia|].
    eexists _, _. split; [by apply (Prim2SF_of_Z_pos (Zpos p) d); [lia| |]|].
    split; [done|]. split; [lia|]. rewrite I1.
    replace (d - 53 + 53) with d by lia.
    rewrite <- Z.mul_assoc, <- Z.pow_add_r by lia. do 2 f_equal. lia. }
  destruct n as [|p|p]; cbn [Z.compare].
  - reflexivity.
  - destruct (Hpos p ltac:(lia)) as (m & e & E & H). by exists m, e.
  - destruct (Hpos p ltac:(lia)) as (m & e & E & H). exists m, e. split; [|done].
    unfold JS.of_Z. rewrite FloatAxioms.opp_spec.
    unfold JS.of_Z in E. rewrite E. reflexivity.
Qed.

Lemma SFltb_negative m1 e1 m2 e2 :
  SFltb (S754_finite true m1 e1) (S754_finite true m2 e2)
  = SFltb (S754_finite false m2 e2) (S754_finite false m1 e1).
Proof.
  unfold SFltb, SFcompare. rewrite (Z.compare_antisym e1 e2).
  destruct (e1 ?= e2); cbn [CompOpp]; try reflexivity.
  change (Pos.compare_cont Eq m1 m2) with (Pos.compare m1 m2).
  change (Pos.compare_cont Eq m2 m1) with (Pos.compare m2 m1).
  rewrite (Pos.compare_antisym m1 m2). by destruct (m1 ?= m2)%positive.
Qed.

(** Safe integers are ordered as numbers the way they are as integers. *)
Lemma of_Z_ltb a b :
  safe_integer a → safe_integer b → PrimFloat.ltb (JS.of_Z a) (JS.of_Z b) = (a <? b).
Proof.
  intros Ha Hb. rewrite FloatAxioms.ltb_spec.
  pose proof (Prim2SF_of_Z a Ha) as Pa. pose proof (Prim2SF_of_Z b Hb) as Pb.
  assert (H53 : 0 < 2 ^ 53) by done.
  destruct (Z.compare_spec a 0) as [->|Ha0|Ha0];
    [|destruct Pa as (ma & ea & -> & Hma & Hea & Va)..];
    (destruct (Z.compare_spec b 0) as [->|Hb0|Hb0];
     [|destruct Pb as (mb & eb & -> & Hmb & Heb & Vb)..]);
    rewrite ?Pa, ?Pb;
    change (bool_decide (Lt = Lt)) with true; change (bool_decide (Gt = Lt)) with false.
  - reflexivity.
  - cbn. symmetry. apply Z.ltb_ge. lia.
  - cbn. symmetry. apply Z.ltb_lt. lia.
  - cbn. symmetry. apply Z.ltb_lt. lia.
  - rewrite SFltb_negative, (SFltb_normal mb eb ma ea 53) by (try done; lia).
    rewrite Va, Vb.
    destruct (Z.ltb_spec (Z.abs b * 2 ^ 53) (Z.abs a * 2 ^ 53));
      destruct (Z.ltb_spec a b); try done; lia.
  - cbn. symmetry. apply Z.ltb_lt. lia.
  - cbn. symmetry. apply Z.ltb_ge. lia.
  - cbn. symmetry. apply Z.ltb_ge. lia.
  - rewrite (SFltb_normal ma ea mb eb 53) by (try done; lia).
    rewrite Va, Vb.
    destruct (Z.ltb_spec (Z.abs a * 2 ^ 53) (Z.abs b * 2 ^ 53));
      destruct (Z.ltb_spec a b); try done; lia.
Qed.

Lemma of_Z_not_nan a : safe_integer a → PrimFloat.is_nan (JS.of_Z a) = false.
Proof.
  intros Ha. pose proof (Prim2SF_of_Z a Ha) as Pa.
  destruct (a ?= 0).
  - unfold PrimFloat.is_nan. by rewrite FloatAxioms.eqb_spec, Pa.
  - destruct Pa as (m & e & E & _). by apply (is_nan_finite _ _ _ _ E).
  - destruct Pa as (m & e & E & _). by apply (is_nan_finite _ _ _ _ E).
Qed.

Lemma Math_min_integers a b :
  safe_integer a → safe_integer b → Math_min (JS.of_Z a) (JS.of_Z b) = JS.of_Z (Z.min a b).
Proof.
  intros Ha Hb. unfold Math_min.
  rewrite (of_Z_not_nan a Ha), (of_Z_not_nan b Hb), !of_Z_ltb by done. cbn [orb].
  destruct (Z.ltb_spec a b); [by rewrite Z.min_l by lia|].
  destruct (Z.ltb_spec b a); [by rewrite Z.min_r by lia|].
  assert (a = b) as -> by lia. rewrite Z.min_id. by destruct (PrimFloat.get_sign _).
Qed.

Lemma Math_max_integers a b :
  safe_integer a → safe_integer b → Math_max (JS.of_Z a) (JS.of_Z b) = JS.of_Z (Z.max a b).
Proof.
  intros Ha Hb. unfold Math_max.
  rewrite (of_Z_not_nan a Ha), (of_Z_not_nan b Hb), !of_Z_ltb by done. cbn [orb].
  destruct (Z.ltb_spec a b); [by rewrite Z.max_r by lia|].
  destruct (Z.ltb_spec b a); [by rewrite Z.max_l by lia|].
  assert (a = b) as -> by lia. rewrite Z.max_id. by destruct (PrimFloat.get_sign _).
Qed.


(** ** Progress reports *)

(** C7 (the code differs from the claim). The recognition branch of
    [logger] stores [Math.round(m.progress * 100)] as it is: a fraction of
    1.5 gives 150 and one of -0.25 gives -25, outside 0..100, while the
    initialization branch clamps the same fraction to 0..1 first and stays
    inside its band. For a fraction inside 0..1, such as 0.5, the stored
    value is the rounded percentage. *)
Theorem recognition_progress_is_not_clamped :
  ∀ st,
    ocrProgress (st_store (logger {| status := Some "recognizing text";
                                     progress := Some 1.5%float |} st)) = 150%float
    ∧ ocrProgress (st_store (logger {| status := Some "recognizing text";
                                       progress := Some (-0.25)%float |} st)) = (-25)%float
    ∧ ocrProgress (st_store (logger {| status := Some "recognizing text";
                                       progress := Some 0.5%float |} st)) = 50%float
    ∧ workerInitProgress (st_store (logger {| status := Some "loading tesseract core";
                                              progress := Some 1.5%float |} st)) = 20%float.
Proof. intros st. split_and!; reflexivity. Qed.

(** ** Downsampling *)

Lemma imageSource_small c :
  (width c ≤ 2400)%N → (height c ≤ 2400)%N → imageSource c = Normal c.
Proof.
  intros Hw Hh. unfold imageSource, MAX_OCR_DIM.
  destruct (N.ltb_spec 2400 (width c)); [lia|].
  destruct (N.ltb_spec 2400 (height c)); [lia|]. reflexivity.
Qed.

Lemma downscaled_le side other : (0 < N.max side other)%N → (downscaled side other ≤ 2400)%N.
Proof.
  intros HM. unfold downscaled. apply N.Div0.div_le_upper_bound.
  apply N.mul_le_mono_r. lia.
Qed.

Lemma downscaled_longest side other :
  (0 < side)%N → (other ≤ side)%N → downscaled side other = 2400%N.
Proof.
  intros H0 Hle. unfold downscaled. rewrite N.max_l by done.
  rewrite N.mul_comm. apply N.div_mul. lia.
Qed.

Lemma imageSource_large c :
  ¬ ((width c ≤ 2400)%N ∧ (height c ≤ 2400)%N) →
  (width c < 2 ^ 32)%N → (height c < 2 ^ 32)%N →
  host_draws c = true →
  ∃ c',
    imageSource c = Normal c'
    ∧ width c' = to_uint32 (Math_floor (of_N (width c)
                   * Math_min (2400 / of_N (width c)) (2400 / of_N (height c)))%float)
    ∧ height c' = to_uint32 (Math_floor (of_N (height c)
                    * Math_min (2400 / of_N (width c)) (2400 / of_N (height c)))%float)
    ∧ (width c' = downscaled (width c) (height c)
       ∨ (width c' + 1)%N = downscaled (width c) (height c)
         ∧ ((width c * 2400) mod N.max (width c) (height c))%N = 0%N)
    ∧ (height c' = downscaled (height c) (width c)
       ∨ (height c' + 1)%N = downscaled (height c) (width c)
         ∧ ((height c * 2400) mod N.max (height c) (width c))%N = 0%N)
    ∧ (2399 ≤ N.max (width c') (height c') ≤ 2400)%N
    ∧ filter c' = "grayscale(1) contrast(1.2)"
    ∧ picture c' = picture c.
Proof.
  intros Hbig Hw Hh Hd.
  assert (HM : (2400 < N.max (width c) (height c))%N) by lia.
  pose proof (offscreen_side (width c) (height c) (width c) Hw Hh HM ltac:(lia)) as Sw.
  pose proof (offscreen_side (width c) (height c) (height c) Hw Hh HM ltac:(lia)) as Sh.
  cbv zeta in Sw, Sh.
  eexists. split.
  - unfold imageSource, MAX_OCR_DIM. rewrite Hd.
    destruct (N.ltb_spec 2400 (width c)); [|destruct (N.ltb_spec 2400 (height c)); [|lia]];
      cbn [orb]; reflexivity.
  - cbn [width height filter picture].
    unfold downscaled. rewrite (N.max_comm (height c) (width c)).
    split; [reflexivity|]. split; [reflexivity|].
    split; [exact Sw|]. split; [exact Sh|]. split; [|done].
    pose proof (downscaled_le (width c) (height c) ltac:(lia)) as Lw.
    pose proof (downscaled_le (height c) (width c) ltac:(lia)) as Lh.
    assert (El : downscaled (width c) (height c) = 2400%N
                 ∨ downscaled (height c) (width c) = 2400%N).
    { destruct (N.le_ge_cases (height c) (width c)) as [Hle|Hle];
        [left|right]; apply downscaled_longest; lia. }
    unfold downscaled in Lw, Lh, El. rewrite (N.max_comm (height c) (width c)) in Lh, El.
    clear Hbig HM Hw Hh.
    set (ow := to_uint32 _) in *. set (oh := to_uint32 _) in *.
    set (ew := (width c * 2400 / _)%N) in *. set (eh := (height c * 2400 / _)%N) in *.
    clearbody ow oh ew eh. lia.
Qed.

Lemma imageSource_evaluated c w h w' h' :
  width c = w → height c = h → host_draws c = true →
  imageSource {| width := w; height := h; filter := ""; picture := 0; host_draws := true |}
  = Normal {| width := w'; height := h'; filter := "grayscale(1) contrast(1.2)";
              picture := 0; host_draws := true |} →
  ∃ c', imageSource c = Normal c' ∧ width c' = w' ∧ height c' = h'.
Proof.
  destruct c as [cw ch f p d]. cbn [width height host_draws]. intros -> -> -> H.
  unfold imageSource in *. cbn [width height host_draws picture] in *.
  destruct (_ || _); [|discriminate H].
  injection H as <- <-. eexists. split; [reflexivity|done].
Qed.

(** C8, as it is stated, fails. For a canvas 4231 pixels wide and 3000
    high the ratio is 2400 / 4231, and the width the claim gives,
    [floor(4231 * 2400 / 4231)], is 2400. The canvas the code makes is
    2399 wide: in binary64 the product of 4231 and the quotient 2400 / 4231
    lies just below 2400. *)
Lemma width_4231_is_one_short :
  let c := Sample.scan in
  downscaled (width c) (height c) = 2400%N
  ∧ downscaled (height c) (width c) = 1701%N
  ∧ PrimFloat.ltb (of_N (width c) * (of_N 2400 / of_N (width c))) (of_N 2400) = true
  ∧ ∃ c', imageSource c = Normal c' ∧ width c' = 2399%N ∧ height c' = 1701%N.
Proof.
  cbv zeta. split; [reflexivity|]. split; [reflexivity|]. split; [reflexivity|].
  eexists. split; [vm_compute; reflexivity|]. split; reflexivity.
Qed.

(** C8, amended. A canvas whose width and height are both at most 2400 is
    passed to the engine as it is. Any other canvas (its sides are below
    2^32, as the sides of a canvas are), when the host draws it, is
    replaced by an offscreen canvas drawn through the filter
    [grayscale(1) contrast(1.2)], whose sides are
    [Math.floor(side * ratio)] with [ratio = Math.min(2400 / width,
    2400 / height)] computed in binary64. Each side is what exact
    arithmetic gives, the side times 2400 over the longer side, rounded
    down, or one less than that; it is one less only where the longer side
    divides the side times 2400. So the longer side becomes 2400 or 2399
    and neither side exceeds 2400. A canvas of 5000 by 3000 becomes one of
    2400 by 1440, one of 3000 by 5000 one of 1440 by 2400: the sides stay
    in the ratio of the input's. *)
Theorem imageSource_downsamples :
  ∀ c,
    ((width c ≤ 2400)%N → (height c ≤ 2400)%N → imageSource c = Normal c)
    ∧ (¬ ((width c ≤ 2400)%N ∧ (height c ≤ 2400)%N) →
       (width c < 2 ^ 32)%N → (height c < 2 ^ 32)%N →
       host_draws c = true →
       ∃ c',
         imageSource c = Normal c'
         ∧ width c' = to_uint32 (Math_floor (of_N (width c)
                        * Math_min (2400 / of_N (width c)) (2400 / of_N (height c)))%float)
         ∧ height c' = to_uint32 (Math_floor (of_N (height c)
                         * Math_min (2400 / of_N (width c)) (2400 / of_N (height c)))%float)
         ∧ (width c' = downscaled (width c) (height c)
            ∨ (width c' + 1)%N = downscaled (width c) (height c)
              ∧ ((width c * 2400) mod N.max (width c) (height c))%N = 0%N)
         ∧ (height c' = downscaled (height c) (width c)
            ∨ (height c' + 1)%N = downscaled (height c) (width c)
              ∧ ((height c * 2400) mod N.max (height c) (width c))%N = 0%N)
         ∧ (2399 ≤ N.max (width c') (height c') ≤ 2400)%N
         ∧ filter c' = "grayscale(1) contrast(1.2)"
         ∧ picture c' = picture c)
    ∧ (width c = 5000%N → height c = 3000%N → host_draws c = true →
       ∃ c',
         imageSource c = Normal c'
         ∧ width c' = 2400%N
         ∧ height c' = 1440%N
         ∧ (width c' * height c = height c' * width c)%N)
    ∧ (width c = 3000%N → height c = 5000%N → host_draws c = true →
       ∃ c',
         imageSource c = Normal c'
         ∧ width c' = 1440%N
         ∧ height c' = 2400%N
         ∧ (width c' * height c = height c' * width c)%N).
Proof.
  intros c. split_and!.
  - apply imageSource_small.
  - apply imageSource_large.
  - intros Hw Hh Hd.
    destruct (imageSource_evaluated c 5000 3000 2400 1440 Hw Hh Hd) as (c' & E & Ew & Eh);
      [vm_compute; reflexivity|].
    exists c'. rewrite Ew, Eh, Hw, Hh. by split_and!.
  - intros Hw Hh Hd.
    destruct (imageSource_evaluated c 3000 5000 1440 2400 Hw Hh Hd) as (c' & E & Ew & Eh);
      [vm_compute; reflexivity|].
    exists c'. rewrite Ew, Eh, Hw, Hh. by split_and!.
Qed.

Lemma imageSource_downsamples_witness :
  imageSource (Sample.page 1) = Normal (Sample.page 1)
  ∧ (let c := Sample.scan in
     ∃ c',
       imageSource c = Normal c'
       ∧ width c' = to_uint32 (Math_floor (of_N (width c)
                      * Math_min (2400 / of_N (width c)) (2400 / of_N (height c)))%float)
       ∧ height c' = to_uint32 (Math_floor (of_N (height c)
                       * Math_min (2400 / of_N (width c)) (2400 / of_N (height c)))%float)
       ∧ (width c' = downscaled (width c) (height c)
          ∨ (width c' + 1)%N = downscaled (width c) (height c)
            ∧ ((width c * 2400) mod N.max (width c) (height c))%N = 0%N)
       ∧ (height c' = downscaled (height c) (width c)
          ∨ (height c' + 1)%N = downscaled (height c) (width c)
            ∧ ((height c * 2400) mod N.max (height c) (width c))%N = 0%N)
       ∧ (2399 ≤ N.max (width c') (height c') ≤ 2400)%N
       ∧ filter c' = "grayscale(1) contrast(1.2)"
       ∧ picture c' = picture c)
  ∧ (let c := Sample.poster true in
     ∃ c',
       imageSource c = Normal c'
       ∧ width c' = 2400%N
       ∧ height c' = 1440%N
       ∧ (width c' * height c = height c' * width c)%N)
  ∧ (let c := Sample.upright in
     ∃ c',
       imageSource c = Normal c'
       ∧ width c' = 1440%N
       ∧ height c' = 2400%N
       ∧ (width c' * height c = height c' * width c)%N).
Proof.
  cbv zeta.
  destruct (imageSource_downsamples (Sample.page 1)) as (small & _ & _ & _).
  destruct (imageSource_downsamples Sample.scan) as (_ & large & _ & _).
  destruct (imageSource_downsamples (Sample.poster true)) as (_ & _ & poster & _).
  destruct (imageSource_downsamples Sample.upright) as (_ & _ & _ & upright).
  split_and!.
  - apply small; vm_compute; congruence.
  - apply large; [|vm_compute; reflexivity..]. vm_compute. intros [H _]. congruence.
  - apply poster; reflexivity.
  - apply upright; reflexivity.
Defined.

(** ** A worker that failed to come up *)

Lemma not_ready_ref st : workerReadyRef (st_refs st) = false → notReady st = true.
Proof. intros H. unfold notReady. by rewrite H. Qed.

Lemma runOcr_without_worker fuel cl rq st st' r :
  workerReadyRef (st_refs st) = false →
  runOcr (S fuel) cl rq st = Some (st', r) →
  workerReadyRef (st_refs st') = false
  ∧ recognized (st_host st') = recognized (st_host st).
Proof.
  intros Hw. rewrite runOcr_S, (not_ready_ref _ Hw).
  destruct (cached cl rq); intros [= <- <-]; [done|]. by destruct (forceRun rq).
Qed.

Lemma step_without_worker ev st st' :
  workerReadyRef (st_refs st) = false →
  creates_worker ev = false →
  step ev st = Some st' →
  workerReadyRef (st_refs st') = false
  ∧ recognized (st_host st') = recognized (st_host st).
Proof.
  intros Hw Hev Hstep.
  step_cases ev Hstep.
  - destruct (runOcr depth cl rq st) as [[st1 r1]|] eqn:H; [|done].
    injection Hstep as <-. eapply runOcr_without_worker; eassumption.
  - destruct (recognizing (st_host st) !! i) as [a|] eqn:Ha;
      [|unfold resume_recognize in Hstep; by rewrite Ha in Hstep].
    rewrite (resume_recognize_eq _ _ _ _ Ha), finally_eq in Hstep.
    set (st1 := try_end a r (set_recognizing (delete i (recognizing (st_host st))) st)) in *.
    assert (workerReadyRef (st_refs st1) = false) as Hw1
      by (subst st1; by rewrite try_end_refs).
    assert (recognized (st_host st1) = recognized (st_host st)) as Hr1
      by (subst st1; by rewrite try_end_host).
    destruct (pendingRef (st_refs st1)) as [p|].
    + destruct (runOcr depth _ p _) as [[st2 r2]|] eqn:H; [|done].
      injection Hstep as <-.
      apply runOcr_without_worker in H as [-> ->]; [|exact Hw1]. by rewrite <- Hr1.
    + injection Hstep as <-. by rewrite <- Hr1, <- Hw1.
  - injection Hstep as <-. unfold initWorker. by destruct (workerRef (st_refs st)).
  - unfold resume_terminate in Hstep.
    destruct (initializing (st_host st) !! i) as [[l|l]|]; [|done..].
    by injection Hstep as <-.
  - unfold resume_createWorker in Hstep.
    destruct (initializing (st_host st) !! i) as [[l|l]|]; [done| |done].
    destruct r as [w|err]; [done|]. by injection Hstep as <-.
  - unfold timeout in Hstep. destruct (timeouts (st_host st) !! i) as [rq|]; [|done].
    destruct (runOcr depth _ rq _) as [[st1 r1]|] eqn:H; [|done].
    injection Hstep as <-. apply runOcr_without_worker in H; [exact H|exact Hw].
  - injection Hstep as <-. unfold logger. by repeat case_match.
  - by injection Hstep as <-.
  - by injection Hstep as <-.
  - by injection Hstep as <-.
Qed.

Lemma exec_without_worker evs st :
  workerReadyRef (st_refs st) = false →
  forallb (λ ev, negb (creates_worker ev)) evs = true →
  workerReadyRef (st_refs (exec evs st)) = false
  ∧ recognized (st_host (exec evs st)) = recognized (st_host st).
Proof.
  revert st. induction evs as [|ev evs IH]; intros st Hw Hevs; [done|].
  cbn [forallb] in Hevs. apply andb_prop in Hevs as [Hev Hevs].
  apply negb_true_iff in Hev. cbn [exec].
  destruct (step ev st) as [st'|] eqn:Hstep; [|by apply IH].
  destruct (step_without_worker _ _ _ Hw Hev Hstep) as [Hw' Hr'].
  rewrite <- Hr'. by apply IH.
Qed.

Lemma createWorker_rejected i lang err st :
  initializing (st_host st) !! i = Some (Creating lang) →
  ∃ st',
    resume_createWorker i (Throw err) st = Some st'
    ∧ workerReadyRef (st_refs st') = false
    ∧ workerReady (st_store st') = false
    ∧ workerInitProgress (st_store st') = 0%float
    ∧ workerInitStatus (st_store st') = "Failed"
    ∧ head (ocrLog (st_store st'))
      = Some ("[" +:+ now (st_host st) +:+ "] Worker init failed: " +:+ ToString (errMsg err))
    ∧ initializing (st_host st') = delete i (initializing (st_host st))
    ∧ timeouts (st_host st') = timeouts (st_host st)
    ∧ recognized (st_host st') = recognized (st_host st)
    ∧ pendingRef (st_refs st') = pendingRef (st_refs st).
Proof.
  intros Hi. unfold resume_createWorker. rewrite Hi.
  eexists. split; [reflexivity|]. by split_and!.
Qed.

Lemma runOcr_queued_without_worker evs fuel cl rq st :
  workerReadyRef (st_refs st) = false →
  forallb (λ ev, negb (creates_worker ev)) evs = true →
  cached cl rq = false →
  ∃ st',
    runOcr (S fuel) cl rq (exec evs st) = Some (st', Resolved None)
    ∧ pendingRef (st_refs st') = Some rq
    ∧ workerReadyRef (st_refs st') = false
    ∧ recognized (st_host st') = recognized (st_host st).
Proof.
  intros Hw Hevs Hc. destruct (exec_without_worker evs st Hw Hevs) as [Hw' Hr'].
  destruct (runOcr_not_ready fuel cl rq (exec evs st) Hc (not_ready_ref _ Hw'))
    as (st' & H & Hp & Hh & _).
  exists st'. split_and!; [exact H|exact Hp| |by rewrite Hh].
  by apply (runOcr_without_worker _ _ _ _ _ _ Hw') in H as [-> _].
Qed.

Lemma worker_created_ready i lang w st :
  initializing (st_host st) !! i = Some (Creating lang) →
  ∃ st', resume_createWorker i (Normal w) st = Some st' ∧ notReady st' = false.
Proof.
  intros Hi. unfold resume_createWorker. rewrite Hi. cbn.
  destruct (pendingRef (st_refs st)); eexists; split; reflexivity.
Qed.

(** C9. When [createWorker] rejects, the ready ref and the store's ready
    flag are false, the initialization progress is 0 with the label
    "Failed", the line "Worker init failed: ..." is logged, and nothing is
    scheduled: the activation is gone, no timer is queued, the engine is
    given nothing. From then on, through any events in which no
    [createWorker] resolves with a worker, the ready ref stays false and the
    engine is given nothing; and every call made then that is not answered
    from the cache puts its request into the pending slot and returns
    null. A [createWorker] that resolves with a worker makes the hook ready
    again. *)
Theorem failed_init_queues_requests :
  (∀ i lang err st,
     initializing (st_host st) !! i = Some (Creating lang) →
     ∃ st',
       resume_createWorker i (Throw err) st = Some st'
       ∧ workerReadyRef (st_refs st') = false
       ∧ workerReady (st_store st') = false
       ∧ workerInitProgress (st_store st') = 0%float
       ∧ workerInitStatus (st_store st') = "Failed"
       ∧ head (ocrLog (st_store st'))
         = Some ("[" +:+ now (st_host st) +:+ "] Worker init failed: "
                 +:+ ToString (errMsg err))
       ∧ initializing (st_host st') = delete i (initializing (st_host st))
       ∧ timeouts (st_host st') = timeouts (st_host st)
       ∧ recognized (st_host st') = recognized (st_host st)
       ∧ pendingRef (st_refs st') = pendingRef (st_refs st))
  ∧ (∀ evs st,
       workerReadyRef (st_refs st) = false →
       forallb (λ ev, negb (creates_worker ev)) evs = true →
       workerReadyRef (st_refs (exec evs st)) = false
       ∧ recognized (st_host (exec evs st)) = recognized (st_host st))
  ∧ (∀ evs fuel cl rq st,
       workerReadyRef (st_refs st) = false →
       forallb (λ ev, negb (creates_worker ev)) evs = true →
       cached cl rq = false →
       ∃ st',
         runOcr (S fuel) cl rq (exec evs st) = Some (st', Resolved None)
         ∧ pendingRef (st_refs st') = Some rq
         ∧ workerReadyRef (st_refs st') = false
         ∧ recognized (st_host st') = recognized (st_host st))
  ∧ (∀ i lang w st,
       initializing (st_host st) !! i = Some (Creating lang) →
       ∃ st', resume_createWorker i (Normal w) st = Some st' ∧ notReady st' = false).
Proof.
  split_and!.
  - apply createWorker_rejected.
  - apply exec_without_worker.
  - apply runOcr_queued_without_worker.
  - apply worker_created_ready.
Qed.

Lemma failed_init_queues_requests_witness :
  (let st := exec Sample.starting (init "eng") in
   let err := Error "network down" in
   ∃ st',
     resume_createWorker 0 (Throw err) st = Some st'
     ∧ workerReadyRef (st_refs st') = false
     ∧ workerReady (st_store st') = false
     ∧ workerInitProgress (st_store st') = 0%float
     ∧ workerInitStatus (st_store st') = "Failed"
     ∧ head (ocrLog (st_store st'))
       = Some ("[" +:+ now (st_host st) +:+ "] Worker init failed: " +:+ ToString (errMsg err))
     ∧ initializing (st_host st') = delete 0%nat (initializing (st_host st))
     ∧ timeouts (st_host st') = timeouts (st_host st)
     ∧ recognized (st_host st') = recognized (st_host st)
     ∧ pendingRef (st_refs st') = pendingRef (st_refs st))
  ∧ (let st := exec Sample.failed (init "eng") in
     let evs := [RunOcr (render st) (Sample.ask 1 false); Timeout 0;
                 InitWorker "eng"; CreateWorker 0 (Throw (Error "still down"));
                 RunOcr (render st) (Sample.ask 2 true)] in
     workerReadyRef (st_refs (exec evs st)) = false
     ∧ recognized (st_host (exec evs st)) = recognized (st_host st))
  ∧ (let st := exec Sample.failed (init "eng") in
     let evs := [RunOcr (render st) (Sample.ask 1 false); InitWorker "eng"] in
     ∃ st',
       runOcr depth (render st) (Sample.ask 2 false) (exec evs st) = Some (st', Resolved None)
       ∧ pendingRef (st_refs st') = Some (Sample.ask 2 false)
       ∧ workerReadyRef (st_refs st') = false
       ∧ recognized (st_host st') = recognized (st_host st))
  ∧ (let st := exec (Sample.failed ++ [InitWorker "eng"]) (init "eng") in
     ∃ st', resume_createWorker 0 (Normal Sample.eng) st = Some st' ∧ notReady st' = false).
Proof.
  cbv zeta.
  destruct failed_init_queues_requests as (rejected & stays & queued & recovers).
  split; [|split; [|split]].
  - apply (rejected 0%nat "eng"). vm_compute; reflexivity.
  - apply stays; vm_compute; reflexivity.
  - apply queued; vm_compute; reflexivity.
  - apply (recovers 0%nat "eng"). vm_compute; reflexivity.
Defined.

(** ** [errMsg] *)

(** C10, as it is stated, fails: the empty string is a string, and it is
    not returned unchanged. *)
Lemma errMsg_of_empty_string :
  is_string (JString "") = true
  ∧ errMsg (JString "") = JString "Unknown error".
Proof. split; reflexivity. Qed.

(** C10, amended. On every value of the model [errMsg] returns: a falsy
    value (null, undefined, the empty string, and what else is falsy) gives
    "Unknown error"; a string that is not empty is returned unchanged; a
    value that is not a string and has a truthy [message] gives that
    message; any other value gives what [JSON.stringify] makes of it, or
    its conversion by [String] when the serialisation throws. *)
Theorem errMsg_cases :
  ∀ err,
    errMsg JNull = JString "Unknown error"
    ∧ errMsg JUndefined = JString "Unknown error"
    ∧ (ToBoolean err = false → errMsg err = JString "Unknown error")
    ∧ (∀ s, err = JString s → s ≠ "" → errMsg err = JString s)
    ∧ (ToBoolean err = true → is_string err = false →
       ToBoolean (get_message err) = true → errMsg err = get_message err)
    ∧ (ToBoolean err = true → is_string err = false →
       ToBoolean (get_message err) = false →
       errMsg err = match JSON_stringify err with
                    | JsonText s => JString s
                    | JsonUndefined => JUndefined
                    | JsonThrows => JString (ToString err)
                    end).
Proof.
  intros err. unfold errMsg. split_and!; try reflexivity.
  - by intros ->.
  - intros s -> Hs. cbn. by rewrite bool_decide_eq_false_2.
  - by intros -> -> ->.
  - by intros -> -> ->.
Qed.

Lemma errMsg_cases_witness :
  errMsg (JBoolean false) = JString "Unknown error"
  ∧ errMsg (JString "Network error") = JString "Network error"
  ∧ errMsg (Error "boom") = JString "boom"
  ∧ errMsg (JOther true JUndefined JsonThrows "[object Object]") = JString "[object Object]"
  ∧ errMsg (Error "") = JString "{}".
Proof.
  destruct (errMsg_cases (JBoolean false)) as (_ & _ & falsy & _).
  destruct (errMsg_cases (JString "Network error")) as (_ & _ & _ & str & _).
  destruct (errMsg_cases (Error "boom")) as (_ & _ & _ & _ & msg & _).
  destruct (errMsg_cases (JOther true JUndefined JsonThrows "[object Object]"))
    as (_ & _ & _ & _ & _ & cyclic).
  destruct (errMsg_cases (Error "")) as (_ & _ & _ & _ & _ & blank).
  split_and!.
  - apply falsy. reflexivity.
  - apply (str "Network error"); [reflexivity|]. intros H. discriminate H.
  - apply msg; reflexivity.
  - apply cyclic; reflexivity.
  - apply blank; reflexivity.
Defined.

(** ** Further properties *)

(** X5. A forced call is not answered from the cache: from a reachable
    state with the worker ready and idle it hands its image to the engine
    whatever the cache holds, and the text that comes back replaces the
    entry of its key. *)
Theorem forced_run_overwrites :
  ∀ st rq image text,
    reachable st →
    forceRun rq = true →
    notReady st = false →
    isRunningRef (st_refs st) = false →
    imageSource (canvas rq) = Normal image →
    ∃ st1 st2,
      runOcr depth (render st) rq st = Some (st1, Awaiting)
      ∧ recognized (st_host st1) = image :: recognized (st_host st)
      ∧ resume_recognize 0 (Normal text) st1 = Some (st2, Some (trim text))
      ∧ ocrCache (st_store st2)
        = <[cacheKey (render st) rq := trim text]> (ocrCache (st_store st)).
Proof.
  intros st rq image text Hreach Hf Hn Hr Hi.
  destruct (reachable_consistent _ Hreach) as (H1 & H2 & H3).
  apply notReady_false in Hn as Hw. destruct Hw as [Hw _].
  specialize (H3 Hw Hr). rewrite Hr in H1.
  destruct (recognizing (st_host st)) eqn:Hl; [clear H1|done].
  set (a := {| rec_closure := render st; rec_cacheKey := cacheKey (render st) rq;
               rec_pageNumber := pageNumber rq |}).
  set (st1 := await_recognize a image (started rq st)).
  assert (recognizing (st_host st1) = [a]) as Hl1.
  { subst st1. cbn. by rewrite started_host, Hl. }
  exists st1, (idle (try_end a (Normal text) (set_recognizing [] st1))).
  split_and!.
  - unfold depth, cached. rewrite runOcr_S. unfold cached. rewrite Hf. cbn [negb andb].
    rewrite Hn, Hr, Hi. reflexivity.
  - subst st1. cbn. by rewrite started_host.
  - rewrite (resume_recognize_eq 0 _ _ a) by (by rewrite Hl1).
    rewrite Hl1, finally_eq. cbn [delete list_delete].
    rewrite try_end_refs. subst st1. cbn. rewrite started_refs. cbn. rewrite H3.
    reflexivity.
  - cbn -[try_end]. rewrite try_end_cache. subst st1. cbn. by rewrite started_cache.
Qed.

Lemma forced_run_overwrites_witness :
  let st := exec Sample.page2_done (init "eng") in
  let rq := Sample.ask 2 true in
  ∃ st1 st2,
    runOcr depth (render st) rq st = Some (st1, Awaiting)
    ∧ recognized (st_host st1) = Sample.page 2 :: recognized (st_host st)
    ∧ resume_recognize 0 (Normal "hello again") st1 = Some (st2, Some (trim "hello again"))
    ∧ ocrCache (st_store st2)
      = <[cacheKey (render st) rq := trim "hello again"]> (ocrCache (st_store st)).
Proof.
  cbv zeta. apply forced_run_overwrites.
  - exists "eng", Sample.page2_done. reflexivity.
  - reflexivity.
  - vm_compute; reflexivity.
  - vm_compute; reflexivity.
  - vm_compute; reflexivity.
Defined.

Lemma runOcr_mounted fuel cl rq st st' r :
  runOcr fuel cl rq st = Some (st', r) → mounted st' = mounted st.
Proof.
  revert rq st st' r. induction fuel as [|fuel IH]; intros rq st st' r; [done|].
  runOcr_branches cl rq st.
  - by intros [= <- <-].
  - intros [= <- <-]. by destruct (forceRun rq).
  - by intros [= <- <-].
  - intros [= <- <-]. unfold started. by destruct (forceRun rq).
  - rewrite finally_eq.
    destruct (pendingRef _) as [p|].
    + destruct (runOcr fuel cl p _) as [[st2 r2]|] eqn:H; [|done].
      intros [= <- <-]. apply IH in H as ->.
      unfold started. by destruct (forceRun rq).
    + intros [= <- <-]. unfold started. by destruct (forceRun rq).
Qed.

Lemma step_mounted ev st st' : step ev st = Some st' → mounted st' = mounted st.
Proof.
  intros Hstep.
  step_cases ev Hstep.
  - destruct (runOcr depth cl rq st) as [[st1 r1]|] eqn:H; [|done].
    injection Hstep as <-. by apply runOcr_mounted in H.
  - destruct (recognizing (st_host st) !! i) as [a|] eqn:Ha;
      [|unfold resume_recognize in Hstep; by rewrite Ha in Hstep].
    rewrite (resume_recognize_eq _ _ _ _ Ha), finally_eq in Hstep.
    set (st1 := try_end a r (set_recognizing (delete i (recognizing (st_host st))) st)) in *.
    assert (mounted st1 = mounted st) as Hm
      by (subst st1; destruct r; cbn; [by destruct (0 <? _)|done]).
    destruct (pendingRef (st_refs st1)) as [p|].
    + destruct (runOcr depth _ p _) as [[st2 r2]|] eqn:H; [|done].
      injection Hstep as <-. apply runOcr_mounted in H as ->. exact Hm.
    + injection Hstep as <-. exact Hm.
  - injection Hstep as <-. unfold initWorker. by destruct (workerRef (st_refs st)).
  - unfold resume_terminate in Hstep.
    destruct (initializing (st_host st) !! i) as [[l|l]|]; [|done..].
    by injection Hstep as <-.
  - unfold resume_createWorker in Hstep.
    destruct (initializing (st_host st) !! i) as [[l|l]|]; [done| |done].
    destruct r as [w|err].
    + cbn in Hstep. destruct (pendingRef (st_refs st)); by injection Hstep as <-.
    + by injection Hstep as <-.
  - unfold timeout in Hstep. destruct (timeouts (st_host st) !! i) as [rq|]; [|done].
    destruct (runOcr depth _ rq _) as [[st1 r1]|] eqn:H; [|done].
    injection Hstep as <-. by apply runOcr_mounted in H.
  - injection Hstep as <-. unfold logger. by repeat case_match.
  - by injection Hstep as <-.
  - by injection Hstep as <-.
  - by injection Hstep as <-.
Qed.

Lemma exec_mounted evs st : mounted (exec evs st) = mounted st.
Proof.
  revert st. induction evs as [|ev evs IH]; intros st; [done|].
  cbn [exec]. rewrite IH. destruct (step ev st) as [st'|] eqn:H; [|done].
  by apply step_mounted in H.
Qed.

(** X6. The call a timer callback makes is always the [runOcr] of the first
    render: whatever has happened since the mount, it builds its cache key
    from the language the hook was mounted with and looks it up in the
    empty cache of that render. So after the language is switched to "fra"
    while page 1 is asked for, the replayed request is recognised by the
    French worker and its text is stored under "1:1.00:eng", the key
    "1:1.00:fra" staying without an entry. *)
Theorem replay_uses_first_render :
  (∀ lang evs i rq,
     timeouts (st_host (exec evs (init lang))) !! i = Some rq →
     timeout i (exec evs (init lang))
     = fst <$> runOcr depth {| ocrLanguage_of := lang; ocrCache_of := ∅ |} rq
                 (set_timeouts (delete i (timeouts (st_host (exec evs (init lang)))))
                    (exec evs (init lang))))
  ∧ (let st := exec Sample.replayed_in_fra (init "eng") in
     ocrLanguage (st_store st) = "fra"
     ∧ workerRef (st_refs st) = Some Sample.fra
     ∧ ocrCache (st_store st) !! "1:1.00:eng" = Some "un"
     ∧ ocrCache (st_store st) !! "1:1.00:fra" = None).
Proof.
  split.
  - intros lang evs i rq Hi. unfold timeout. rewrite Hi.
    cbn [mounted set_timeouts with_host]. by rewrite exec_mounted.
  - cbv zeta. split_and!; vm_compute; reflexivity.
Qed.

Lemma replay_uses_first_render_witness :
  let st := exec (Sample.switched_to_fra
                  ++ [RunOcr (render (exec Sample.switched_to_fra (init "eng")))
                        (Sample.ask 1 false);
                      CreateWorker 0 (Normal Sample.fra)]) (init "eng") in
  timeout 0 st
  = fst <$> runOcr depth {| ocrLanguage_of := "eng"; ocrCache_of := ∅ |} (Sample.ask 1 false)
              (set_timeouts (delete 0%nat (timeouts (st_host st))) st).
Proof.
  cbv zeta. destruct replay_uses_first_render as [replay _].
  apply replay. vm_compute; reflexivity.
Defined.

(** ** The order of numbers *)

Lemma SFcompare_antisym a b c : SFcompare a b = Some c → SFcompare b a = Some (CompOpp c).
Proof.
  destruct a as [sa|sa| |sa ma ea], b as [sb|sb| |sb mb eb]; cbn; try discriminate;
    try (intros [= <-]; repeat case_match; reflexivity).
  intros [= <-]. f_equal.
  destruct sa, sb; try reflexivity.
  - rewrite (Z.compare_antisym ea eb). destruct (ea ?= eb); cbn; try reflexivity.
    f_equal. symmetry. apply (Pos.compare_cont_antisym ma mb Eq).
  - rewrite (Z.compare_antisym ea eb). destruct (ea ?= eb); cbn; try reflexivity.
    symmetry. apply (Pos.compare_cont_antisym ma mb Eq).
Qed.

Lemma is_nan_Prim2SF x : PrimFloat.is_nan x = false → Prim2SF x ≠ S754_nan.
Proof.
  unfold PrimFloat.is_nan. rewrite FloatAxioms.eqb_spec. intros H E. rewrite E in H.
  discriminate H.
Qed.

Lemma SFcompare_some a b : a ≠ S754_nan → b ≠ S754_nan → is_Some (SFcompare a b).
Proof. destruct a, b; cbn; try done; eauto. Qed.

(** Numbers that are not NaN are totally ordered. *)
Lemma float_total x y :
  PrimFloat.is_nan x = false → PrimFloat.is_nan y = false →
  PrimFloat.ltb x y = false → PrimFloat.leb y x = true.
Proof.
  intros Hx Hy. rewrite FloatAxioms.ltb_spec, FloatAxioms.leb_spec. unfold SFltb, SFleb.
  destruct (SFcompare_some _ _ (is_nan_Prim2SF _ Hx) (is_nan_Prim2SF _ Hy)) as [c Hc].
  rewrite Hc, (SFcompare_antisym _ _ _ Hc). by destruct c.
Qed.

Lemma float_lt_le x y : PrimFloat.ltb x y = true → PrimFloat.leb x y = true.
Proof.
  rewrite FloatAxioms.ltb_spec, FloatAxioms.leb_spec. unfold SFltb, SFleb.
  by destruct (SFcompare _ _) as [[]|].
Qed.

Lemma float_le_not_lt x y : PrimFloat.leb x y = true → PrimFloat.ltb y x = false.
Proof.
  rewrite FloatAxioms.ltb_spec, FloatAxioms.leb_spec. unfold SFltb, SFleb.
  destruct (SFcompare (Prim2SF x) _) as [c|] eqn:Hc; [|done].
  rewrite (SFcompare_antisym _ _ _ Hc). by destruct c.
Qed.

(** Neither less nor greater: equal. *)
Lemma float_eq x y :
  PrimFloat.is_nan x = false → PrimFloat.is_nan y = false →
  PrimFloat.ltb x y = false → PrimFloat.ltb y x = false → PrimFloat.eqb x y = true.
Proof.
  intros Hx Hy. rewrite !FloatAxioms.ltb_spec, FloatAxioms.eqb_spec. unfold SFltb, SFeqb.
  destruct (SFcompare_some _ _ (is_nan_Prim2SF _ Hx) (is_nan_Prim2SF _ Hy)) as [c Hc].
  rewrite Hc, (SFcompare_antisym _ _ _ Hc). by destruct c.
Qed.

Lemma float_refl x : PrimFloat.is_nan x = false → PrimFloat.eqb x x = true.
Proof. unfold PrimFloat.is_nan. by destruct (PrimFloat.eqb x x). Qed.

Lemma float_eq_le x y : PrimFloat.eqb x y = true → PrimFloat.leb x y = true.
Proof.
  rewrite FloatAxioms.eqb_spec, FloatAxioms.leb_spec. unfold SFeqb, SFleb.
  by destruct (SFcompare _ _) as [[]|].
Qed.

Lemma float_eq_sym x y : PrimFloat.eqb x y = true → PrimFloat.eqb y x = true.
Proof.
  rewrite !FloatAxioms.eqb_spec. unfold SFeqb.
  destruct (SFcompare (Prim2SF x) _) as [c|] eqn:Hc; [|done].
  rewrite (SFcompare_antisym _ _ _ Hc). by destruct c.
Qed.

(** [Math.max(lo, Math.min(hi, x))] for bounds that are positive numbers. *)
Lemma clamp_nan lo hi x :
  PrimFloat.is_nan x = true → Math_max lo (Math_min hi x) = nan.
Proof.
  intros Hx. unfold Math_min at 1. rewrite Hx, orb_true_r. unfold Math_max.
  by rewrite orb_true_r.
Qed.

Lemma clamp_bounds lo hi x :
  PrimFloat.is_nan x = false →
  PrimFloat.leb lo hi = true → PrimFloat.is_nan lo = false → PrimFloat.is_nan hi = false →
  PrimFloat.get_sign lo = false → PrimFloat.get_sign hi = false →
  let y := Math_max lo (Math_min hi x) in
  PrimFloat.leb lo y = true ∧ PrimFloat.leb y hi = true
  ∧ (PrimFloat.leb lo x = true → PrimFloat.leb x hi = true → PrimFloat.eqb y x = true).
Proof.
  intros Hx Hle Hlo Hhi Slo Shi. cbn zeta.
  assert (Hm : PrimFloat.is_nan (Math_min hi x) = false
               ∧ PrimFloat.leb (Math_min hi x) hi = true
               ∧ (PrimFloat.leb x hi = true → Math_min hi x = x)).
  { unfold Math_min. rewrite Hx, Hhi, Shi. cbn.
    destruct (PrimFloat.ltb hi x) eqn:H1.
    - split_and!; [done|by apply float_eq_le, float_refl|].
      intros H. apply float_le_not_lt in H. congruence.
    - destruct (PrimFloat.ltb x hi) eqn:H2.
      + split_and!; [done|by apply float_lt_le|done].
      + split_and!; [done|by apply float_total|done]. }
  destruct Hm as (Hn & Hmh & Hmx).
  unfold Math_max. rewrite Hlo, Hn, Slo. cbn.
  destruct (PrimFloat.ltb lo (Math_min hi x)) eqn:H1.
  - split_and!; [by apply float_lt_le|done|].
    intros _ H. rewrite (Hmx H). by apply float_refl.
  - destruct (PrimFloat.ltb (Math_min hi x) lo) eqn:H2.
    + split_and!; [by apply float_eq_le, float_refl|done|].
      intros H3 H4. rewrite (Hmx H4) in H2. apply float_le_not_lt in H3. congruence.
    + split_and!; [by apply float_eq_le, float_refl|done|].
      intros _ H4. rewrite (Hmx H4) in H1, H2. by apply float_eq.
Qed.

(** ** The store's other actions *)

Lemma clamp_clamped lo hi x :
  PrimFloat.leb lo hi = true → PrimFloat.is_nan lo = false → PrimFloat.is_nan hi = false →
  PrimFloat.get_sign lo = false → PrimFloat.get_sign hi = false →
  clamped lo hi x (Math_max lo (Math_min hi x)).
Proof.
  intros. unfold clamped. destruct (PrimFloat.is_nan x) eqn:Hx.
  - by apply clamp_nan.
  - by apply clamp_bounds.
Qed.

Lemma clamped_in_range lo hi x y : clamped lo hi x y → in_range lo hi y.
Proof.
  unfold clamped, in_range. destruct (PrimFloat.is_nan x).
  - intros ->. by left.
  - intros (? & ? & _). by right.
Qed.

(** X7. The three clamping setters of the store, [setScrollSpeed],
    [setOcrFontSize] and [setZoom], store a number between their bounds
    (5 and 500, 10 and 32, 0.25 and 5) whatever number they are given, and
    the given number itself when it lies between them; given NaN they
    store NaN. *)
Theorem clamping_setters :
  ∀ x v,
    clamped 5 500 x (useStore.scrollSpeed (useStore.setScrollSpeed x v))
    ∧ clamped 10 32 x (useStore.ocrFontSize (useStore.setOcrFontSize x v))
    ∧ clamped 0.25 5 x (useStore.zoom (useStore.setZoom x v)).
Proof.
  intros x v. split_and!; cbn; by apply clamp_clamped.
Qed.

(** ** Invariants of the application *)

Lemma exec_invariant (P : app → Prop) :
  (∀ ev a a', P a → App.step ev a = Some a' → P a') →
  ∀ evs a, P a → P (App.exec evs a).
Proof.
  intros Hstep evs. induction evs as [|ev evs IH]; intros a Ha; [exact Ha|].
  cbn [App.exec]. apply IH.
  destruct (App.step ev a) as [a'|] eqn:H; [|exact Ha].
  by apply (Hstep ev a a').
Qed.

Lemma reachable_invariant (P : app → Prop) :
  P App.init →
  (∀ ev a a', P a → App.step ev a = Some a' → P a') →
  ∀ a, App.reachable a → P a.
Proof. intros H0 Hstep a [evs ->]. by apply exec_invariant. Qed.

(** The events of the application, in the order of [App.event]. *)
Ltac app_cases ev Hstep :=
  destruct ev as [?ev|?r ?canvas ?pageNumber|?r|?r|?r ?tagName ?e|?c| | |?value| | |?i|?i ?r
                 |?i ?password| |?id ?timestamp|?hidden| |?c];
  cbn [App.step] in Hstep.

Lemma triggerOcrForPage_view r pn c a a' :
  App.triggerOcrForPage r pn c a = Some a' → view a' = view a.
Proof.
  unfold App.triggerOcrForPage. repeat case_match; by intros [= <-].
Qed.

Lemma view_ok_currentPage page v :
  view_ok v → view_ok (useStore.setCurrentPage page v).
Proof. unfold view_ok. cbn. intros (? & ? & ? & ? & ?). split_and!; try done; lia. Qed.

Lemma view_ok_setPdfDoc doc v : view_ok v → view_ok (useStore.setPdfDoc doc v).
Proof. unfold view_ok. cbn. intros (? & ? & ? & ? & ?). split_and!; try done; lia. Qed.

Lemma view_ok_setZoom z v : view_ok v → view_ok (useStore.setZoom z v).
Proof.
  unfold view_ok. cbn. intros (? & ? & ? & ? & ?). split_and!; try done; try lia.
  by apply (clamped_in_range _ _ z), clamp_clamped.
Qed.

Lemma view_ok_setScrollSpeed x v : view_ok v → view_ok (useStore.setScrollSpeed x v).
Proof.
  unfold view_ok. cbn. intros (? & ? & ? & ? & ?). split_and!; try done; try lia.
  by apply (clamped_in_range _ _ x), clamp_clamped.
Qed.

Lemma view_ok_setOcrFontSize x v : view_ok v → view_ok (useStore.setOcrFontSize x v).
Proof.
  unfold view_ok. cbn. intros (? & ? & ? & ? & ?). split_and!; try done; try lia.
  by apply (clamped_in_range _ _ x), clamp_clamped.
Qed.

Lemma view_ok_act c v : view_ok v → view_ok (useStore.act c v).
Proof.
  destruct c; cbn [useStore.act];
    auto using view_ok_currentPage, view_ok_setPdfDoc, view_ok_setZoom,
               view_ok_setScrollSpeed, view_ok_setOcrFontSize.
Qed.

Lemma view_ok_handler r tagName e a : view_ok (view a) → view_ok (view (App.handler r tagName e a)).
Proof.
  intros H. unfold App.handler.
  repeat case_match; cbn [view with_view];
    auto using view_ok_currentPage, view_ok_setZoom, view_ok_setScrollSpeed.
Qed.

Lemma view_ok_step ev a a' :
  view_ok (view a) → App.step ev a = Some a' → view_ok (view a').
Proof.
  intros H Hstep. app_cases ev Hstep.
  - destruct ev; cbv beta iota in Hstep; try done;
      (destruct (step _ (ocr a)); [by injection Hstep as <-|done]).
  - unfold App.handleCanvasReady in Hstep. by rewrite (triggerOcrForPage_view _ _ _ _ _ Hstep).
  - unfold App.page_effect in Hstep. destruct (canvasMapRef a !! _).
    + by rewrite (triggerOcrForPage_view _ _ _ _ _ Hstep).
    + by injection Hstep as <-.
  - unfold App.onRunOcr in Hstep. by rewrite (triggerOcrForPage_view _ _ _ _ _ Hstep).
  - injection Hstep as <-. by apply view_ok_handler.
  - injection Hstep as <-. by apply view_ok_act.
  - injection Hstep as <-. by apply view_ok_setOcrFontSize.
  - injection Hstep as <-. by apply view_ok_setOcrFontSize.
  - by injection Hstep as <-.
  - by injection Hstep as <-.
  - injection Hstep as <-. unfold usePdfDocument.effect, usePdfDocument.loadPdf.
    repeat case_match; cbn [view with_view]; try by apply view_ok_setPdfDoc.
    all: exact H.
  - unfold usePdfDocument.resume_destroy in Hstep.
    repeat case_match; try done. by injection Hstep as <-.
  - unfold usePdfDocument.resume_load in Hstep.
    repeat case_match; try done; injection Hstep as <-; try exact H.
    by apply view_ok_setPdfDoc.
  - unfold usePdfDocument.onPassword in Hstep.
    repeat case_match; try done; by injection Hstep as <-.
  - injection Hstep as <-. unfold useAutoScroll.effects, useAutoScroll.effect, useAutoScroll.cancel.
    by repeat case_match.
  - unfold useAutoScroll.frame in Hstep. case_match; [|done]. injection Hstep as <-.
    unfold useAutoScroll.step. by repeat case_match.
  - injection Hstep as <-. unfold useAutoScroll.handleVisibilityChange. by case_match.
  - injection Hstep as <-. unfold useAutoScroll.handleBlur. by case_match.
  - by injection Hstep as <-.
Qed.

(** Line 37 of the store on integers: the number it computes for two safe
    integers is the number of the integer the model stores. *)
Lemma clamp_page_integers page total :
  safe_integer page → safe_integer total →
  useStore.clampPage (JS.of_Z page) (JS.of_Z total) = JS.of_Z (Z.max 1 (Z.min page total)).
Proof.
  intros Hp Ht. unfold useStore.clampPage. rewrite Math_min_integers by done.
  change 1%float with (JS.of_Z 1). apply Math_max_integers.
  - unfold safe_integer. lia.
  - unfold safe_integer in *. lia.
Qed.

(** Line 37 of the store on any two numbers. *)
Lemma clamp_page_numbers page total :
  let y := useStore.clampPage page total in
  if PrimFloat.is_nan page || PrimFloat.is_nan total then y = nan
  else PrimFloat.leb 1 y = true
       ∧ (PrimFloat.leb y total = true ∨ PrimFloat.eqb y 1 = true).
Proof.
  cbv zeta. unfold useStore.clampPage.
  destruct (PrimFloat.is_nan page) eqn:Hp; [by unfold Math_min; rewrite Hp|].
  destruct (PrimFloat.is_nan total) eqn:Ht; cbn [orb].
  { unfold Math_min. by rewrite Hp, Ht. }
  assert (Hm : PrimFloat.is_nan (Math_min page total) = false
               ∧ PrimFloat.leb (Math_min page total) total = true).
  { unfold Math_min. rewrite Hp, Ht. cbn [orb].
    destruct (PrimFloat.ltb page total) eqn:H1; [split; [done|by apply float_lt_le]|].
    destruct (PrimFloat.ltb total page) eqn:H2;
      [split; [done|by apply float_eq_le, float_refl]|].
    destruct (PrimFloat.get_sign page);
      (split; [done|]); [by apply float_total|by apply float_eq_le, float_refl]. }
  destruct Hm as [Hn Hle]. set (m := Math_min page total) in *.
  unfold Math_max. rewrite Hn.
  change (PrimFloat.is_nan 1) with false. change (PrimFloat.get_sign 1) with false.
  cbn [orb].
  destruct (PrimFloat.ltb 1 m) eqn:H1; [split; [by apply float_lt_le|by left]|].
  assert (H11 : PrimFloat.eqb 1 1 = true) by reflexivity.
  destruct (PrimFloat.ltb m 1); (split; [by apply float_eq_le|by right]).
Qed.

(** X8. What the store keeps of the viewer, whatever the components, the
    keyboard and the hooks do, for page numbers that are integers: the
    current page is at least 1 and at most the page count (it is 1 when no
    document is loaded), [totalPages] is the page count of the document in
    the store, and scroll speed, font size and zoom are within their
    bounds unless they are NaN. This holds of the store as created, and is
    kept by every event from any store of which it holds (the persisted
    settings may have been read back). The integer the model stores as the
    current page is the one whose number line 37 computes, for safe
    integers; for any other number line 37 gives NaN, when the page or the
    page count is NaN, and otherwise a number that is at least 1 and at
    most the page count or equal to 1. *)
Theorem viewer_stays_in_range :
  view_ok (view App.init)
  ∧ (∀ a evs, view_ok (view a) → view_ok (view (App.exec evs a)))
  ∧ (∀ page v,
       safe_integer page → safe_integer (useStore.totalPages v) →
       JS.of_Z (useStore.currentPage (useStore.setCurrentPage page v))
       = useStore.clampPage (JS.of_Z page) (JS.of_Z (useStore.totalPages v)))
  ∧ (∀ page totalPages,
       let y := useStore.clampPage page totalPages in
       if PrimFloat.is_nan page || PrimFloat.is_nan totalPages then y = nan
       else PrimFloat.leb 1 y = true
            ∧ (PrimFloat.leb y totalPages = true ∨ PrimFloat.eqb y 1 = true)).
Proof.
  split_and!.
  - unfold view_ok. cbn. split_and!; try done; by right.
  - intros a evs Ha. revert a Ha. apply (exec_invariant (fun a => view_ok (view a))).
    intros ev a a'. apply view_ok_step.
  - intros page v Hp Ht. cbn [useStore.setCurrentPage useStore.currentPage].
    symmetry. by apply clamp_page_integers.
  - apply clamp_page_numbers.
Qed.

(** ** The log *)

Lemma log_ok_addOcrLog m st : log_ok (addOcrLog m st).
Proof. unfold log_ok. cbn -[take]. rewrite length_take. lia. Qed.

Lemma log_ok_same st st' :
  ocrLog (st_store st') = ocrLog (st_store st) → log_ok st → log_ok st'.
Proof. unfold log_ok. by intros ->. Qed.

Lemma log_ok_started rq st : log_ok (started rq st).
Proof. unfold started. destruct (forceRun rq); apply log_ok_addOcrLog. Qed.

Lemma log_ok_try_end a r st : log_ok (try_end a r st).
Proof.
  destruct r as [text|err]; cbn [try_end]; [|apply log_ok_addOcrLog].
  destruct (0 <? _); apply log_ok_addOcrLog.
Qed.

Lemma runOcr_log_ok fuel cl rq st st' r :
  runOcr fuel cl rq st = Some (st', r) → log_ok st → log_ok st'.
Proof.
  revert rq st st' r. induction fuel as [|fuel IH]; intros rq st st' r; [done|].
  runOcr_branches cl rq st.
  - intros [= <- <-] _. apply log_ok_addOcrLog.
  - intros [= <- <-] H. destruct (forceRun rq); [apply log_ok_addOcrLog|exact H].
  - by intros [= <- <-] H.
  - intros [= <- <-] _. apply (log_ok_same (started rq st)); [done|apply log_ok_started].
  - rewrite finally_eq. intros Hf _.
    assert (H1 : log_ok (catch (pageNumber rq) err (started rq st))) by apply log_ok_addOcrLog.
    destruct (pendingRef _) as [p|].
    + destruct (runOcr fuel cl p _) as [[st2 r2]|] eqn:H; [|done].
      injection Hf as <- <-. apply IH in H; [exact H|exact H1].
    + injection Hf as <- <-. exact H1.
Qed.

Lemma finally_log_ok fuel cl st st' :
  finally (runOcr fuel cl) st = Some st' → log_ok st → log_ok st'.
Proof.
  rewrite finally_eq. destruct (pendingRef (st_refs st)) as [p|].
  - destruct (runOcr fuel cl p _) as [[st2 r2]|] eqn:H; [|done].
    intros [= <-] H1. by apply runOcr_log_ok in H.
  - by intros [= <-].
Qed.

Lemma step_log_ok ev st st' : step ev st = Some st' → log_ok st → log_ok st'.
Proof.
  intros Hstep Hl. step_cases ev Hstep.
  - destruct (runOcr depth cl rq st) as [[st1 r1]|] eqn:H; [|done].
    injection Hstep as <-. by apply runOcr_log_ok in H.
  - destruct (recognizing (st_host st) !! i) as [a|] eqn:Ha;
      [|unfold resume_recognize in Hstep; by rewrite Ha in Hstep].
    rewrite (resume_recognize_eq _ _ _ _ Ha) in Hstep.
    destruct (finally _ _) as [st1|] eqn:H; [|done].
    injection Hstep as <-. apply finally_log_ok in H; [exact H|apply log_ok_try_end].
  - injection Hstep as <-. unfold initWorker.
    destruct (workerRef (st_refs st)); [exact Hl|].
    unfold initWorker_create, log_ok. cbn -[take]. rewrite length_take. lia.
  - unfold resume_terminate in Hstep.
    destruct (initializing (st_host st) !! i) as [[l|l]|]; [|done..].
    injection Hstep as <-.
    unfold initWorker_create, log_ok. cbn -[take]. rewrite length_take. lia.
  - unfold resume_createWorker in Hstep.
    destruct (initializing (st_host st) !! i) as [[l|l]|]; [done| |done].
    destruct r as [w|err].
    + cbn [pendingRef st_refs] in Hstep.
      match type of Hstep with
      | context [addOcrLog ?m ?s] =>
          pose proof (log_ok_addOcrLog m s) as H1
      end.
      destruct (pendingRef _); injection Hstep as <-; exact H1.
    + injection Hstep as <-. apply log_ok_addOcrLog.
  - unfold timeout in Hstep. destruct (timeouts (st_host st) !! i) as [rq|]; [|done].
    destruct (runOcr depth _ rq _) as [[st1 r1]|] eqn:H; [|done].
    injection Hstep as <-. by apply runOcr_log_ok in H.
  - injection Hstep as <-. unfold logger. by repeat case_match.
  - by injection Hstep as <-.
  - by injection Hstep as <-.
  - by injection Hstep as <-.
Qed.

Lemma triggerOcrForPage_log_ok r pn c a a' :
  App.triggerOcrForPage r pn c a = Some a' → log_ok (ocr a) → log_ok (ocr a').
Proof.
  unfold App.triggerOcrForPage. destruct (match c with Some _ => _ | None => _ end).
  - destruct (runOcr _ _ _ _) as [[st1 r1]|] eqn:H; [|done].
    intros [= <-] Hl. by apply runOcr_log_ok in H.
  - by intros [= <-].
Qed.

Lemma app_step_log_ok ev a a' :
  log_ok (ocr a) → App.step ev a = Some a' → log_ok (ocr a').
Proof.
  intros H Hstep. app_cases ev Hstep.
  - destruct ev; cbv beta iota in Hstep; try done;
      (destruct (step _ (ocr a)) eqn:Hs; [injection Hstep as <-|done]);
      by apply step_log_ok in Hs.
  - unfold App.handleCanvasReady in Hstep. by apply triggerOcrForPage_log_ok in Hstep.
  - unfold App.page_effect in Hstep. destruct (canvasMapRef a !! _).
    + by apply triggerOcrForPage_log_ok in Hstep.
    + by injection Hstep as <-.
  - unfold App.onRunOcr in Hstep. by apply triggerOcrForPage_log_ok in Hstep.
  - injection Hstep as <-. unfold App.handler. by repeat case_match.
  - by injection Hstep as <-.
  - by injection Hstep as <-.
  - by injection Hstep as <-.
  - by injection Hstep as <-.
  - injection Hstep as <-. unfold log_ok. cbn. lia.
  - injection Hstep as <-. unfold usePdfDocument.effect, usePdfDocument.loadPdf.
    by repeat case_match.
  - unfold usePdfDocument.resume_destroy in Hstep.
    repeat case_match; try done. by injection Hstep as <-.
  - unfold usePdfDocument.resume_load in Hstep.
    repeat case_match; try done; by injection Hstep as <-.
  - unfold usePdfDocument.onPassword in Hstep.
    repeat case_match; try done; by injection Hstep as <-.
  - injection Hstep as <-. unfold useAutoScroll.effects, useAutoScroll.effect, useAutoScroll.cancel.
    by repeat case_match.
  - unfold useAutoScroll.frame in Hstep. case_match; [|done]. injection Hstep as <-.
    unfold useAutoScroll.step. by repeat case_match.
  - injection Hstep as <-. unfold useAutoScroll.handleVisibilityChange. by case_match.
  - injection Hstep as <-. unfold useAutoScroll.handleBlur. by case_match.
  - by injection Hstep as <-.
Qed.

(** ** The hook inside the application *)

(** What a turn of the application does to the hook: nothing, or one of
    the hook's own events, a call of [runOcr] being one that does not force
    a run, or one of the panel's two clearing handlers. *)
Lemma app_step_ocr ev a a' :
  App.step ev a = Some a' →
  ocr a' = ocr a
  ∨ ocr a' = clearOcrLog (ocr a)
  ∨ (∃ hev, step hev (ocr a) = Some (ocr a')
            ∧ ∀ cl rq, hev = RunOcr cl rq → forceRun rq = false)
  ∨ (∃ lang, ocr a' = clearOcrCache (setOcrLanguage lang (ocr a))).
Proof.
  assert (Htrigger : ∀ r pn c a a',
    App.triggerOcrForPage r pn c a = Some a' →
    ocr a' = ocr a
    ∨ (∃ hev, step hev (ocr a) = Some (ocr a')
              ∧ ∀ cl rq, hev = RunOcr cl rq → forceRun rq = false)).
  { clear. intros r pn c a a'. unfold App.triggerOcrForPage.
    destruct (match c with Some _ => _ | None => _ end) as [c'|]; [|intros [= <-]; by left].
    destruct (runOcr _ _ _ _) as [[st1 r1]|] eqn:H; [|done].
    intros [= <-]. right.
    eexists (RunOcr _ _). cbn [step]. rewrite H. split; [done|].
    by intros cl rq [= _ <-]. }
  intros Hstep. app_cases ev Hstep.
  - destruct ev; cbv beta iota in Hstep; try done;
      (destruct (step _ (ocr a)) eqn:Hs; [injection Hstep as <-|done]);
      right; right; left; eexists; (split; [exact Hs|done]).
  - unfold App.handleCanvasReady in Hstep.
    destruct (Htrigger _ _ _ _ _ Hstep) as [H|H]; [by left|by right; right; left].
  - unfold App.page_effect in Hstep. destruct (canvasMapRef a !! _).
    + destruct (Htrigger _ _ _ _ _ Hstep) as [H|H]; [by left|by right; right; left].
    + injection Hstep as <-. by left.
  - unfold App.onRunOcr in Hstep.
    destruct (Htrigger _ _ _ _ _ Hstep) as [H|H]; [by left|by right; right; left].
  - injection Hstep as <-. left. unfold App.handler. by repeat case_match.
  - injection Hstep as <-. by left.
  - injection Hstep as <-. by left.
  - injection Hstep as <-. by left.
  - injection Hstep as <-. right. right. right. by eexists.
  - injection Hstep as <-. right. by left.
  - injection Hstep as <-. unfold usePdfDocument.effect, usePdfDocument.loadPdf.
    repeat case_match; try (by left);
      right; right; left; exists ClearOcrCache; by split.
  - unfold usePdfDocument.resume_destroy in Hstep.
    repeat case_match; try done. injection Hstep as <-. by left.
  - unfold usePdfDocument.resume_load in Hstep.
    repeat case_match; try done; injection Hstep as <-; by left.
  - unfold usePdfDocument.onPassword in Hstep.
    repeat case_match; try done; injection Hstep as <-; by left.
  - injection Hstep as <-. left.
    unfold useAutoScroll.effects, useAutoScroll.effect, useAutoScroll.cancel.
    by repeat case_match.
  - unfold useAutoScroll.frame in Hstep. case_match; [|done]. injection Hstep as <-.
    left. unfold useAutoScroll.step. by repeat case_match.
  - injection Hstep as <-. left. unfold useAutoScroll.handleVisibilityChange. by case_match.
  - injection Hstep as <-. left. unfold useAutoScroll.handleBlur. by case_match.
  - injection Hstep as <-. by left.
Qed.

Lemma app_reachable_consistent a : App.reachable a → consistent (ocr a).
Proof.
  revert a. apply reachable_invariant; [apply init_consistent|].
  intros ev a a' Hc Hstep.
  destruct (app_step_ocr _ _ _ Hstep) as [->|[->|[(hev & Hs & _)|[lang ->]]]]; try done.
  by apply (step_consistent hev (ocr a)).
Qed.

Lemma runOcr_unforced fuel cl rq st st' r :
  forceRun rq = false → unforced st → runOcr fuel cl rq st = Some (st', r) → unforced st'.
Proof.
  revert rq st st' r. induction fuel as [|fuel IH]; intros rq st st' r Hf [Hp Ht]; [done|].
  runOcr_branches cl rq st.
  - by intros [= <- <-].
  - intros [= <- <-]. rewrite Hf. split; [|exact Ht]. by intros rq' [= <-].
  - intros [= <- <-]. split; [|exact Ht]. by intros rq' [= <-].
  - intros [= <- <-]. split.
    + cbn. rewrite started_refs. exact Hp.
    + cbn. by rewrite started_host.
  - rewrite finally_eq.
    assert (Hu : unforced (set_pendingRef None (idle (catch (pageNumber rq) err (started rq st))))).
    { split; [done|]. cbn. by rewrite started_host. }
    replace (pendingRef (st_refs (catch (pageNumber rq) err (started rq st))))
      with (pendingRef (st_refs st)) by (cbn; by rewrite started_refs).
    destruct (pendingRef (st_refs st)) as [p|] eqn:Hpe.
    + destruct (runOcr fuel cl p _) as [[st2 r2]|] eqn:H; [|done].
      intros [= <- <-]. eapply IH; [|exact Hu|exact H]. by apply Hp.
    + intros [= <- <-]. split.
      * intros rq'. cbn. rewrite started_refs. cbn. by rewrite Hpe.
      * cbn. by rewrite started_host.
Qed.

Lemma step_unforced ev st st' :
  (∀ cl rq, ev = RunOcr cl rq → forceRun rq = false) →
  unforced st → step ev st = Some st' → unforced st'.
Proof.
  intros Hev [Hp Ht] Hstep. step_cases ev Hstep.
  - destruct (runOcr depth cl rq st) as [[st1 r1]|] eqn:H; [|done].
    injection Hstep as <-. eapply runOcr_unforced; [|split; [exact Hp|exact Ht]|exact H].
    by apply (Hev cl).
  - destruct (recognizing (st_host st) !! i) as [a|] eqn:Ha;
      [|unfold resume_recognize in Hstep; by rewrite Ha in Hstep].
    rewrite (resume_recognize_eq _ _ _ _ Ha), finally_eq in Hstep.
    rewrite try_end_refs in Hstep. cbn [st_refs set_recognizing with_host] in Hstep.
    set (st1 := try_end a r _) in *.
    assert (Hu : unforced (set_pendingRef None (idle st1))).
    { split; [done|]. subst st1. cbn -[try_end]. by rewrite try_end_host. }
    destruct (pendingRef (st_refs st)) as [p|] eqn:Hpe.
    + destruct (runOcr depth _ p _) as [[st2 r2]|] eqn:H; [|done].
      injection Hstep as <-. eapply runOcr_unforced; [|exact Hu|exact H]. by apply Hp.
    + injection Hstep as <-. split.
      * subst st1. cbn -[try_end]. rewrite try_end_refs. cbn. by rewrite Hpe.
      * subst st1. cbn -[try_end]. by rewrite try_end_host.
  - injection Hstep as <-. unfold initWorker. by destruct (workerRef (st_refs st)).
  - unfold resume_terminate in Hstep.
    destruct (initializing (st_host st) !! i) as [[l|l]|]; [|done..].
    by injection Hstep as <-.
  - unfold resume_createWorker in Hstep.
    destruct (initializing (st_host st) !! i) as [[l|l]|]; [done| |done].
    destruct r as [w|err].
    + cbn [pendingRef st_refs] in Hstep. cbn in Hstep.
      destruct (pendingRef (st_refs st)) as [p|] eqn:Hpe; injection Hstep as <-.
      * split; [done|]. cbn. apply Forall_app. split; [exact Ht|].
        apply Forall_singleton. by apply Hp.
      * split; [|exact Ht]. cbn. by rewrite Hpe.
    + by injection Hstep as <-.
  - unfold timeout in Hstep. destruct (timeouts (st_host st) !! i) as [rq|] eqn:Hi; [|done].
    destruct (runOcr depth _ rq _) as [[st1 r1]|] eqn:H; [|done].
    injection Hstep as <-. eapply runOcr_unforced; [| |exact H].
    + by apply (Forall_lookup_1 _ _ _ _ Ht Hi).
    + split; [exact Hp|]. cbn. by apply Forall_delete.
  - injection Hstep as <-. unfold logger. by repeat case_match.
  - by injection Hstep as <-.
  - by injection Hstep as <-.
  - by injection Hstep as <-.
Qed.

(** X9. The application never asks for a forced run: whatever has
    happened since it was mounted, the request parked in [pendingRef] and
    the requests queued by [setTimeout] have [forceRun] false. *)
Theorem application_never_forces :
  ∀ a, App.reachable a → unforced (ocr a).
Proof.
  apply reachable_invariant; [by split|].
  intros ev a a' Hu Hstep.
  destruct (app_step_ocr _ _ _ Hstep) as [->|[->|[(hev & Hs & Hf)|[lang ->]]]]; try done.
  by apply (step_unforced hev (ocr a)).
Qed.

(** X4. The log never holds more than 50 lines, whatever the application
    has done since it was mounted. *)
Theorem log_never_exceeds_50 :
  ∀ a, App.reachable a → (length (ocrLog (st_store (ocr a))) ≤ 50)%nat.
Proof.
  apply (reachable_invariant (fun a => log_ok (ocr a))).
  - unfold log_ok. cbn. lia.
  - apply app_step_log_ok.
Qed.

Lemma viewer_stays_in_range_witness :
  view_ok (view (App.exec AppSample.leafed App.init))
  ∧ (let v := view (App.exec AppSample.opened App.init) in
     (safe_integer 7 ∧ safe_integer (useStore.totalPages v)
      ∧ useStore.currentPage (useStore.setCurrentPage 7 v) = 3)
     ∧ JS.of_Z (useStore.currentPage (useStore.setCurrentPage 7 v))
       = useStore.clampPage (JS.of_Z 7) (JS.of_Z (useStore.totalPages v))).
Proof.
  cbv zeta.
  destruct viewer_stays_in_range as (H0 & Hinv & Hint & _).
  assert (H7 : safe_integer 7) by (unfold safe_integer; lia).
  assert (H3 : safe_integer (useStore.totalPages (view (App.exec AppSample.opened App.init))))
    by (unfold safe_integer; vm_compute; split; reflexivity).
  split; [exact (Hinv App.init AppSample.leafed H0)|].
  split; [by split_and!|].
  exact (Hint 7 (view (App.exec AppSample.opened App.init)) H7 H3).
Defined.

Lemma application_never_forces_witness :
  unforced (ocr (App.exec AppSample.page1_drawn App.init)).
Proof. apply application_never_forces. by eexists. Defined.

Lemma log_never_exceeds_50_witness :
  (length (ocrLog (st_store (ocr (App.exec AppSample.page1_blank App.init)))) ≤ 50)%nat.
Proof. apply log_never_exceeds_50. by eexists. Defined.

(** ** The panel and the hook *)

Lemma triggerOcrForPage_hit r pn c a text :
  ocrCache_of (App.runOcr_of r)
    !! cacheKey (App.runOcr_of r) {| canvas := c; pageNumber := pn; zoom := App.zoom_of r;
                                     forceRun := false |} = Some text →
  App.triggerOcrForPage r pn (Some c) a
  = Some (with_ocr (addOcrLog ("OCR skipped — result cached for page " +:+ pretty pn)) a).
Proof.
  intros Hk. unfold App.triggerOcrForPage, depth.
  set (rq := {| canvas := c; pageNumber := pn; zoom := App.zoom_of r; forceRun := false |}) in *.
  by rewrite (runOcr_hit _ _ rq _ text eq_refl Hk).
Qed.

Lemma triggerOcrForPage_hit_aux r pn c a text :
  ocrCache_of (App.runOcr_of r)
    !! cacheKey (App.runOcr_of r) {| canvas := c; pageNumber := pn; zoom := App.zoom_of r;
                                     forceRun := false |} = Some text →
  canvasMapRef a !! pn = Some c →
  App.triggerOcrForPage r pn None a
  = Some (with_ocr (addOcrLog ("OCR skipped — result cached for page " +:+ pretty pn)) a).
Proof.
  intros Hk Hc. rewrite <- (triggerOcrForPage_hit r pn c a text Hk).
  unfold App.triggerOcrForPage. by rewrite Hc.
Qed.

(** X10. The "Re-run OCR" button of the panel does not run the engine
    again. Whenever the panel has a result for the page on display, the
    empty one included (the state in which the button reads "Re-run OCR"),
    pressing the button changes nothing but the log: nothing is handed to
    the engine, nothing is parked, and the cache, the text on display and
    the viewer stay as they are. *)
Theorem rerun_button_is_inert :
  ∀ a,
    OcrPanel.currentTextProcessed a = true →
    ∃ a',
      App.onRunOcr (App.render a) a = Some a'
      ∧ st_refs (ocr a') = st_refs (ocr a)
      ∧ st_host (ocr a') = st_host (ocr a)
      ∧ ocrCache (st_store (ocr a')) = ocrCache (st_store (ocr a))
      ∧ OcrPanel.currentText a' = OcrPanel.currentText a
      ∧ view a' = view a.
Proof.
  intros a Hp. apply bool_decide_eq_true in Hp as [text Hk].
  unfold App.onRunOcr.
  destruct (canvasMapRef a !! App.currentPage_of (App.render a)) as [c|] eqn:Hc;
    [|exists a; unfold App.triggerOcrForPage; by rewrite Hc].
  eexists. split; [exact (triggerOcrForPage_hit_aux (App.render a) _ c a text Hk Hc)|].
  by split_and!.
Qed.

Lemma rerun_button_is_inert_witness :
  let a := App.exec AppSample.page1_blank App.init in
  OcrPanel.showEmptyState OcrPanel.current [] a = true
  ∧ ∃ a',
      App.onRunOcr (App.render a) a = Some a'
      ∧ st_refs (ocr a') = st_refs (ocr a)
      ∧ st_host (ocr a') = st_host (ocr a)
      ∧ ocrCache (st_store (ocr a')) = ocrCache (st_store (ocr a))
      ∧ OcrPanel.currentText a' = OcrPanel.currentText a
      ∧ view a' = view a.
Proof.
  cbv zeta. split; [vm_compute; reflexivity|].
  apply rerun_button_is_inert. vm_compute; reflexivity.
Defined.

Lemma run_then_done st rq image text :
  consistent st →
  notReady st = false →
  isRunningRef (st_refs st) = false →
  cached (render st) rq = false →
  imageSource (canvas rq) = Normal image →
  ∃ st1 st2,
    runOcr depth (render st) rq st = Some (st1, Awaiting)
    ∧ recognized (st_host st1) = image :: recognized (st_host st)
    ∧ st_store st1 = st_store (started rq st)
    ∧ resume_recognize 0 (Normal text) st1 = Some (st2, Some (trim text))
    ∧ ocrCache (st_store st2) = <[cacheKey (render st) rq := trim text]> (ocrCache (st_store st))
    ∧ ocrLanguage (st_store st2) = ocrLanguage (st_store st)
    ∧ ocrLoading (st_store st2) = false.
Proof.
  intros (H1 & H2 & H3) Hn Hr Hk Hi.
  apply notReady_false in Hn as Hw. destruct Hw as [Hw _].
  specialize (H3 Hw Hr). rewrite Hr in H1.
  destruct (recognizing (st_host st)) eqn:Hl; [clear H1|done].
  set (a := {| rec_closure := render st; rec_cacheKey := cacheKey (render st) rq;
               rec_pageNumber := pageNumber rq |}).
  set (st1 := await_recognize a image (started rq st)).
  assert (recognizing (st_host st1) = [a]) as Hl1.
  { subst st1. cbn. by rewrite started_host, Hl. }
  set (st2 := idle (try_end a (Normal text) (set_recognizing [] st1))).
  exists st1, st2. split_and!.
  - unfold depth. rewrite runOcr_S, Hk, Hn, Hr, Hi. reflexivity.
  - subst st1. cbn. by rewrite started_host.
  - reflexivity.
  - rewrite (resume_recognize_eq 0 _ _ a) by (by rewrite Hl1).
    rewrite Hl1, finally_eq. cbn [delete list_delete].
    rewrite try_end_refs. subst st1. cbn. rewrite started_refs. cbn. rewrite H3.
    reflexivity.
  - subst st2. cbn -[try_end]. rewrite try_end_cache. subst st1. cbn.
    by rewrite started_cache.
  - subst st2. cbn -[try_end]. rewrite try_end_language. subst st1. cbn.
    by rewrite started_language.
  - reflexivity.
Qed.

(** X11. The panel shows what the hook has recognised. With the worker
    ready and idle, the page on display drawn and not yet processed,
    pressing the panel's button hands the page's image to the engine, the
    panel meanwhile being in its loading state; and when the engine returns
    a text, the panel has that text, trimmed, as the current page's: the
    key the panel reads is the key the hook has written. *)
Theorem panel_shows_recognised_text :
  ∀ a c image text,
    App.reachable a →
    notReady (ocr a) = false →
    isRunningRef (st_refs (ocr a)) = false →
    canvasMapRef a !! useStore.currentPage (view a) = Some c →
    imageSource c = Normal image →
    OcrPanel.currentTextProcessed a = false →
    ∃ a1 a2,
      App.onRunOcr (App.render a) a = Some a1
      ∧ recognized (st_host (ocr a1)) = image :: recognized (st_host (ocr a))
      ∧ ocrLoading (st_store (ocr a1)) = true
      ∧ OcrPanel.showEmptyState OcrPanel.current [] a1 = false
      ∧ App.step (App.Hook (Recognize 0 (Normal text))) a1 = Some a2
      ∧ OcrPanel.currentTextProcessed a2 = true
      ∧ OcrPanel.currentTextValue a2 = trim text
      ∧ ocrLoading (st_store (ocr a2)) = false.
Proof.
  intros a c image text Hreach Hn Hr Hc Hi Hp.
  apply app_reachable_consistent in Hreach.
  set (rq := {| canvas := c; pageNumber := useStore.currentPage (view a);
                zoom := useStore.zoom (view a); forceRun := false |}).
  assert (Hk : cached (render (ocr a)) rq = false).
  { apply cached_false_miss. apply bool_decide_eq_false in Hp.
    destruct (ocrCache_of _ !! _) eqn:E; [|done]. destruct Hp. by eexists. }
  destruct (run_then_done (ocr a) rq image text Hreach Hn Hr Hk Hi)
    as (st1 & st2 & Hrun & Hrec & Hstore & Hres & Hcache & Hlang & Hload).
  exists (with_ocr (fun _ => st1) a), (with_ocr (fun _ => st2) a).
  assert (Hkey : OcrPanel.cacheKey (with_ocr (fun _ => st2) a) = cacheKey (render (ocr a)) rq).
  { unfold OcrPanel.cacheKey, cacheKey. cbn. by rewrite Hlang. }
  split_and!.
  - unfold App.onRunOcr, App.triggerOcrForPage. cbn [App.render App.currentPage_of].
    rewrite Hc. change (App.runOcr_of (App.render a)) with (render (ocr a)).
    change (App.zoom_of (App.render a)) with (useStore.zoom (view a)).
    fold rq. by rewrite Hrun.
  - exact Hrec.
  - cbn. rewrite Hstore. unfold started. by destruct (forceRun rq).
  - unfold OcrPanel.showEmptyState. cbn [ocr with_ocr]. rewrite Hstore.
    unfold started. destruct (forceRun rq); cbn; by rewrite andb_false_r.
  - cbn [App.step step ocr with_ocr]. by rewrite Hres.
  - apply bool_decide_eq_true. unfold OcrPanel.currentText. rewrite Hkey.
    cbn [ocr with_ocr]. rewrite Hcache, lookup_insert_eq. by eexists.
  - unfold OcrPanel.currentTextValue, OcrPanel.currentText. rewrite Hkey.
    cbn [ocr with_ocr]. by rewrite Hcache, lookup_insert_eq.
  - exact Hload.
Qed.

Lemma panel_shows_recognised_text_witness :
  let a0 := App.exec AppSample.zoomed App.init in
  ∃ a1 a2,
    App.onRunOcr (App.render a0) a0 = Some a1
    ∧ recognized (st_host (ocr a1)) = Sample.page 1 :: recognized (st_host (ocr a0))
    ∧ ocrLoading (st_store (ocr a1)) = true
    ∧ OcrPanel.showEmptyState OcrPanel.current [] a1 = false
    ∧ App.step (App.Hook (Recognize 0 (Normal " Dear Sir "))) a1 = Some a2
    ∧ OcrPanel.currentTextProcessed a2 = true
    ∧ OcrPanel.currentTextValue a2 = trim " Dear Sir "
    ∧ ocrLoading (st_store (ocr a2)) = false.
Proof.
  cbv zeta.
  refine (panel_shows_recognised_text (App.exec AppSample.zoomed App.init)
            (Sample.page 1) (Sample.page 1) " Dear Sir " _ _ _ _ _ _).
  - by exists AppSample.zoomed.
  - vm_compute; reflexivity.
  - vm_compute; reflexivity.
  - vm_compute; reflexivity.
  - vm_compute; reflexivity.
  - vm_compute; reflexivity.
Defined.

(** ** The cache and the document *)

Lemma resume_recognize_cache i text st a :
  recognizing (st_host st) !! i = Some a →
  ∃ st',
    resume_recognize i (Normal text) st = Some (st', Some (trim text))
    ∧ ocrCache (st_store st') = <[rec_cacheKey a := trim text]> (ocrCache (st_store st))
    ∧ ocrLanguage (st_store st') = ocrLanguage (st_store st).
Proof.
  intros Ha.
  destruct (resume_recognize_completes i (Normal text) st a Ha)
    as (fin & _ & _ & _ & _ & _ & H).
  assert (∃ st', resume_recognize i (Normal text) st = Some (st', Some (trim text)))
    as [st' Hst'].
  { cbn [result_of] in H.
    destruct (pendingRef (st_refs st)); [destruct H as (st' & rp & _ & H)|]; eauto. }
  exists st'. split; [exact Hst'|].
  rewrite (resume_recognize_eq _ _ _ _ Ha) in Hst'.
  destruct (finally _ _) as [st1|] eqn:Hfin; [|done].
  injection Hst' as <-. apply finally_store in Hfin as [-> ->].
  by rewrite try_end_cache, try_end_language.
Qed.

(** X12. Opening another document empties the cache but does not stop the
    recognition in flight. When the engine returns, the text of the old
    document's page is stored under its key in the new cache, as its only
    entry; and when a page of the new document with that page number is
    drawn at that zoom, it is answered from the cache with the old
    document's text, its own image never reaching the engine. *)
Theorem recognition_outlives_document :
  ∀ a i rec text url,
    recognizing (st_host (ocr a)) !! i = Some rec →
    useStore.pdfUrl (view a) = Some url →
    url ≠ "" →
    let a1 := usePdfDocument.effect (usePdfDocument.cleanup a) in
    ocrCache (st_store (ocr a1)) = ∅
    ∧ ∃ a2,
        App.step (App.Hook (Recognize i (Normal text))) a1 = Some a2
        ∧ ocrCache (st_store (ocr a2)) = {[ rec_cacheKey rec := trim text ]}
        ∧ ∀ c pn,
            cacheKey (render (ocr a2))
              {| canvas := c; pageNumber := pn; zoom := useStore.zoom (view a2);
                 forceRun := false |} = rec_cacheKey rec →
            ∃ a3,
              App.handleCanvasReady (App.render a2) c pn a2 = Some a3
              ∧ recognized (st_host (ocr a3)) = recognized (st_host (ocr a2))
              ∧ recognizing (st_host (ocr a3)) = recognizing (st_host (ocr a2))
              ∧ ocrCache (st_store (ocr a3)) = {[ rec_cacheKey rec := trim text ]}.
Proof.
  intros a i rec text url Hrec Hurl Hne. cbv zeta.
  assert (Hocr : ocr (usePdfDocument.effect (usePdfDocument.cleanup a)) = clearOcrCache (ocr a)).
  { unfold usePdfDocument.effect. cbn [view usePdfDocument.cleanup usePdfDocument.set_loads
                                       with_documents].
    rewrite Hurl. rewrite bool_decide_eq_false_2 by exact Hne.
    unfold usePdfDocument.loadPdf. by case_match. }
  rewrite Hocr. split; [reflexivity|].
  destruct (resume_recognize_cache i text (clearOcrCache (ocr a)) rec Hrec)
    as (st' & Hres & Hcache & _).
  exists (with_ocr (fun _ => st') (usePdfDocument.effect (usePdfDocument.cleanup a))).
  split_and!.
  - cbn [App.step step]. by rewrite Hocr, Hres.
  - cbn [ocr with_ocr]. rewrite Hcache. reflexivity.
  - intros c pn Hk. cbn [ocr with_ocr] in *.
    unfold App.handleCanvasReady. erewrite triggerOcrForPage_hit.
    + eexists. split; [reflexivity|]. split_and!; [reflexivity..|].
      cbn [ocr with_ocr with_canvasMapRef addOcrLog set_ocrLog with_store st_store ocrCache].
      rewrite Hcache. reflexivity.
    + cbn [App.render App.runOcr_of App.zoom_of ocr with_ocr with_canvasMapRef view].
      cbn [view with_ocr] in Hk. rewrite Hk. cbn [render ocrCache_of].
      rewrite Hcache. apply lookup_insert_eq.
Qed.

Lemma recognition_outlives_document_witness :
  let a := App.exec AppSample.reopened App.init in
  let a1 := usePdfDocument.effect (usePdfDocument.cleanup a) in
  ocrCache (st_store (ocr a1)) = ∅
  ∧ ∃ a2,
      App.step (App.Hook (Recognize 0 (Normal "Annual report"))) a1 = Some a2
      ∧ ocrCache (st_store (ocr a2)) = {[ "1:1.00:eng" := trim "Annual report" ]}
      ∧ ∀ c pn,
          cacheKey (render (ocr a2))
            {| canvas := c; pageNumber := pn; zoom := useStore.zoom (view a2);
               forceRun := false |} = "1:1.00:eng" →
          ∃ a3,
            App.handleCanvasReady (App.render a2) c pn a2 = Some a3
            ∧ recognized (st_host (ocr a3)) = recognized (st_host (ocr a2))
            ∧ recognizing (st_host (ocr a3)) = recognizing (st_host (ocr a2))
            ∧ ocrCache (st_store (ocr a3)) = {[ "1:1.00:eng" := trim "Annual report" ]}.
Proof.
  cbv zeta.
  refine (recognition_outlives_document (App.exec AppSample.reopened App.init) 0
            {| rec_closure := render (ocr (App.exec AppSample.opened App.init));
               rec_cacheKey := "1:1.00:eng"; rec_pageNumber := 1 |}
            "Annual report" "blob:letter" _ _ _).
  - vm_compute; reflexivity.
  - vm_compute; reflexivity.
  - discriminate.
Defined.

(** ** Loading a document *)

(** The clean-up and the effect of usePdfDocument, for a URL that is set. *)
Lemma pdf_effect_eq a url :
  useStore.pdfUrl (view a) = Some url → url ≠ "" →
  let cancel := fun l => {| load_stage := load_stage l; cancelled := true |} in
  let a1 := usePdfDocument.effect (usePdfDocument.cleanup a) in
  view a1 = useStore.setPdfError None (useStore.setPdfLoading true (view a))
  ∧ ocr a1 = clearOcrCache (ocr a)
  ∧ canvasMapRef a1 = canvasMapRef a
  ∧ currentDocRef (documents a1) = currentDocRef (documents a)
  ∧ match currentDocRef (documents a) with
    | Some doc =>
        loads (documents a1)
          = ((cancel <$> loads (documents a))
             ++ [{| load_stage := Destroying; cancelled := false |}])%list
        ∧ destroyed (documents a1) = doc :: destroyed (documents a)
    | None =>
        loads (documents a1)
          = ((cancel <$> loads (documents a))
             ++ [{| load_stage := Loading; cancelled := false |}])%list
        ∧ destroyed (documents a1) = destroyed (documents a)
    end.
Proof.
  intros Hurl Hne. cbv zeta. unfold usePdfDocument.effect.
  cbn [view usePdfDocument.cleanup usePdfDocument.set_loads with_documents].
  rewrite Hurl, bool_decide_eq_false_2 by exact Hne.
  unfold usePdfDocument.loadPdf.
  cbn [documents with_ocr with_view currentDocRef].
  destruct (currentDocRef (documents a)) as [doc|] eqn:Hd; cbn; rewrite ?Hd; by split_and!.
Qed.

Lemma lookup_at_end {A} (l : list A) (x : A) : (l ++ [x])%list !! length l = Some x.
Proof. by rewrite lookup_app_r, Nat.sub_diag. Qed.

Lemma insert_at_end {A} (l : list A) (x y : A) :
  <[length l := y]> (l ++ [x])%list = (l ++ [y])%list.
Proof.
  rewrite insert_app_r_alt by lia. by rewrite Nat.sub_diag.
Qed.

Lemma delete_at_end {A} (l : list A) (x : A) : delete (length l) (l ++ [x])%list = l.
Proof. induction l as [|y l IH]; [done|]. cbn. f_equal. exact IH. Qed.

(** The run of a load: the effect, the settling of [destroy()] when there
    was a document to destroy, the settling of the loading task. *)
Lemma load_run a url r :
  useStore.pdfUrl (view a) = Some url → url ≠ "" →
  let n := length (loads (documents a)) in
  let cancel := fun l => {| load_stage := load_stage l; cancelled := true |} in
  let a2 := App.exec [App.PdfEffect; App.Destroyed n] a in
  App.exec [App.PdfEffect; App.Destroyed n; App.Loaded n r] a
    = default a2 (usePdfDocument.resume_load n r a2)
  ∧ view a2 = useStore.setPdfError None (useStore.setPdfLoading true (view a))
  ∧ ocr a2 = clearOcrCache (ocr a)
  ∧ currentDocRef (documents a2) = None
  ∧ loads (documents a2)
      = ((cancel <$> loads (documents a))
         ++ [{| load_stage := Loading; cancelled := false |}])%list
  ∧ destroyed (documents a2)
      = match currentDocRef (documents a) with
        | Some doc => doc :: destroyed (documents a)
        | None => destroyed (documents a)
        end.
Proof.
  intros Hurl Hne. cbv zeta.
  destruct (pdf_effect_eq a url Hurl Hne) as (Hv & Ho & _ & Hc & Hl).
  cbn [App.exec App.step default].
  set (a1 := usePdfDocument.effect (usePdfDocument.cleanup a)) in *.
  assert (Hn : length (loads (documents a))
               = length ((fun l => {| load_stage := load_stage l; cancelled := true |})
                           <$> loads (documents a))) by (by rewrite length_fmap).
  split; [reflexivity|].
  unfold usePdfDocument.resume_destroy, id.
  cbn [usePdfDocument.set_currentDocRef with_documents documents loads].
  destruct (currentDocRef (documents a)) as [doc|] eqn:Hd; destruct Hl as [Hl Hx].
  - rewrite Hl, Hn, lookup_at_end. cbn [default]. rewrite insert_at_end.
    cbn. by rewrite Hv, Ho, Hx.
  - rewrite Hl, Hn, lookup_at_end. cbn [default]. by rewrite Hv, Ho, Hc, Hl, Hx.
Qed.

(** X13. A load that succeeds makes its document the current one. From
    any state with a URL set, when the effect of usePdfDocument has run,
    [destroy()] of the document before (if there was one) has settled and
    the loading task is fulfilled with a document, the store holds that
    document, its page count as [totalPages], page 1 as the current page,
    no error, and is no longer loading; the ref holds the document, and the
    document before has been destroyed. *)
Theorem load_publishes_document :
  ∀ a url doc,
    useStore.pdfUrl (view a) = Some url →
    url ≠ "" →
    let n := length (loads (documents a)) in
    let a' := App.exec [App.PdfEffect; App.Destroyed n;
                        App.Loaded n (usePdfDocument.Fulfilled doc)] a in
    useStore.pdfDoc (view a') = Some doc
    ∧ useStore.totalPages (view a') = useStore.numPages doc
    ∧ useStore.currentPage (view a') = 1
    ∧ useStore.pdfError (view a') = None
    ∧ useStore.pdfLoading (view a') = false
    ∧ currentDocRef (documents a') = Some doc
    ∧ (∀ old, currentDocRef (documents a) = Some old → old ∈ destroyed (documents a'))
    ∧ Forall (fun l => cancelled l = true) (loads (documents a')).
Proof.
  intros a url doc Hurl Hne. cbv zeta.
  destruct (load_run a url (usePdfDocument.Fulfilled doc) Hurl Hne)
    as (-> & Hv & Ho & Hc & Hl & Hx).
  set (a2 := App.exec _ a) in *. clearbody a2.
  unfold usePdfDocument.resume_load. rewrite Hl.
  rewrite <- (length_fmap (fun l => {| load_stage := load_stage l; cancelled := true |})).
  rewrite lookup_at_end, delete_at_end. cbn.
  split_and!; try reflexivity.
  - by rewrite Hv.
  - intros old Hold. rewrite Hx, Hold. apply list_elem_of_here.
  - apply Forall_fmap, Forall_true. done.
Qed.

Lemma load_publishes_document_witness :
  let a := App.exec AppSample.reopened App.init in
  let n := length (loads (documents a)) in
  let a' := App.exec [App.PdfEffect; App.Destroyed n;
                      App.Loaded n (usePdfDocument.Fulfilled AppSample.letter)] a in
  useStore.pdfDoc (view a') = Some AppSample.letter
  ∧ useStore.totalPages (view a') = 1
  ∧ useStore.currentPage (view a') = 1
  ∧ useStore.pdfError (view a') = None
  ∧ useStore.pdfLoading (view a') = false
  ∧ currentDocRef (documents a') = Some AppSample.letter
  ∧ (∀ old, currentDocRef (documents a) = Some old → old ∈ destroyed (documents a'))
  ∧ Forall (fun l => cancelled l = true) (loads (documents a')).
Proof.
  cbv zeta.
  refine (load_publishes_document (App.exec AppSample.reopened App.init) "blob:letter"
            AppSample.letter _ _).
  - vm_compute; reflexivity.
  - discriminate.
Defined.

(** X14. A load that fails leaves the document before in the store
    although it has been destroyed. From any state with a URL set, when the
    effect of usePdfDocument has run, [destroy()] has settled, and the
    loading task is rejected, the store is no longer loading and shows the
    message of the rejection (none when the task is rejected with null or
    undefined), but [pdfDoc], [totalPages] and the current page are those
    of the document before, which is among the destroyed ones, while the
    ref holds no document. *)
Theorem failed_load_keeps_old_document :
  ∀ a url err,
    useStore.pdfUrl (view a) = Some url →
    url ≠ "" →
    let n := length (loads (documents a)) in
    let a' := App.exec [App.PdfEffect; App.Destroyed n;
                        App.Loaded n (usePdfDocument.Rejected err)] a in
    useStore.pdfDoc (view a') = useStore.pdfDoc (view a)
    ∧ useStore.totalPages (view a') = useStore.totalPages (view a)
    ∧ useStore.currentPage (view a') = useStore.currentPage (view a)
    ∧ useStore.pdfLoading (view a') = false
    ∧ useStore.pdfError (view a')
      = match err with
        | usePdfDocument.Nullish => None
        | usePdfDocument.Thrown name msg str => Some (usePdfDocument.message name msg str)
        end
    ∧ currentDocRef (documents a') = None
    ∧ (∀ old, currentDocRef (documents a) = Some old → old ∈ destroyed (documents a')).
Proof.
  intros a url err Hurl Hne. cbv zeta.
  destruct (load_run a url (usePdfDocument.Rejected err) Hurl Hne)
    as (-> & Hv & Ho & Hc & Hl & Hx).
  set (a2 := App.exec _ a) in *. clearbody a2.
  unfold usePdfDocument.resume_load. rewrite Hl.
  rewrite <- (length_fmap (fun l => {| load_stage := load_stage l; cancelled := true |})).
  rewrite lookup_at_end, delete_at_end. cbn.
  destruct err as [|name msg str]; cbn; rewrite ?Hv, ?Hc; split_and!; try reflexivity.
  all: intros old Hold; rewrite Hx, Hold; apply list_elem_of_here.
Qed.

Lemma failed_load_keeps_old_document_witness :
  let a := App.exec AppSample.reopened App.init in
  let err := usePdfDocument.Thrown (Some "InvalidPDFException")
               (Some "Invalid PDF structure.")
               "InvalidPDFException: Invalid PDF structure." in
  let n := length (loads (documents a)) in
  let a' := App.exec [App.PdfEffect; App.Destroyed n;
                      App.Loaded n (usePdfDocument.Rejected err)] a in
  useStore.pdfDoc (view a') = useStore.pdfDoc (view a)
  ∧ useStore.totalPages (view a') = useStore.totalPages (view a)
  ∧ useStore.currentPage (view a') = useStore.currentPage (view a)
  ∧ useStore.pdfLoading (view a') = false
  ∧ useStore.pdfError (view a') = Some "This file is not a valid PDF or is corrupted."
  ∧ currentDocRef (documents a') = None
  ∧ (∀ old, currentDocRef (documents a) = Some old → old ∈ destroyed (documents a')).
Proof.
  cbv zeta.
  refine (failed_load_keeps_old_document (App.exec AppSample.reopened App.init)
            "blob:letter"
            (usePdfDocument.Thrown (Some "InvalidPDFException")
               (Some "Invalid PDF structure.")
               "InvalidPDFException: Invalid PDF structure.") _ _).
  - vm_compute; reflexivity.
  - discriminate.
Defined.

(** ** Arithmetic with zero *)

Lemma finite_Prim2SF x :
  PrimFloat.is_finite x = true →
  (∃ s, Prim2SF x = S754_zero s) ∨ (∃ s m e, Prim2SF x = S754_finite s m e).
Proof.
  unfold PrimFloat.is_finite, PrimFloat.is_nan, PrimFloat.is_infinity.
  rewrite !FloatAxioms.eqb_spec, FloatAxioms.abs_spec. unfold SFeqb.
  destruct (Prim2SF x) as [s|s| |s m e]; cbn; eauto; try done.
  by rewrite orb_true_r.
Qed.

Lemma finite_not_nan x : PrimFloat.is_finite x = true → PrimFloat.is_nan x = false.
Proof. unfold PrimFloat.is_finite. by destruct (PrimFloat.is_nan x). Qed.

Lemma sub_self t : PrimFloat.is_finite t = true → Prim2SF (t - t) = S754_zero false.
Proof.
  intros H. rewrite FloatAxioms.sub_spec. unfold SF64sub.
  destruct (finite_Prim2SF t H) as [[s ->]|(s & m & e & ->)].
  - by destruct s.
  - cbn. by rewrite Z.sub_diag.
Qed.

Lemma div_zero x s : Prim2SF x = S754_zero s → Prim2SF (x / 1000) = S754_zero s.
Proof.
  intros H. rewrite FloatAxioms.div_spec, H. unfold SF64div. cbn. by destruct s.
Qed.

Lemma mul_zero x z s :
  PrimFloat.is_finite x = true → Prim2SF z = S754_zero s → ∃ s', Prim2SF (x * z) = S754_zero s'.
Proof.
  intros H Hz. rewrite FloatAxioms.mul_spec, Hz. unfold SF64mul.
  destruct (finite_Prim2SF x H) as [[sx ->]|(sx & m & e & ->)]; cbn; eauto.
Qed.

Lemma add_zero x z s :
  PrimFloat.is_nan x = false → Prim2SF z = S754_zero s → PrimFloat.eqb (x + z) x = true.
Proof.
  intros H Hz. apply is_nan_Prim2SF in H. rewrite FloatAxioms.eqb_spec, FloatAxioms.add_spec, Hz.
  unfold SF64add, SFeqb.
  destruct (Prim2SF x) as [sx|sx| |sx m e]; [| |done|].
  - by destruct sx, s.
  - by destruct sx.
  - cbn. destruct sx; rewrite Z.compare_refl, Pos.compare_cont_refl; reflexivity.
Qed.

(** ** Auto-scroll *)

Lemma first_frame_offset speed dir timestamp :
  PrimFloat.is_finite speed = true →
  PrimFloat.is_finite timestamp = true →
  PrimFloat.is_finite dir = true →
  ∃ s, Prim2SF (dir * (speed * ((timestamp - timestamp) / 1000))) = S754_zero s.
Proof.
  intros Hs Ht Hd.
  destruct (mul_zero speed _ _ Hs (div_zero _ _ (sub_self _ Ht))) as [s1 H1].
  by apply (mul_zero dir _ s1).
Qed.

Lemma filter_other_elem (id j : nat) (l : list nat) :
  j ∈ List.filter (fun i => negb (Nat.eqb i id)) l ↔ j ∈ l ∧ j ≠ id.
Proof.
  rewrite !list_elem_of_In, List.filter_In, negb_true_iff, Nat.eqb_neq. done.
Qed.

(** The effects of the commit in which scrolling has been switched on. *)
Lemma effects_start a :
  useStore.isScrolling (view a) = true →
  isScrollingRef (scrolling a) = false →
  let a1 := useAutoScroll.effects a in
  rafRef (scrolling a1) = Some (next_frame (scrolling a))
  ∧ isScrollingRef (scrolling a1) = true
  ∧ lastTimeRef (scrolling a1) = None
  ∧ speedRef (scrolling a1) = useStore.scrollSpeed (view a)
  ∧ directionRef (scrolling a1) = useStore.scrollDirection (view a)
  ∧ scrollContainerRef a1 = scrollContainerRef a
  ∧ view a1 = view a
  ∧ ∃ old, frames (scrolling a1) = (old ++ [next_frame (scrolling a)])%list
           ∧ ∀ j, j ∈ old → j ∈ frames (scrolling a).
Proof.
  intros Hon Href. cbv zeta. unfold useAutoScroll.effects. rewrite Hon, Href. cbn [Bool.eqb].
  unfold useAutoScroll.effect, useAutoScroll.cancel.
  destruct (rafRef (scrolling a)) as [old|]; cbn; rewrite Hon; cbn;
    (split_and!; try done); eexists; (split; [reflexivity|]).
  - intros j. rewrite filter_other_elem. by intros [? _].
  - done.
Qed.

(** X15. Auto-scroll stops on its first animation frame. When scrolling
    has been switched on and the effects of useAutoScroll have run, the
    first frame the host delivers finds no time elapsed (it takes its own
    time stamp as the time of the frame before), asks the container to move
    by zero pixels, finds its position unchanged, and takes that for the
    end of the document: it switches scrolling off again and asks for no
    further frame. This is so for every finite speed and time stamp and
    either direction, for a container that stays where it is when told to
    scroll to where it is. *)
Theorem autoscroll_stops_at_first_frame :
  ∀ a c timestamp,
    scrollContainerRef a = Some c →
    useStore.isScrolling (view a) = true →
    isScrollingRef (scrolling a) = false →
    PrimFloat.is_finite (useStore.scrollSpeed (view a)) = true →
    PrimFloat.is_finite timestamp = true →
    PrimFloat.is_nan (scrollTop c) = false →
    (∀ v, PrimFloat.eqb v (scrollTop c) = true →
          PrimFloat.eqb (scrolled c v) (scrollTop c) = true) →
    let a1 := useAutoScroll.effects a in
    let id := next_frame (scrolling a) in
    rafRef (scrolling a1) = Some id
    ∧ isScrollingRef (scrolling a1) = true
    ∧ ∃ a2 c2,
        useAutoScroll.frame id timestamp a1 = Some a2
        ∧ useStore.isScrolling (view a2) = false
        ∧ scrollContainerRef a2 = Some c2
        ∧ PrimFloat.eqb (scrollTop c2) (scrollTop c) = true
        ∧ (id ∉ frames (scrolling a2))
        ∧ (∀ j, j ∈ frames (scrolling a2) → j ∈ frames (scrolling a)).
Proof.
  intros a c timestamp Hc Hon Href Hspeed Ht Htop Hhost. cbv zeta.
  destruct (effects_start a Hon Href) as (Hraf & Hsref & Hlast & Hsp & Hd & Hcont & Hview & Hfr).
  set (a1 := useAutoScroll.effects a) in *. clearbody a1.
  split; [exact Hraf|]. split; [exact Hsref|].
  unfold useAutoScroll.frame. destruct Hfr as (old & Hfr & Hold).
  rewrite Hfr, bool_decide_eq_true_2 by (apply elem_of_app; right; apply list_elem_of_here).
  set (a1' := useAutoScroll.set_frames _ _ a1).
  assert (Hdir : PrimFloat.is_finite
                   (if bool_decide (directionRef (scrolling a1') = "up")
                    then (-1)%float else 1%float) = true) by (by case_match).
  destruct (first_frame_offset (speedRef (scrolling a1')) _ timestamp
              ltac:(subst a1'; cbn; by rewrite Hsp) Ht Hdir) as [s Hz].
  pose proof (Hhost _ (add_zero (scrollTop c) _ s Htop Hz)) as Hstay.
  eexists _, _. split; [reflexivity|].
  unfold useAutoScroll.step.
  replace (isScrollingRef (scrolling a1')) with true by (subst a1'; cbn; by rewrite Hsref).
  replace (scrollContainerRef a1') with (Some c) by (subst a1'; cbn; by rewrite Hcont, Hc).
  replace (lastTimeRef (scrolling a1')) with (@None float) by (subst a1'; cbn; by rewrite Hlast).
  cbn [negb default scrollTop scrolled].
  cbn [useAutoScroll.set_lastTimeRef with_scrolling scrolling speedRef directionRef].
  rewrite Hstay. cbn.
  split_and!; try reflexivity.
  - exact Hstay.
  - rewrite filter_other_elem. by intros [_ ?].
  - intros j. rewrite filter_other_elem, elem_of_app. intros [[Hj|Hj] Hne].
    + by apply Hold.
    + by apply list_elem_of_singleton in Hj.
Qed.

Lemma eqb_finite x y s m e :
  Prim2SF y = S754_finite s m e → PrimFloat.eqb x y = true → x = y.
Proof.
  intros Hy. rewrite FloatAxioms.eqb_spec, Hy. unfold SFeqb. intros H.
  apply Prim2SF_inj. rewrite Hy.
  destruct (Prim2SF x) as [sx|sx| |sx mx ex]; cbn in H; try done; try (by destruct s);
    try (by destruct sx).
  assert (sx = s ∧ ex = e ∧ mx = m) as (-> & -> & ->); [|done].
  destruct sx, s; try done;
    (destruct (ex ?= e) eqn:He; try done; apply Z.compare_eq in He;
     destruct (Pos.compare_cont Eq mx m) eqn:Hm; try done; apply Pos.compare_eq in Hm; done).
Qed.

Lemma autoscroll_stops_at_first_frame_witness :
  let a := App.exec AppSample.playing App.init in
  let a1 := useAutoScroll.effects a in
  let id := next_frame (scrolling a) in
  rafRef (scrolling a1) = Some id
  ∧ isScrollingRef (scrolling a1) = true
  ∧ ∃ a2 c2,
      useAutoScroll.frame id 1000 a1 = Some a2
      ∧ useStore.isScrolling (view a2) = false
      ∧ scrollContainerRef a2 = Some c2
      ∧ PrimFloat.eqb (scrollTop c2) (scrollTop AppSample.pane) = true
      ∧ (id ∉ frames (scrolling a2))
      ∧ (∀ j, j ∈ frames (scrolling a2) → j ∈ frames (scrolling a)).
Proof.
  cbv zeta.
  refine (autoscroll_stops_at_first_frame (App.exec AppSample.playing App.init)
            AppSample.pane 1000 _ _ _ _ _ _ _).
  - vm_compute; reflexivity.
  - vm_compute; reflexivity.
  - vm_compute; reflexivity.
  - vm_compute; reflexivity.
  - vm_compute; reflexivity.
  - vm_compute; reflexivity.
  - intros v Hv. apply (eqb_finite v _ false 8444249301319680 (-46)) in Hv as ->;
      vm_compute; reflexivity.
Defined.

(** ** Cache keys, read back *)

Lemma digit_pretty_N_char d :
  (d < 10)%N → JSString.digit (pretty_N_char d) = Some (Z.of_N d).
Proof.
  intros H.
  assert (d = 0 ∨ d = 1 ∨ d = 2 ∨ d = 3 ∨ d = 4 ∨ d = 5 ∨ d = 6 ∨ d = 7 ∨ d = 8 ∨ d = 9)%N
    as Hd by lia.
  destruct Hd as [->|[->|[->|[->|[->|[->|[->|[->|[->| ->]]]]]]]]]; reflexivity.
Qed.

Lemma pretty_N_char_not_colon d : pretty_N_char d ≠ ":"%char.
Proof. unfold pretty_N_char. by repeat case_match. Qed.

(** Reading the digits [pretty] has written gives the number back. *)
Lemma digits_pretty_N_go x s :
  JSString.digits 0 (pretty_N_go x s) = JSString.digits (Z.of_N x) s.
Proof.
  revert s. induction (N.lt_wf_0 x) as [x _ IH]; intros s.
  assert (x = 0 ∨ 0 < x)%N as [->|Hx] by lia; [by rewrite pretty_N_go_0|].
  rewrite pretty_N_go_step by done. rewrite IH by (by apply N.div_lt).
  cbn [JSString.digits]. rewrite digit_pretty_N_char by (by apply N.mod_lt).
  f_equal. rewrite (N.div_mod x 10) at 3 by done. lia.
Qed.

Lemma split_head_pretty_N_go x s :
  JSString.split_head ":" (pretty_N_go x s) = pretty_N_go x (JSString.split_head ":" s).
Proof.
  revert s. induction (N.lt_wf_0 x) as [x _ IH]; intros s.
  assert (x = 0 ∨ 0 < x)%N as [->|Hx] by lia; [by rewrite !pretty_N_go_0|].
  rewrite (pretty_N_go_step x s), (pretty_N_go_step x (JSString.split_head ":" s)) by done.
  rewrite IH by (by apply N.div_lt).
  cbn [JSString.split_head].
  by rewrite bool_decide_eq_false_2 by apply pretty_N_char_not_colon.
Qed.

Lemma append_assoc (s1 s2 s3 : string) : (s1 +:+ s2) +:+ s3 = s1 +:+ (s2 +:+ s3).
Proof.
  induction s1 as [|a s1 IH]; [done|].
  change (String a ((s1 +:+ s2) +:+ s3) = String a (s1 +:+ (s2 +:+ s3))). by rewrite IH.
Qed.

Lemma pretty_N_go_app x s : pretty_N_go x s = pretty_N_go x "" +:+ s.
Proof.
  revert s. induction (N.lt_wf_0 x) as [x _ IH]; intros s.
  assert (x = 0 ∨ 0 < x)%N as [->|Hx] by lia; [by rewrite !pretty_N_go_0|].
  rewrite (pretty_N_go_step x s), (pretty_N_go_step x "") by done.
  rewrite (IH _ (N.div_lt x 10 Hx eq_refl) (String _ s)).
  rewrite (IH _ (N.div_lt x 10 Hx eq_refl) (String _ "")).
  by rewrite append_assoc.
Qed.

(** A positive number is printed with a digit first. *)
Lemma pretty_N_go_head x s :
  (0 < x)%N → ∃ c s', pretty_N_go x s = String c s' ∧ is_Some (JSString.digit c).
Proof.
  revert s. induction (N.lt_wf_0 x) as [x _ IH]; intros s Hx.
  rewrite pretty_N_go_step by done.
  destruct (N.eq_0_gt_0_cases (x `div` 10)) as [->|Hd].
  - rewrite pretty_N_go_0. eexists _, _. split; [reflexivity|].
    rewrite digit_pretty_N_char by (by apply N.mod_lt). by eexists.
  - apply IH; [by apply N.div_lt|done].
Qed.

Lemma trimStart_digit c s :
  is_Some (JSString.digit c) ∨ c = "-"%char → trimStart (String c s) = String c s.
Proof.
  intros H.
  assert (Hc : ws1 c = false ∧ (∀ b, ws2 c b = false) ∧ (∀ b d, ws3 c b d = false)).
  { destruct H as [[d H]| ->]; [|by split_and!].
    unfold JSString.digit in H. destruct (_ && _)%N eqn:E in H; [|done].
    apply andb_true_iff in E as [E1 E2].
    apply N.leb_le in E1, E2. unfold ws1, ws2, ws3. split_and!.
    - apply orb_false_intro; [apply andb_false_intro2|]; [apply N.leb_gt|apply N.eqb_neq]; lia.
    - intros b. apply andb_false_intro1, N.eqb_neq. lia.
    - intros b e.
      repeat (apply orb_false_intro); repeat (apply andb_false_intro1);
        apply N.eqb_neq; lia. }
  destruct Hc as (H1 & H2 & H3). cbn [trimStart]. rewrite H1.
  destruct s as [|b s]; [done|]. rewrite H2. destruct s as [|d s]; [done|]. by rewrite H3.
Qed.

Lemma parseInt_pretty (z : Z) : JSString.parseInt (pretty z) = Some z.
Proof.
  unfold JSString.parseInt.
  destruct z as [|p|p].
  - reflexivity.
  - change (pretty (Z.pos p)) with (pretty_N_go (N.pos p) "").
    destruct (pretty_N_go_head (N.pos p) "" eq_refl) as (c & s' & Hs & [d Hd]).
    rewrite Hs, trimStart_digit by (left; by eexists).
    assert (c ≠ "-"%char ∧ c ≠ "+"%char) as [H1 H2].
    { split; intros ->; vm_compute in Hd; done. }
    replace (match String c s' with
             | String "-" s1 => (-1, s1) | String "+" s1 => (1, s1) | _ => (1, String c s')
             end) with (1, String c s').
    2:{ destruct c as [[] [] [] [] [] [] [] []]; try done. }
    rewrite Hd, <- Hs, digits_pretty_N_go. cbn. first [done | f_equal; lia].
  - change (pretty (Z.neg p)) with (String "-" (pretty_N_go (N.pos p) "")).
    rewrite trimStart_digit by (by right).
    destruct (pretty_N_go_head (N.pos p) "" eq_refl) as (c & s' & Hs & [d Hd]).
    rewrite Hs, Hd, <- Hs, digits_pretty_N_go. cbn. first [done | f_equal; lia].
Qed.

Lemma split_head_pretty (z : Z) rest :
  JSString.split_head ":" (pretty z +:+ ":" +:+ rest) = pretty z.
Proof.
  assert (H : ∀ x, JSString.split_head ":" (pretty_N_go x "" +:+ ":" +:+ rest)
                   = pretty_N_go x "").
  { intros x. rewrite <- pretty_N_go_app, split_head_pretty_N_go. reflexivity. }
  destruct z as [|p|p].
  - reflexivity.
  - apply (H (N.pos p)).
  - change (pretty (Z.neg p) +:+ ":" +:+ rest)
      with (String "-" (pretty_N_go (N.pos p) "" +:+ ":" +:+ rest)).
    change (pretty (Z.neg p)) with (String "-" (pretty_N_go (N.pos p) "")).
    cbn [JSString.split_head]. rewrite bool_decide_eq_false_2 by done.
    f_equal. apply (H (N.pos p)).
Qed.

(** X16. The page number can be read back from a cache key. For every
    key the hook builds for an integer page number of magnitude below 2^53
    (where a number prints as its digits), what stands before the first
    colon is the page number as printed, and [parseInt] of it is the page
    number, negative ones and zero included. This is the number the "all
    pages" tab sorts by and the label it prints. The zoom and the language
    play no part: the printed page number has no colon in it. *)
Theorem page_read_back_from_key :
  ∀ cl rq,
    safe_integer (pageNumber rq) →
    JSString.split_head ":" (cacheKey cl rq) = pretty (pageNumber rq)
    ∧ OcrPanel.page_of (cacheKey cl rq) = Some (pageNumber rq).
Proof.
  intros cl rq _. unfold OcrPanel.page_of, cacheKey.
  assert (H : JSString.split_head ":"
                (pretty (pageNumber rq) +:+ ":" +:+ toFixed2 (zoom rq) +:+ ":" +:+ ocrLanguage_of cl)
              = pretty (pageNumber rq)).
  { apply split_head_pretty. }
  rewrite H. split; [reflexivity|apply parseInt_pretty].
Qed.

Lemma page_read_back_from_key_witness :
  let cl := render (init "chi_sim") in
  let rq := {| canvas := Sample.page 12; pageNumber := 12; zoom := 1.5; forceRun := false |} in
  safe_integer (pageNumber rq)
  ∧ cacheKey cl rq = "12:1.50:chi_sim"
  ∧ JSString.split_head ":" (cacheKey cl rq) = "12"
  ∧ OcrPanel.page_of (cacheKey cl rq) = Some 12.
Proof.
  cbv zeta.
  assert (Hs : safe_integer 12) by (unfold safe_integer; lia).
  split; [exact Hs|]. split; [reflexivity|].
  refine (page_read_back_from_key (render (init "chi_sim"))
            {| canvas := Sample.page 12; pageNumber := 12; zoom := 1.5; forceRun := false |} _).
  exact Hs.
Defined.

Lemma endsWith_spec s t : JSString.endsWith s t = true ↔ ∃ pre, s = pre +:+ t.
Proof.
  induction s as [|a s IH]; cbn [JSString.endsWith].
  - rewrite orb_false_r, bool_decide_eq_true. split.
    + intros <-. by exists "".
    + intros [[|b pre] H]; [done|discriminate H].
  - rewrite orb_true_iff, bool_decide_eq_true, IH. split.
    + intros [<-|[pre ->]]; [by exists ""|by exists (String a pre)].
    + intros [[|b pre] H]; [by left|]. injection H as -> ->. right. by eexists.
Qed.

Lemma has_colon_app x y : has_colon (x +:+ String ":" y) = true.
Proof.
  induction x as [|a x IH]; [done|].
  change (has_colon (String a (x +:+ String ":" y)) = true). cbn [has_colon].
  by rewrite IH, orb_true_r.
Qed.

(** What stands behind the last colon of a string is determined by it. *)
Lemma last_colon pre pre' x y :
  has_colon x = false → has_colon y = false →
  pre +:+ String ":" x = pre' +:+ String ":" y → x = y.
Proof.
  intros Hx Hy. revert pre'. induction pre as [|a pre IH]; intros [|b pre'] H;
    change (String ?c ?s +:+ ?t) with (String c (s +:+ t)) in H;
    change ("" +:+ ?t) with t in H.
  - by injection H.
  - injection H as _ ->. by rewrite has_colon_app in Hx.
  - injection H as _ <-. by rewrite has_colon_app in Hy.
  - injection H as _ H. by apply (IH pre').
Qed.

(** X17. The "all pages" tab tells the languages apart by the end of the
    key. For languages that have no colon in their code (those of the
    selector have none), a key the hook has built ends with a colon and
    the selected language exactly when it was built for that language. *)
Theorem key_ends_with_its_language :
  ∀ cl rq lang,
    has_colon (ocrLanguage_of cl) = false →
    has_colon lang = false →
    JSString.endsWith (cacheKey cl rq) (":" +:+ lang) = bool_decide (ocrLanguage_of cl = lang).
Proof.
  intros cl rq lang Hl Hlang. unfold cacheKey.
  set (pre := pretty (pageNumber rq) +:+ ":" +:+ toFixed2 (zoom rq)).
  assert (Hk : pretty (pageNumber rq) +:+ ":" +:+ toFixed2 (zoom rq) +:+ ":" +:+ ocrLanguage_of cl
               = pre +:+ ":" +:+ ocrLanguage_of cl).
  { subst pre. by rewrite !append_assoc. }
  rewrite Hk. destruct (bool_decide (ocrLanguage_of cl = lang)) eqn:E.
  - apply bool_decide_eq_true in E as <-. apply endsWith_spec. by exists pre.
  - apply bool_decide_eq_false in E. apply not_true_is_false. intros H.
    apply endsWith_spec in H as [pre' H]. apply E.
    by apply (last_colon pre pre').
Qed.

Lemma key_ends_with_its_language_witness :
  JSString.endsWith (cacheKey (render (init "chi_sim")) (Sample.ask 3 false)) (":" +:+ "sim")
  = bool_decide ("chi_sim" = "sim").
Proof.
  refine (key_ends_with_its_language (render (init "chi_sim")) (Sample.ask 3 false) "sim" _ _).
  - vm_compute; reflexivity.
  - vm_compute; reflexivity.
Defined.

(** ** The "all pages" tab *)

Lemma insert_perm {A} (cmp : A → A → Z) x l : JSString.insert cmp x l ≡ₚ x :: l.
Proof.
  induction l as [|y l IH]; [done|]. cbn [JSString.insert].
  destruct (cmp x y <=? 0); [done|]. rewrite IH. apply Permutation_swap.
Qed.

Lemma sort_perm {A} (cmp : A → A → Z) l : JSString.sort cmp l ≡ₚ l.
Proof.
  induction l as [|x l IH]; [done|].
  unfold JSString.sort. cbn [foldr]. fold (JSString.sort cmp l).
  by rewrite insert_perm, IH.
Qed.

Lemma by_page_le x y :
  is_Some (OcrPanel.page_of x.1) → is_Some (OcrPanel.page_of y.1) →
  (OcrPanel.by_page x y <=? 0) = true ↔ page_le x y.
Proof.
  intros [px Hx] [py Hy]. unfold OcrPanel.by_page, page_le. rewrite Hx, Hy, Z.leb_le.
  split.
  - intros H. exists px, py. split_and!; try done. lia.
  - intros (a & b & [= <-] & [= <-] & H). lia.
Qed.

Lemma page_le_trans x y z : page_le x y → page_le y z → page_le x z.
Proof.
  intros (a & b & Ha & Hb & H1) (b' & c & Hb' & Hc & H2).
  rewrite Hb in Hb'. injection Hb' as <-. exists a, c. split_and!; try done. lia.
Qed.

Lemma insert_sorted x l :
  is_Some (OcrPanel.page_of x.1) →
  Forall (fun e => is_Some (OcrPanel.page_of e.1)) l →
  StronglySorted page_le l →
  StronglySorted page_le (JSString.insert OcrPanel.by_page x l).
Proof.
  intros Hx Hl Hs. induction Hs as [|y l Hs IH Hy].
  - repeat constructor.
  - apply Forall_cons in Hl as [Hpy Hl]. cbn [JSString.insert].
    destruct (OcrPanel.by_page x y <=? 0) eqn:E.
    + apply by_page_le in E; [|done..]. constructor; [by constructor|].
      constructor; [done|]. eapply Forall_impl; [exact Hy|].
      intros z Hz. by apply (page_le_trans x y z).
    + constructor; [by apply IH|].
      rewrite insert_perm. constructor; [|done].
      destruct Hx as [px Hx], Hpy as [py Hpy].
      unfold OcrPanel.by_page in E. rewrite Hx, Hpy in E. apply Z.leb_gt in E.
      exists py, px. split_and!; try done. lia.
Qed.

Lemma sort_sorted l :
  Forall (fun e => is_Some (OcrPanel.page_of e.1)) l →
  StronglySorted page_le (JSString.sort OcrPanel.by_page l).
Proof.
  induction l as [|x l IH]; intros Hl; [constructor|].
  apply Forall_cons in Hl as [Hx Hl].
  unfold JSString.sort. cbn [foldr]. fold (JSString.sort OcrPanel.by_page l).
  apply insert_sorted; [done| |by apply IH].
  by rewrite sort_perm.
Qed.

(** X18. The "all pages" tab lists the cached results of the selected
    language in the order of their page numbers, read as numbers (page 10
    after page 9). Whatever the order in which the cache enumerates its
    entries, when every key starts with a page number (every key the hook
    builds does), the entries shown are those whose key ends with a colon
    and the language, each as often as the cache has it, and each one's
    page number is at most that of every one shown after it. *)
Theorem all_pages_in_page_order :
  ∀ entries lang,
    Forall (fun e => is_Some (OcrPanel.page_of e.1)) entries →
    OcrPanel.shown entries lang
      ≡ₚ List.filter (fun e => JSString.endsWith e.1 (":" +:+ lang)) entries
    ∧ StronglySorted page_le (OcrPanel.shown entries lang).
Proof.
  intros entries lang H. unfold OcrPanel.shown. split; [apply sort_perm|].
  apply sort_sorted. apply Forall_forall. intros e He.
  apply list_elem_of_In, List.filter_In in He as [He _].
  rewrite Forall_forall in H. by apply H, list_elem_of_In.
Qed.

Lemma all_pages_in_page_order_witness :
  let entries := [("10:1.00:eng", "ten"); ("9:1.00:eng", "nine"); ("3:1.00:fra", "trois");
                  ("9:2.00:eng", "nine, larger")] in
  OcrPanel.shown entries "eng"
    ≡ₚ List.filter (fun e => JSString.endsWith e.1 (":" +:+ "eng")) entries
  ∧ StronglySorted page_le (OcrPanel.shown entries "eng").
Proof.
  cbv zeta.
  refine (all_pages_in_page_order
            [("10:1.00:eng", "ten"); ("9:1.00:eng", "nine"); ("3:1.00:fra", "trois");
             ("9:2.00:eng", "nine, larger")] "eng" _).
  repeat constructor; by eexists.
Defined.

Lemma effect_loads a :
  ∃ new, loads (documents (usePdfDocument.effect (usePdfDocument.cleanup a)))
         = (((fun l => {| load_stage := load_stage l; cancelled := true |})
               <$> loads (documents a)) ++ new)%list.
Proof.
  unfold usePdfDocument.effect, usePdfDocument.loadPdf.
  repeat case_match; cbn; first [by eexists [_] | exists []; by rewrite app_nil_r].
Qed.

(** X19. A load that has been superseded publishes nothing. Once the
    effect of usePdfDocument has run again (the URL has changed, or has
    been cleared), a load still waiting for its loading task is cancelled:
    when the task settles, with a document or with an error, the store, the
    OCR state and [currentDocRef] stay as they are, and a document that
    arrives is destroyed at once. *)
Theorem superseded_load_is_dropped :
  ∀ a i l r,
    loads (documents a) !! i = Some l →
    load_stage l = Loading →
    let a1 := usePdfDocument.effect (usePdfDocument.cleanup a) in
    ∃ a2,
      usePdfDocument.resume_load i r a1 = Some a2
      ∧ view a2 = view a1
      ∧ ocr a2 = ocr a1
      ∧ currentDocRef (documents a2) = currentDocRef (documents a1)
      ∧ destroyed (documents a2)
        = match r with
          | usePdfDocument.Fulfilled doc => doc :: destroyed (documents a1)
          | usePdfDocument.Rejected _ => destroyed (documents a1)
          end.
Proof.
  intros a i l r Hi Hl. cbv zeta.
  destruct (effect_loads a) as [new Hnew].
  set (a1 := usePdfDocument.effect (usePdfDocument.cleanup a)) in *. clearbody a1.
  unfold usePdfDocument.resume_load. rewrite Hnew.
  rewrite lookup_app_l by (rewrite length_fmap; by eapply lookup_lt_Some).
  rewrite list_lookup_fmap, Hi. cbn. rewrite Hl.
  destruct r as [doc|err]; eexists; (split; [reflexivity|]); by split_and!.
Qed.

Lemma superseded_load_is_dropped_witness :
  let a := App.exec (AppSample.reopened ++ [App.PdfEffect; App.Destroyed 0]) App.init in
  let a1 := usePdfDocument.effect (usePdfDocument.cleanup a) in
  ∃ a2,
    usePdfDocument.resume_load 0 (usePdfDocument.Fulfilled AppSample.letter) a1 = Some a2
    ∧ view a2 = view a1
    ∧ ocr a2 = ocr a1
    ∧ currentDocRef (documents a2) = currentDocRef (documents a1)
    ∧ destroyed (documents a2) = AppSample.letter :: destroyed (documents a1).
Proof.
  cbv zeta.
  refine (superseded_load_is_dropped
            (App.exec (AppSample.reopened ++ [App.PdfEffect; App.Destroyed 0]) App.init) 0
            {| load_stage := Loading; cancelled := false |}
            (usePdfDocument.Fulfilled AppSample.letter) _ _).
  - vm_compute; reflexivity.
  - reflexivity.
Defined.

(** ** The progress of the initialisation *)

Lemma float_le_not_nan x y :
  PrimFloat.leb x y = true → PrimFloat.is_nan x = false ∧ PrimFloat.is_nan y = false.
Proof.
  unfold PrimFloat.is_nan. rewrite FloatAxioms.leb_spec, !FloatAxioms.eqb_spec.
  unfold SFleb, SFeqb.
  destruct (Prim2SF x) as [sx|sx| |sx mx ex], (Prim2SF y) as [sy|sy| |sy my ey]; try done;
    intros _; cbn; rewrite ?Z.compare_refl, ?Pos.compare_cont_refl;
    repeat case_match; done.
Qed.

(** [Math.max(0, Math.min(1, p))] outside the unit interval. *)
Lemma unit_clamp_above p : PrimFloat.leb 1 p = true → Math_max 0 (Math_min 1 p) = 1%float.
Proof.
  intros H. destruct (float_le_not_nan _ _ H) as [_ Hp].
  assert (Hm : Math_min 1 p = 1%float).
  { unfold Math_min. rewrite Hp. cbn.
    destruct (PrimFloat.ltb 1 p) eqn:H1; [done|].
    rewrite (float_le_not_lt _ _ H).
    apply (eqb_finite _ _ false 4503599627370496 (-52)); [reflexivity|].
    apply float_eq; try done. by apply float_le_not_lt. }
  by rewrite Hm.
Qed.

Lemma unit_clamp_below p : PrimFloat.leb p 0 = true → Math_max 0 (Math_min 1 p) = 0%float.
Proof.
  intros H. destruct (float_le_not_nan _ _ H) as [Hp _].
  assert (Hlt : PrimFloat.ltb 1 p = false ∧ PrimFloat.ltb p 1 = true).
  { revert H. rewrite FloatAxioms.leb_spec, !FloatAxioms.ltb_spec.
    change (Prim2SF 0) with (S754_zero false).
    change (Prim2SF 1) with (S754_finite false 4503599627370496 (-52)).
    unfold SFleb, SFltb.
    destruct (Prim2SF p) as [s|s| |s m e]; try destruct s; cbn [SFcompare]; done. }
  destruct Hlt as [H1 H2].
  assert (Hm : Math_min 1 p = p).
  { unfold Math_min. rewrite Hp. cbn. by rewrite H1, H2. }
  rewrite Hm. unfold Math_max. rewrite Hp. cbn.
  rewrite (float_le_not_lt _ _ H). by destruct (PrimFloat.ltb p 0).
Qed.

Lemma nan_propagates x y : Prim2SF (x + y * nan) = S754_nan.
Proof.
  rewrite FloatAxioms.add_spec, FloatAxioms.mul_spec.
  change (Prim2SF nan) with S754_nan.
  unfold SF64add, SF64mul. destruct (Prim2SF y); cbn; by destruct (Prim2SF x).
Qed.

Lemma find_phase f ph :
  List.find f INIT_STATUS_MAP = Some ph → ph ∈ INIT_STATUS_MAP.
Proof. intros H. apply List.find_some in H as [H _]. by apply list_elem_of_In. Qed.

(** X3. The logger keeps the progress of the initialisation within the
    band of its phase also when the engine's sub-progress is out of range.
    For a status of the initialisation that matches a phase, a sub-progress
    of 1 or more, or none at all, gives the end of the phase's band, a
    sub-progress of 0 or less gives its start, each with the phase's label;
    only a NaN sub-progress gets through, as NaN. *)
Theorem init_progress_stays_in_band :
  ∀ m st ph,
    status m ≠ Some "recognizing text" →
    List.find (fun ph => includes (toLowerCase (default "" (status m))) (key ph))
      INIT_STATUS_MAP = Some ph →
    (progress m = None ∨ (∃ p, progress m = Some p ∧ PrimFloat.leb 1 p = true) →
     logger m st = setWorkerInitProgress (to ph) (label ph) st)
    ∧ (∀ p, progress m = Some p → PrimFloat.leb p 0 = true →
       logger m st = setWorkerInitProgress (from ph) (label ph) st)
    ∧ (∀ p, progress m = Some p → PrimFloat.is_nan p = true →
       logger m st = setWorkerInitProgress nan (label ph) st).
Proof.
  intros m st ph Hs Hfind. unfold logger.
  rewrite bool_decide_eq_false_2 by exact Hs. rewrite Hfind.
  apply find_phase in Hfind.
  assert (Hends : Math_round (from ph + (to ph - from ph) * 1) = to ph
                  ∧ Math_round (from ph + (to ph - from ph) * 0) = from ph).
  { unfold INIT_STATUS_MAP in Hfind.
    repeat (apply elem_of_cons in Hfind as [->|Hfind]; [by split|]).
    by apply elem_of_nil in Hfind. }
  destruct Hends as [Hto Hfrom]. split_and!.
  - intros [->|(p & -> & Hp)]; [by rewrite Hto|].
    by rewrite (unit_clamp_above p Hp), Hto.
  - intros p -> Hp. by rewrite (unit_clamp_below p Hp), Hfrom.
  - intros p -> Hp. rewrite (clamp_nan 0 1 p Hp).
    assert (Hn : (from ph + (to ph - from ph) * nan)%float = nan).
    { apply Prim2SF_inj. by rewrite nan_propagates. }
    by rewrite Hn.
Qed.

Lemma init_progress_stays_in_band_witness :
  let m := {| status := Some "Loading language traineddata"; progress := Some 1.5%float |} in
  logger m (init "eng") = setWorkerInitProgress 85 "Loading language data…" (init "eng").
Proof.
  cbv zeta.
  destruct (init_progress_stays_in_band
              {| status := Some "Loading language traineddata"; progress := Some 1.5%float |}
              (init "eng")
              {| key := "loading language traineddata"; label := "Loading language data…";
                 from := 50; to := 85 |}) as (above & _ & _).
  - discriminate.
  - vm_compute; reflexivity.
  - apply above. right. exists 1.5%float. split; reflexivity.
Defined.

(** ** One load, one animation loop *)

Lemma filter_cancelled (l : list load) :
  List.filter (fun l => negb (cancelled l))
    ((fun l => {| load_stage := load_stage l; cancelled := true |}) <$> l) = [].
Proof. induction l as [|x l IH]; [done|]. exact IH. Qed.

Lemma filter_insert_stage (l : list load) i x s :
  l !! i = Some x →
  length (List.filter (fun l => negb (cancelled l))
            (<[i := {| load_stage := s; cancelled := cancelled x |}]> l))
  = length (List.filter (fun l => negb (cancelled l)) l).
Proof.
  revert i. induction l as [|y l IH]; intros [|i] H; try done.
  - injection H as ->. cbn. by destruct (cancelled x).
  - cbn. destruct (cancelled y); cbn; [apply (IH i H)|f_equal; apply (IH i H)].
Qed.

Lemma filter_delete_length (l : list load) i :
  (length (List.filter (fun l => negb (cancelled l)) (delete i l))
   ≤ length (List.filter (fun l => negb (cancelled l)) l))%nat.
Proof.
  revert i. induction l as [|y l IH]; intros [|i]; try done.
  - change (delete 0%nat (y :: l)) with l. cbn [List.filter].
    destruct (negb (cancelled y)); cbn [length]; lia.
  - change (delete (S i) (y :: l)) with (y :: delete i l). cbn [List.filter].
    specialize (IH i). destruct (negb (cancelled y)); cbn [length]; lia.
Qed.

Lemma live_step ev a a' :
  (length (live a) ≤ 1)%nat → App.step ev a = Some a' → (length (live a') ≤ 1)%nat.
Proof.
  unfold live. intros H Hstep. app_cases ev Hstep.
  - destruct ev; cbv beta iota in Hstep; try done;
      (destruct (step _ (ocr a)); [by injection Hstep as <-|done]).
  - unfold App.handleCanvasReady, App.triggerOcrForPage in Hstep.
    repeat case_match; try done; by injection Hstep as <-.
  - unfold App.page_effect, App.triggerOcrForPage in Hstep.
    repeat case_match; try done; by injection Hstep as <-.
  - unfold App.onRunOcr, App.triggerOcrForPage in Hstep.
    repeat case_match; try done; by injection Hstep as <-.
  - injection Hstep as <-. unfold App.handler. by repeat case_match.
  - by injection Hstep as <-.
  - by injection Hstep as <-.
  - by injection Hstep as <-.
  - by injection Hstep as <-.
  - by injection Hstep as <-.
  - injection Hstep as <-. unfold usePdfDocument.effect, usePdfDocument.loadPdf.
    repeat case_match; cbn; rewrite ?List.filter_app, ?filter_cancelled; cbn; lia.
  - unfold usePdfDocument.resume_destroy in Hstep.
    destruct (loads (documents a) !! i) as [[[] c]|] eqn:Hi; try done.
    injection Hstep as <-. cbn.
    pose proof (filter_insert_stage _ i _ Loading Hi) as E. cbn in E. by rewrite E.
  - unfold usePdfDocument.resume_load in Hstep.
    destruct (loads (documents a) !! i) as [[[] c]|] eqn:Hi; try done.
    pose proof (filter_delete_length (loads (documents a)) i).
    repeat case_match; injection Hstep as <-; cbn; lia.
  - unfold usePdfDocument.onPassword in Hstep.
    repeat case_match; try done; by injection Hstep as <-.
  - injection Hstep as <-.
    unfold useAutoScroll.effects, useAutoScroll.effect, useAutoScroll.cancel.
    by repeat case_match.
  - unfold useAutoScroll.frame in Hstep. case_match; [|done]. injection Hstep as <-.
    unfold useAutoScroll.step. by repeat case_match.
  - injection Hstep as <-. unfold useAutoScroll.handleVisibilityChange. by case_match.
  - injection Hstep as <-. unfold useAutoScroll.handleBlur. by case_match.
  - by injection Hstep as <-.
Qed.

(** X20. At most one load can publish its document. Whatever the
    application has done, among the [loadPdf] activations in flight at most
    one has not been cancelled: the one started by the latest run of the
    effect. *)
Theorem one_live_load :
  ∀ a, App.reachable a → (length (live a) ≤ 1)%nat.
Proof.
  apply reachable_invariant; [cbn; lia|]. intros ev a a'. apply live_step.
Qed.

Lemma one_live_load_witness :
  (length (live (App.exec (AppSample.reopened ++ [App.PdfEffect; App.Destroyed 0;
                                                 App.PdfEffect]) App.init)) ≤ 1)%nat.
Proof. apply one_live_load. by eexists. Defined.

Lemma one_loop_same a a' : scrolling a' = scrolling a → one_loop a → one_loop a'.
Proof. unfold one_loop. by intros ->. Qed.

Lemma frames_of_one_loop a :
  one_loop a →
  frames (scrolling a) = []
  ∨ ∃ id, frames (scrolling a) = [id] ∧ rafRef (scrolling a) = Some id.
Proof.
  intros [Hlen Hraf]. destruct (frames (scrolling a)) as [|id [|id' l]] eqn:E.
  - by left.
  - right. exists id. split; [done|]. apply Hraf. apply list_elem_of_here.
  - cbn in Hlen. lia.
Qed.

Lemma one_loop_cancel a :
  one_loop a → frames (scrolling (useAutoScroll.cancel a)) = [].
Proof.
  intros H. unfold useAutoScroll.cancel.
  destruct (frames_of_one_loop a H) as [E|(id & E & Hr)].
  - destruct (rafRef (scrolling a)); cbn; by rewrite E.
  - rewrite Hr. cbn. rewrite E. cbn. by rewrite Nat.eqb_refl.
Qed.

Lemma one_loop_request a :
  frames (scrolling a) = [] → one_loop (useAutoScroll.requestAnimationFrame a).
Proof.
  intros E. unfold one_loop, useAutoScroll.requestAnimationFrame. cbn. rewrite E. cbn.
  split; [lia|]. intros id Hid. apply list_elem_of_singleton in Hid. by subst.
Qed.

Lemma one_loop_empty a : frames (scrolling a) = [] → one_loop a.
Proof. intros E. unfold one_loop. rewrite E. split; [cbn; lia|]. by intros id Hid%elem_of_nil. Qed.

Lemma one_loop_step ev a a' : one_loop a → App.step ev a = Some a' → one_loop a'.
Proof.
  intros H Hstep. app_cases ev Hstep.
  - destruct ev; cbv beta iota in Hstep; try done;
      (destruct (step _ (ocr a)); [by injection Hstep as <-|done]).
  - unfold App.handleCanvasReady, App.triggerOcrForPage in Hstep.
    repeat case_match; try done; by injection Hstep as <-.
  - unfold App.page_effect, App.triggerOcrForPage in Hstep.
    repeat case_match; try done; by injection Hstep as <-.
  - unfold App.onRunOcr, App.triggerOcrForPage in Hstep.
    repeat case_match; try done; by injection Hstep as <-.
  - injection Hstep as <-. unfold App.handler. by repeat case_match.
  - by injection Hstep as <-.
  - by injection Hstep as <-.
  - by injection Hstep as <-.
  - by injection Hstep as <-.
  - by injection Hstep as <-.
  - injection Hstep as <-. unfold usePdfDocument.effect, usePdfDocument.loadPdf.
    by repeat case_match.
  - unfold usePdfDocument.resume_destroy in Hstep.
    repeat case_match; try done. by injection Hstep as <-.
  - unfold usePdfDocument.resume_load in Hstep.
    repeat case_match; try done; by injection Hstep as <-.
  - unfold usePdfDocument.onPassword in Hstep.
    repeat case_match; try done; by injection Hstep as <-.
  - injection Hstep as <-. unfold useAutoScroll.effects.
    destruct (Bool.eqb _ _); [exact H|].
    pose proof (one_loop_cancel a H) as Hc.
    unfold useAutoScroll.effect.
    destruct (useStore.isScrolling _).
    + by apply one_loop_request.
    + apply one_loop_empty. unfold useAutoScroll.cancel at 1.
      destruct (rafRef _); cbn; [|exact Hc]. cbn in Hc. by rewrite Hc.
  - unfold useAutoScroll.frame in Hstep.
    destruct (bool_decide _) eqn:Hin; [|done]. injection Hstep as <-.
    apply bool_decide_eq_true in Hin.
    destruct (frames_of_one_loop a H) as [E|(id' & E & Hr)].
    { rewrite E in Hin. by apply elem_of_nil in Hin. }
    rewrite E in Hin. apply list_elem_of_singleton in Hin as ->.
    rewrite E. cbn [List.filter]. rewrite Nat.eqb_refl. cbn [negb].
    unfold useAutoScroll.step.
    repeat case_match; first [by apply one_loop_request | by apply one_loop_empty].
  - injection Hstep as <-. unfold useAutoScroll.handleVisibilityChange. by case_match.
  - injection Hstep as <-. unfold useAutoScroll.handleBlur. by case_match.
  - by injection Hstep as <-.
Qed.

(** X21. There is never more than one animation loop. Whatever the
    application has done, at most one animation frame is pending, and it is
    the one [rafRef] holds, so that the clean-up of the effect cancels it. *)
Theorem one_animation_loop :
  ∀ a, App.reachable a → one_loop a.
Proof.
  apply reachable_invariant; [by apply one_loop_empty|]. apply one_loop_step.
Qed.

Lemma one_animation_loop_witness :
  one_loop (App.exec (AppSample.playing ++ [App.ScrollEffects;
                                           App.Store (useStore.SetScrollSpeed 120);
                                           App.ScrollEffects]) App.init).
Proof. apply one_animation_loop. by eexists. Defined.

(** ** The password prompt *)

Lemma message_not_cancelled name msg str :
  usePdfDocument.message name msg str ≠ "Password entry cancelled.".
Proof. unfold usePdfDocument.message. by repeat case_match. Qed.

(** X22. The message of a dismissed password prompt lasts only when the
    loading task is rejected with null or undefined. When the prompt of a
    load that has not been superseded is dismissed, the store shows
    "Password entry cancelled." and is no longer loading, but the load
    stays in flight. When its loading task is then rejected with a value,
    the [catch] block replaces the message by the one of the rejection,
    which is never "Password entry cancelled."; when it is rejected with
    null or undefined, reading [pdfErr.name] throws inside the [catch]
    block and the message stays. Either way the [finally] block leaves
    [pdfLoading] false and the load is gone. *)
Theorem password_message_after_rejection :
  ∀ a i err,
    loads (documents a) !! i = Some {| load_stage := Loading; cancelled := false |} →
    ∃ a1 a2,
      usePdfDocument.onPassword i None a = Some a1
      ∧ useStore.pdfError (view a1) = Some "Password entry cancelled."
      ∧ useStore.pdfLoading (view a1) = false
      ∧ loads (documents a1) = loads (documents a)
      ∧ usePdfDocument.resume_load i (usePdfDocument.Rejected err) a1 = Some a2
      ∧ useStore.pdfLoading (view a2) = false
      ∧ loads (documents a2) = delete i (loads (documents a))
      ∧ match err with
        | usePdfDocument.Nullish =>
            useStore.pdfError (view a2) = Some "Password entry cancelled."
        | usePdfDocument.Thrown name msg str =>
            useStore.pdfError (view a2) = Some (usePdfDocument.message name msg str)
            ∧ useStore.pdfError (view a2) ≠ Some "Password entry cancelled."
        end.
Proof.
  intros a i err Hi.
  unfold usePdfDocument.onPassword, usePdfDocument.resume_load. rewrite Hi.
  destruct err as [|name msg str];
    (eexists _, _; split; [reflexivity|]; cbn; rewrite Hi; split_and!; try reflexivity).
  cbn. intros [= H]. by apply message_not_cancelled in H.
Qed.

Lemma password_message_after_rejection_witness :
  let a := App.exec (AppSample.reopened ++ [App.PdfEffect; App.Destroyed 0]) App.init in
  ∃ a1 a2,
    usePdfDocument.onPassword 0 None a = Some a1
    ∧ useStore.pdfError (view a1) = Some "Password entry cancelled."
    ∧ useStore.pdfLoading (view a1) = false
    ∧ loads (documents a1) = loads (documents a)
    ∧ usePdfDocument.resume_load 0 (usePdfDocument.Rejected usePdfDocument.Nullish) a1
      = Some a2
    ∧ useStore.pdfLoading (view a2) = false
    ∧ loads (documents a2) = delete 0%nat (loads (documents a))
    ∧ useStore.pdfError (view a2) = Some "Password entry cancelled.".
Proof.
  cbv zeta.
  refine (password_message_after_rejection
            (App.exec (AppSample.reopened ++ [App.PdfEffect; App.Destroyed 0]) App.init) 0
            usePdfDocument.Nullish _).
  vm_compute; reflexivity.
Defined.

(** ** The flags of the store *)

Lemma flags_ok_same st st' :
  ocrLoading (st_store st') = ocrLoading (st_store st) →
  workerReady (st_store st') = workerReady (st_store st) →
  st_refs st' = st_refs st →
  flags_ok st → flags_ok st'.
Proof. unfold flags_ok. by intros -> -> ->. Qed.

Lemma runOcr_flags_ok fuel cl rq st st' r :
  runOcr fuel cl rq st = Some (st', r) → flags_ok st → flags_ok st'.
Proof.
  revert rq st st' r. induction fuel as [|fuel IH]; intros rq st st' r; [done|].
  runOcr_branches cl rq st.
  - by intros [= <- <-].
  - intros [= <- <-]. by destruct (forceRun rq).
  - by intros [= <- <-].
  - intros [= <- <-] [_ H]. unfold started. by destruct (forceRun rq).
  - rewrite finally_eq. intros Hf [_ H].
    assert (H1 : flags_ok (set_pendingRef None
                             (idle (catch (pageNumber rq) err (started rq st))))).
    { unfold started. by destruct (forceRun rq). }
    replace (pendingRef (st_refs (catch (pageNumber rq) err (started rq st))))
      with (pendingRef (st_refs st)) in Hf by (cbn; by rewrite started_refs).
    destruct (pendingRef (st_refs st)) as [p|] eqn:Hp.
    + destruct (runOcr fuel cl p _) as [[st2 r2]|] eqn:Hrun; [|done].
      injection Hf as <- <-. by apply IH in Hrun.
    + injection Hf as <- <-. unfold started. by destruct (forceRun rq).
Qed.

Lemma step_flags_ok ev st st' :
  consistent st → flags_ok st → step ev st = Some st' → flags_ok st'.
Proof.
  intros (_ & Hw & _) Hf Hstep. step_cases ev Hstep.
  - destruct (runOcr depth cl rq st) as [[st1 r1]|] eqn:H; [|done].
    injection Hstep as <-. by apply runOcr_flags_ok in H.
  - destruct (recognizing (st_host st) !! i) as [a|] eqn:Ha;
      [|unfold resume_recognize in Hstep; by rewrite Ha in Hstep].
    rewrite (resume_recognize_eq _ _ _ _ Ha), finally_eq in Hstep.
    rewrite try_end_refs in Hstep. cbn [st_refs set_recognizing with_host] in Hstep.
    set (st1 := try_end a r _) in *.
    assert (H1 : flags_ok (set_pendingRef None (idle st1))).
    { destruct Hf as [_ Hf]. subst st1. destruct r as [text|err]; cbn [try_end];
        [destruct (0 <? strlen (trim text))|]; by split. }
    destruct (pendingRef (st_refs st)) as [p|] eqn:Hp.
    + destruct (runOcr depth _ p _) as [[st2 r2]|] eqn:H; [|done].
      injection Hstep as <-. by apply runOcr_flags_ok in H.
    + injection Hstep as <-. destruct Hf as [_ Hf]. subst st1.
      destruct r as [text|err]; cbn [try_end];
        [destruct (0 <? strlen (trim text))|]; by split.
  - injection Hstep as <-. unfold initWorker.
    destruct (workerRef (st_refs st)) eqn:E; [exact Hf|].
    destruct Hf as [Hl _]. split; [exact Hl|]. cbn.
    destruct (workerReadyRef (st_refs st)); [|done].
    destruct (Hw eq_refl) as [w Hw']. congruence.
  - unfold resume_terminate in Hstep.
    destruct (initializing (st_host st) !! i) as [[l|l]|]; [|done..].
    injection Hstep as <-. destruct Hf as [Hl _]. by split.
  - unfold resume_createWorker in Hstep.
    destruct (initializing (st_host st) !! i) as [[l|l]|]; [done| |done].
    destruct Hf as [Hl _]. destruct r as [w|err].
    + cbn in Hstep. destruct (pendingRef (st_refs st)); injection Hstep as <-; by split.
    + injection Hstep as <-. by split.
  - unfold timeout in Hstep. destruct (timeouts (st_host st) !! i) as [rq|]; [|done].
    destruct (runOcr depth _ rq _) as [[st1 r1]|] eqn:H; [|done].
    injection Hstep as <-. by apply runOcr_flags_ok in H.
  - injection Hstep as <-. unfold logger. by repeat case_match.
  - by injection Hstep as <-.
  - by injection Hstep as <-.
  - by injection Hstep as <-.
Qed.

Lemma app_step_consistent ev a a' :
  consistent (ocr a) → App.step ev a = Some a' → consistent (ocr a').
Proof.
  intros Hc Hstep.
  destruct (app_step_ocr _ _ _ Hstep) as [->|[->|[(hev & Hs & _)|[lang ->]]]]; try done.
  by apply (step_consistent hev (ocr a)).
Qed.

(** X23. The two flags of the store tell the truth. Whatever the
    application has done, [ocrLoading] is true exactly while one
    recognition is with the engine (it is the hook's [isRunningRef]), and
    [workerReady] is true exactly when the hook's [workerReadyRef] is, in
    which case the hook holds a worker. *)
Theorem store_flags_mirror_the_hook :
  ∀ a,
    App.reachable a →
    flags_ok (ocr a)
    ∧ (ocrLoading (st_store (ocr a)) = true ↔ length (recognizing (st_host (ocr a))) = 1%nat)
    ∧ (workerReady (st_store (ocr a)) = true → is_Some (workerRef (st_refs (ocr a)))).
Proof.
  intros a Hreach.
  assert (Hf : consistent (ocr a) ∧ flags_ok (ocr a)).
  { revert a Hreach. apply reachable_invariant; [split; [apply init_consistent|by split]|].
    intros ev a a' [Hc Hf] Hstep. split; [by apply (app_step_consistent ev a)|].
    destruct (app_step_ocr _ _ _ Hstep) as [->|[->|[(hev & Hs & _)|[lang ->]]]]; try done.
    by apply (step_flags_ok hev (ocr a)). }
  destruct Hf as [(Hlen & Hw & _) [Hl Hr]]. split; [by split|]. split.
  - rewrite Hl, Hlen. by destruct (isRunningRef _).
  - rewrite Hr. exact Hw.
Qed.

Lemma store_flags_mirror_the_hook_witness :
  let a := App.exec AppSample.page1_drawn App.init in
  flags_ok (ocr a)
  ∧ (ocrLoading (st_store (ocr a)) = true ↔ length (recognizing (st_host (ocr a))) = 1%nat)
  ∧ (workerReady (st_store (ocr a)) = true → is_Some (workerRef (st_refs (ocr a)))).
Proof. cbv zeta. apply store_flags_mirror_the_hook. by eexists. Defined.

(** ** Cache keys tell pages, zooms and languages apart *)

Lemma split_head_pretty_app (z : Z) rest :
  JSString.split_head ":" (pretty z +:+ rest) = pretty z +:+ JSString.split_head ":" rest.
Proof.
  assert (H : ∀ x, JSString.split_head ":" (pretty_N_go x "" +:+ rest)
                   = pretty_N_go x "" +:+ JSString.split_head ":" rest).
  { intros x. by rewrite <- !pretty_N_go_app, split_head_pretty_N_go. }
  destruct z as [|p|p].
  - reflexivity.
  - apply (H (N.pos p)).
  - change (pretty (Z.neg p)) with (String "-" (pretty_N_go (N.pos p) "")).
    change (String "-" ?s +:+ ?t) with (String "-" (s +:+ t)).
    cbn [JSString.split_head]. rewrite bool_decide_eq_false_2 by done.
    f_equal. apply (H (N.pos p)).
Qed.

Lemma split_head_toFixed2 x rest :
  JSString.split_head ":" (toFixed2 x +:+ ":" +:+ rest) = toFixed2 x.
Proof.
  unfold toFixed2. destruct (Prim2SF x) as [s|s| |s m e]; try (by destruct s); try done.
  set (n := if 0 <=? e then _ else _).
  assert (H : JSString.split_head ":"
                (pretty (n `div` 100) +:+ "." +:+ two_digits (n `mod` 100) +:+ ":" +:+ rest)
              = pretty (n `div` 100) +:+ "." +:+ two_digits (n `mod` 100)).
  { rewrite split_head_pretty_app. f_equal.
    change ("." +:+ ?t) with (String "." t).
    cbn [JSString.split_head]. rewrite bool_decide_eq_false_2 by done. f_equal.
    unfold two_digits. destruct (n `mod` 100 <? 10).
    - change ("0" +:+ ?t) with (String "0" t).
      change (String "0" ?s +:+ ?t) with (String "0" (s +:+ t)).
      cbn [JSString.split_head]. rewrite bool_decide_eq_false_2 by done. f_equal.
      apply split_head_pretty.
    - apply split_head_pretty. }
  destruct s.
  - rewrite !append_assoc. change ("-" +:+ ?t) with (String "-" t).
    cbn [JSString.split_head]. rewrite bool_decide_eq_false_2 by done. f_equal. exact H.
  - change ("" +:+ ?t) with t. rewrite !append_assoc. exact H.
Qed.

Lemma app_inv_head (s t1 t2 : string) : s +:+ t1 = s +:+ t2 → t1 = t2.
Proof.
  induction s as [|a s IH]; [done|].
  change (String a (s +:+ t1) = String a (s +:+ t2) → t1 = t2).
  intros [= H]. by apply IH.
Qed.

Lemma cacheKey_components cl rq cl' rq' :
  cacheKey cl rq = cacheKey cl' rq' →
  pageNumber rq = pageNumber rq'
  ∧ toFixed2 (zoom rq) = toFixed2 (zoom rq')
  ∧ ocrLanguage_of cl = ocrLanguage_of cl'.
Proof.
  intros H.
  assert (Hp : pretty (pageNumber rq) = pretty (pageNumber rq')).
  { rewrite <- (split_head_pretty (pageNumber rq)
                  (toFixed2 (zoom rq) +:+ ":" +:+ ocrLanguage_of cl)).
    rewrite <- (split_head_pretty (pageNumber rq')
                  (toFixed2 (zoom rq') +:+ ":" +:+ ocrLanguage_of cl')).
    unfold cacheKey in H. by rewrite H. }
  unfold cacheKey in H. rewrite Hp in H. do 2 apply app_inv_head in H.
  assert (Hz : toFixed2 (zoom rq) = toFixed2 (zoom rq')).
  { rewrite <- (split_head_toFixed2 (zoom rq) (ocrLanguage_of cl)).
    rewrite <- (split_head_toFixed2 (zoom rq') (ocrLanguage_of cl')).
    by rewrite H. }
  rewrite Hz in H. do 2 apply app_inv_head in H.
  split_and!; [|done..]. by apply (inj pretty).
Qed.

(** X24. A cache key belongs to one page, one zoom as printed with two
    decimals, and one language. For integer page numbers of magnitude
    below 2^53 and zooms that [toFixed(2)] prints without an exponent (of
    magnitude below 10^21, or not finite), two calls of the hook that build
    the same key have the same page number, zooms that print alike, and the
    same language, whatever the language strings are; and two calls that
    differ in one of the three build different keys. The text of one page
    or one language is never filed under the key of another. *)
Theorem cache_key_tells_calls_apart :
  ∀ cl rq cl' rq',
    safe_integer (pageNumber rq) →
    safe_integer (pageNumber rq') →
    fixed_notation (zoom rq) = true →
    fixed_notation (zoom rq') = true →
    (cacheKey cl rq = cacheKey cl' rq' →
     pageNumber rq = pageNumber rq'
     ∧ toFixed2 (zoom rq) = toFixed2 (zoom rq')
     ∧ ocrLanguage_of cl = ocrLanguage_of cl')
    ∧ (pageNumber rq ≠ pageNumber rq'
       ∨ toFixed2 (zoom rq) ≠ toFixed2 (zoom rq')
       ∨ ocrLanguage_of cl ≠ ocrLanguage_of cl' →
       cacheKey cl rq ≠ cacheKey cl' rq').
Proof.
  intros cl rq cl' rq' _ _ _ _. split; [apply cacheKey_components|].
  intros Hne H. apply cacheKey_components in H as (? & ? & ?).
  by destruct Hne as [?|[?|?]].
Qed.

Lemma cache_key_tells_calls_apart_witness :
  let cl := render (init "eng") in
  let rq := {| canvas := Sample.page 3; pageNumber := 3; zoom := 1.25; forceRun := false |} in
  let cl' := render (exec Sample.page2_done (init "eng")) in
  let rq' := {| canvas := Sample.poster true; pageNumber := 3; zoom := 1.2509765625;
                forceRun := true |} in
  let rq'' := {| canvas := Sample.page 3; pageNumber := 30; zoom := 1.25; forceRun := false |} in
  (safe_integer 3 ∧ safe_integer 30
   ∧ fixed_notation 1.25 = true ∧ fixed_notation 1.2509765625 = true
   ∧ cacheKey cl rq = "3:1.25:eng" ∧ cacheKey cl' rq' = "3:1.25:eng"
   ∧ cacheKey cl rq'' = "30:1.25:eng")
  ∧ (pageNumber rq = pageNumber rq'
     ∧ toFixed2 (zoom rq) = toFixed2 (zoom rq')
     ∧ ocrLanguage_of cl = ocrLanguage_of cl')
  ∧ cacheKey cl rq ≠ cacheKey cl rq''.
Proof.
  cbv zeta.
  assert (H3 : safe_integer 3) by (unfold safe_integer; lia).
  assert (H30 : safe_integer 30) by (unfold safe_integer; lia).
  assert (F1 : fixed_notation 1.25 = true) by (vm_compute; reflexivity).
  assert (F2 : fixed_notation 1.2509765625 = true) by (vm_compute; reflexivity).
  split; [by split_and!; try done; vm_compute|].
  split.
  - refine (proj1 (cache_key_tells_calls_apart (render (init "eng"))
              {| canvas := Sample.page 3; pageNumber := 3; zoom := 1.25; forceRun := false |}
              (render (exec Sample.page2_done (init "eng")))
              {| canvas := Sample.poster true; pageNumber := 3; zoom := 1.2509765625;
                 forceRun := true |} H3 H3 F1 F2) _).
    vm_compute; reflexivity.
  - refine (proj2 (cache_key_tells_calls_apart (render (init "eng"))
              {| canvas := Sample.page 3; pageNumber := 3; zoom := 1.25; forceRun := false |}
              (render (init "eng"))
              {| canvas := Sample.page 3; pageNumber := 30; zoom := 1.25; forceRun := false |}
              H3 H30 F1 F1) _).
    left. cbn. lia.
Defined.
